(** * The [useData] store of the donor dashboard: a shallow embedding

    The hook [useData] keeps eleven collections in React state and exposes
    the [actions] object that mutates them.  This development embeds the
    store as a record, every action as a function on it, and the host
    facilities the actions rely on ([Date], [JSON], [Set]) as executable
    definitions that follow ECMAScript.  The callers of the actions that
    decide what the store receives are embedded with it: the import of
    donors, the sending of an outbox item with the phone number it uses,
    and the paging of the lists.

    Conventions of the embedding:
    - a JavaScript [number] is an integer ([Z]); a numeral of a JSON text
      with a fraction or an exponent is kept as its lexeme, and the one
      thing evaluated of it is whether the double it is read as is zero;
    - a JavaScript string is a byte string (UTF-8);
    - an optional or [undefined] property is [None];
    - a [Date] object is [option Z]: a time value in milliseconds, or
      [None] for the invalid date; [Date.parse] reads the Date Time String
      Format, and what the engine makes of any other text is a parameter
      of the host;
    - the local time zone is a fixed offset from UTC (no daylight saving);
    - the state setters are applied in the order in which they are called;
    - an action that reads a collection from the closure of its render,
      and not through a setter, takes the store that this render shows as
      an argument ([backups.create], [backups.restore]); [roles.delete]
      reads the roles and the users in this way too and is embedded for a
      call made from the latest render, where the store shown is the
      current one. *)

From Stdlib Require Import String Ascii ZArith List Bool Lia.
From Stdlib Require Import MSets.MSetAVL Structures.OrdersEx.
Import ListNotations.

Local Open Scope string_scope.
Local Open Scope list_scope.
Local Open Scope Z_scope.

Infix "+++" := String.append (right associativity, at level 60).

(** ** Exceptions *)

Inductive JSError : Type :=
| SyntaxError
| TypeError
| RangeError
| Error (message : string).

Inductive Exc (A : Type) : Type :=
| Ok (a : A)
| Throw (e : JSError).
Arguments Ok {A} a.
Arguments Throw {A} e.

Definition bind {A B : Type} (c : Exc A) (k : A -> Exc B) : Exc B :=
  match c with
  | Ok a => k a
  | Throw e => Throw e
  end.

Notation "x <- c ;; k" := (bind c (fun x => k))
  (at level 61, c at next level, right associativity).

(** ** Sets of strings: [new Set(ids)] and [idSet.has(x)] *)

Module StringSet := MSetAVL.Make String_as_OT.

Definition Set_new (ids : list string) : StringSet.t :=
  fold_right StringSet.add StringSet.empty ids.

Definition Set_has (s : StringSet.t) (x : string) : bool := StringSet.mem x s.

(** ** Numbers to text *)

Definition digit (n : Z) : ascii := ascii_of_N (Z.to_N (48 + n)).

Definition digit_val (c : ascii) : option Z :=
  let n := Z.of_N (N_of_ascii c) in
  if (48 <=? n) && (n <=? 57) then Some (n - 48) else None.

Definition is_digit (c : ascii) : bool :=
  match digit_val c with Some _ => true | None => false end.

Fixpoint digits_fuel (fuel : nat) (n : Z) (acc : string) : string :=
  match fuel with
  | O => acc
  | S f =>
      let acc' := String (digit (n mod 10)) acc in
      if n <? 10 then acc' else digits_fuel f (n / 10) acc'
  end.

(** Decimal digits of a natural number, most significant first. *)
Definition digits (n : Z) : string :=
  digits_fuel (S (Z.to_nat (Z.log2 n))) n "".

(** [String(n)] for an integer [n]. *)
Definition Z_to_string (n : Z) : string :=
  if n <? 0 then String "-" (digits (- n)) else digits n.

Definition pad2 (n : Z) : string :=
  String (digit (n / 10 mod 10)) (String (digit (n mod 10)) "").

Definition pad3 (n : Z) : string :=
  String (digit (n / 100 mod 10)) (pad2 n).

Definition pad4 (n : Z) : string :=
  String (digit (n / 1000 mod 10)) (pad3 n).

Definition pad6 (n : Z) : string :=
  String (digit (n / 100000 mod 10)) (String (digit (n / 10000 mod 10)) (pad4 n)).

(** [s.split(sep)[0]]: the text before the first separator. *)
Fixpoint split_head (sep : ascii) (s : string) : string :=
  match s with
  | EmptyString => EmptyString
  | String c r => if Ascii.eqb c sep then EmptyString else String c (split_head sep r)
  end.

(** ** The [Date] object (ECMAScript, Date Objects) *)

Module JSDate.

Definition msPerDay : Z := 86400000.
Definition msPerHour : Z := 3600000.
Definition msPerMinute : Z := 60000.
Definition msPerSecond : Z := 1000.

Definition Day (t : Z) : Z := t / msPerDay.
Definition TimeWithinDay (t : Z) : Z := t mod msPerDay.

Definition isLeap (y : Z) : bool :=
  ((y mod 4 =? 0) && negb (y mod 100 =? 0)) || (y mod 400 =? 0).

Definition DaysInYear (y : Z) : Z := if isLeap y then 366 else 365.

Definition DayFromYear (y : Z) : Z :=
  365 * (y - 1970) + (y - 1969) / 4 - (y - 1901) / 100 + (y - 1601) / 400.

(** The largest [y] with [DayFromYear y <= n]: the Gregorian mean year
    gives the year up to one, the two tests settle it. *)
Definition YearFromDay (n : Z) : Z :=
  let y := 1970 + n * 400 / 146097 in
  if DayFromYear (y + 1) <=? n then y + 1
  else if n <? DayFromYear y then y - 1
  else y.

Definition YearFromTime (t : Z) : Z := YearFromDay (Day t).

Definition InLeapYear (t : Z) : Z :=
  if isLeap (YearFromTime t) then 1 else 0.

Definition DayWithinYear (t : Z) : Z := Day t - DayFromYear (YearFromTime t).

(** Months are numbered from 0 (January) to 11 (December).  The month and
    the date of day [d] of a year, [l] being 1 in a leap year and 0
    otherwise. *)
Definition monthFromDay (d l : Z) : Z :=
  if d <? 31 then 0
  else if d <? 59 + l then 1
  else if d <? 90 + l then 2
  else if d <? 120 + l then 3
  else if d <? 151 + l then 4
  else if d <? 181 + l then 5
  else if d <? 212 + l then 6
  else if d <? 243 + l then 7
  else if d <? 273 + l then 8
  else if d <? 304 + l then 9
  else if d <? 334 + l then 10
  else 11.

Definition dateFromDay (d l : Z) : Z :=
  match monthFromDay d l with
  | 0 => d + 1
  | 1 => d - 30
  | 2 => d - 58 - l
  | 3 => d - 89 - l
  | 4 => d - 119 - l
  | 5 => d - 150 - l
  | 6 => d - 180 - l
  | 7 => d - 211 - l
  | 8 => d - 242 - l
  | 9 => d - 272 - l
  | 10 => d - 303 - l
  | _ => d - 333 - l
  end.

Definition MonthFromTime (t : Z) : Z := monthFromDay (DayWithinYear t) (InLeapYear t).
Definition DateFromTime (t : Z) : Z := dateFromDay (DayWithinYear t) (InLeapYear t).

Definition HourFromTime (t : Z) : Z := (t / msPerHour) mod 24.
Definition MinFromTime (t : Z) : Z := (t / msPerMinute) mod 60.
Definition SecFromTime (t : Z) : Z := (t / msPerSecond) mod 60.
Definition msFromTime (t : Z) : Z := t mod msPerSecond.

(** Days of the year before the first of month [mn] (0-based). *)
Definition daysBeforeMonth (leap : bool) (mn : Z) : Z :=
  let l := if leap then 1 else 0 in
  match mn with
  | 0 => 0
  | 1 => 31
  | 2 => 59 + l
  | 3 => 90 + l
  | 4 => 120 + l
  | 5 => 151 + l
  | 6 => 181 + l
  | 7 => 212 + l
  | 8 => 243 + l
  | 9 => 273 + l
  | 10 => 304 + l
  | _ => 334 + l
  end.

(** [MakeDay]: the month may lie outside 0..11 and the date outside the
    month; both carry over. *)
Definition MakeDay (year month date : Z) : Z :=
  let ym := year + month / 12 in
  let mn := month mod 12 in
  DayFromYear ym + daysBeforeMonth (isLeap ym) mn + date - 1.

Definition MakeDate (day time : Z) : Z := day * msPerDay + time.

Definition TimeClip (t : Z) : option Z :=
  if Z.abs t <=? 8640000000000000 then Some t else None.

Definition DaysInMonth (y mn : Z) : Z :=
  match mn with
  | 1 => if isLeap y then 29 else 28
  | 3 | 5 | 8 | 10 => 30
  | _ => 31
  end.

(** *** Local time: a fixed offset [tza] (milliseconds) from UTC *)

Definition LocalTime (tza t : Z) : Z := t + tza.
Definition UTC (tza t : Z) : Z := t - tza.

(** *** Parsing

    [Date.parse] first reads the text by the Date Time String Format: a
    date [YYYY], [YYYY-MM] or [YYYY-MM-DD], alone or followed by a time
    [THH:mm], [THH:mm:ss] or [THH:mm:ss.sss] and then by nothing, [Z] or an
    offset.  A date alone is a UTC time; a date and a time without offset
    are a local time.  For a text outside this format the engine may use
    formats of its own: [other] is that part of the host.  The years with
    a sign and six digits, the hour 24 and a day that its month does not
    have are left to [other] too, the engines differing on them. *)

Definition digits2 (a b : ascii) : option Z :=
  match digit_val a, digit_val b with
  | Some x, Some y => Some (10 * x + y)
  | _, _ => None
  end.

Definition digits4 (a b c d : ascii) : option Z :=
  match digits2 a b, digits2 c d with
  | Some x, Some y => Some (100 * x + y)
  | _, _ => None
  end.

Definition take2 (s : string) : option (Z * string) :=
  match s with
  | String a (String b r) =>
      match digits2 a b with Some v => Some (v, r) | None => None end
  | _ => None
  end.

Definition take3 (s : string) : option (Z * string) :=
  match s with
  | String a (String b (String c r)) =>
      match digit_val a, digits2 b c with
      | Some x, Some y => Some (100 * x + y, r)
      | _, _ => None
      end
  | _ => None
  end.

Definition take4 (s : string) : option (Z * string) :=
  match s with
  | String a (String b (String c (String d r))) =>
      match digits4 a b c d with Some v => Some (v, r) | None => None end
  | _ => None
  end.

(** The date: year, month (from 1) and day, and the rest of the text. *)
Definition parse_date (s : string) : option (Z * Z * Z * string) :=
  match take4 s with
  | Some (y, String "-" r1) =>
      match take2 r1 with
      | Some (m, String "-" r2) =>
          match take2 r2 with
          | Some (d, r3) => Some (y, m, d, r3)
          | None => None
          end
      | Some (m, r2) => Some (y, m, 1, r2)
      | None => None
      end
  | Some (y, r) => Some (y, 1, 1, r)
  | None => None
  end.

(** [:ss] or [:ss.sss], when written: the seconds, the milliseconds and
    the rest of the text. *)
Definition parse_seconds (s : string) : option (Z * Z * string) :=
  match s with
  | String ":" r =>
      match take2 r with
      | Some (sec, String "." r1) =>
          match take3 r1 with
          | Some (ms, r2) => Some (sec, ms, r2)
          | None => None
          end
      | Some (sec, r1) => Some (sec, 0, r1)
      | None => None
      end
  | _ => Some (0, 0, s)
  end.

(** [HH:mm], [HH:mm:ss] or [HH:mm:ss.sss]: the time within the day in
    milliseconds, and the rest of the text. *)
Definition parse_time (s : string) : option (Z * string) :=
  match take2 s with
  | Some (h, String ":" r1) =>
      match take2 r1 with
      | Some (mi, r2) =>
          match parse_seconds r2 with
          | Some (sec, ms, r3) =>
              if (h <=? 23) && (mi <=? 59) && (sec <=? 59)
              then Some (h * msPerHour + mi * msPerMinute + sec * msPerSecond + ms, r3)
              else None
          | None => None
          end
      | None => None
      end
  | _ => None
  end.

(** What is taken off a time to get UTC: nothing for [Z], the offset
    written, or the offset of the host when none is written. *)
Definition parse_offset (tza : Z) (s : string) : option Z :=
  let hhmm (r : string) :=
    match take2 r with
    | Some (h, String ":" r1) =>
        match take2 r1 with
        | Some (mi, EmptyString) =>
            if (h <=? 23) && (mi <=? 59)
            then Some (h * msPerHour + mi * msPerMinute) else None
        | _ => None
        end
    | _ => None
    end in
  match s with
  | EmptyString => Some tza
  | String "Z" EmptyString => Some 0
  | String "+" r => hhmm r
  | String "-" r => option_map Z.opp (hhmm r)
  | _ => None
  end.

Definition parse_format (tza : Z) (s : string) : option Z :=
  match parse_date s with
  | Some (y, m, d, r) =>
      if (1 <=? m) && (m <=? 12) && (1 <=? d) && (d <=? DaysInMonth y (m - 1)) then
        let day := MakeDay y (m - 1) d in
        match r with
        | EmptyString => Some (MakeDate day 0)
        | String "T" r1 =>
            match parse_time r1 with
            | Some (time, r2) =>
                match parse_offset tza r2 with
                | Some off => Some (MakeDate day time - off)
                | None => None
                end
            | None => None
            end
        | _ => None
        end
      else None
  | None => None
  end.

Definition parse (tza : Z) (other : string -> option Z) (s : string) : option Z :=
  match parse_format tza s with
  | Some t => Some t
  | None => other s
  end.

(** [new Date(text)] and [new Date()] at the instant [now]. *)
Definition Date : Type := option Z.
Definition new_of_string (tza : Z) (other : string -> Date) (s : string) : Date :=
  parse tza other s.
Definition new_now (now : Z) : Date := TimeClip now.

(** *** Getters and setters, in local time *)

Definition getDate (tza : Z) (d : Date) : option Z :=
  option_map (fun t => DateFromTime (LocalTime tza t)) d.

Definition getMonth (tza : Z) (d : Date) : option Z :=
  option_map (fun t => MonthFromTime (LocalTime tza t)) d.

Definition getFullYear (tza : Z) (d : Date) : option Z :=
  option_map (fun t => YearFromTime (LocalTime tza t)) d.

(** [x + k] on a number that may be [NaN]. *)
Definition plus (x : option Z) (k : Z) : option Z := option_map (fun v => v + k) x.

Definition setDate (tza : Z) (d : Date) (date : option Z) : Date :=
  match d, date with
  | Some tv, Some dt =>
      let t := LocalTime tza tv in
      TimeClip (UTC tza (MakeDate (MakeDay (YearFromTime t) (MonthFromTime t) dt)
                                  (TimeWithinDay t)))
  | _, _ => None
  end.

Definition setMonth (tza : Z) (d : Date) (month : option Z) : Date :=
  match d, month with
  | Some tv, Some m =>
      let t := LocalTime tza tv in
      TimeClip (UTC tza (MakeDate (MakeDay (YearFromTime t) m (DateFromTime t))
                                  (TimeWithinDay t)))
  | _, _ => None
  end.

(** [setFullYear] starts from time 0 when the date is invalid. *)
Definition setFullYear (tza : Z) (d : Date) (year : option Z) : Date :=
  match year with
  | Some y =>
      let t := match d with Some tv => LocalTime tza tv | None => 0 end in
      TimeClip (UTC tza (MakeDate (MakeDay y (MonthFromTime t) (DateFromTime t))
                                  (TimeWithinDay t)))
  | None => None
  end.

(** *** [toISOString] *)

Definition isoYear (y : Z) : string :=
  if (0 <=? y) && (y <=? 9999) then pad4 y
  else String (if y <? 0 then "-"%char else "+"%char) (pad6 (Z.abs y)).

Definition isoDate (t : Z) : string :=
  isoYear (YearFromTime t) +++ "-" +++ pad2 (MonthFromTime t + 1)
    +++ "-" +++ pad2 (DateFromTime t).

Definition isoTime (t : Z) : string :=
  pad2 (HourFromTime t) +++ ":" +++ pad2 (MinFromTime t) +++ ":"
    +++ pad2 (SecFromTime t) +++ "." +++ pad3 (msFromTime t).

Definition isoString (t : Z) : string := isoDate t +++ "T" +++ isoTime t +++ "Z".

Definition toISOString (d : Date) : Exc string :=
  match d with
  | Some t => Ok (isoString t)
  | None => Throw RangeError
  end.

End JSDate.

(** ** JSON values, [JSON.stringify(v, null, 2)] and [JSON.parse] *)

Module Json.

Unset Elimination Schemes.
Inductive JSON : Type :=
| JNull
| JBool (b : bool)
| JNum (n : Z)
| JDec (lexeme : string)   (* a numeral with a fraction or an exponent *)
| JStr (s : string)
| JArr (items : list JSON)
| JObj (members : list (string * JSON)).
Set Elimination Schemes.

Definition nl : ascii := "010"%char.
Definition dquote : ascii := "034"%char.
Definition backslash : ascii := "092"%char.

(** *** Property access and truthiness *)

(** The value of the last member named [key]: a later duplicate of a key
    overwrites an earlier one. *)
Fixpoint get (ms : list (string * JSON)) (key : string) : option JSON :=
  match ms with
  | [] => None
  | (k, v) :: r =>
      match get r key with
      | Some x => Some x
      | None => if String.eqb k key then Some v else None
      end
  end.

(** [v.key] for a key that is neither [length], an index, nor a name found
    on a prototype: only objects have it, reading it from [null] throws,
    and [None] is [undefined]. *)
Definition prop (v : JSON) (key : string) : Exc (option JSON) :=
  match v with
  | JNull => Throw TypeError
  | JObj ms => Ok (get ms key)
  | _ => Ok None
  end.

(** The longest prefix of digits, and the rest. *)
Fixpoint span_digits (s : string) : string * string :=
  match s with
  | EmptyString => (EmptyString, EmptyString)
  | String c r =>
      if is_digit c then let (d, r') := span_digits r in (String c d, r')
      else (EmptyString, s)
  end.

Fixpoint digits_value (s : string) (acc : Z) : Z :=
  match s with
  | EmptyString => acc
  | String c r =>
      match digit_val c with
      | Some v => digits_value r (10 * acc + v)
      | None => acc
      end
  end.

(** A numeral [-? int frac? exp?] has the value [m * 10 ^ k] up to its
    sign, [m] read from the digits of [int] and [frac] and [k] the exponent
    less the number of digits of [frac]. *)
Definition lexeme_decimal (lex : string) : Z * Z :=
  let s1 := match lex with String "-" r => r | _ => lex end in
  let (ip, s2) := span_digits s1 in
  let (fp, s3) :=
    match s2 with
    | String "." r => span_digits r
    | _ => (EmptyString, s2)
    end in
  let e :=
    match s3 with
    | String _ (String "-" r) => - digits_value (fst (span_digits r)) 0
    | String _ (String "+" r) => digits_value (fst (span_digits r)) 0
    | String _ r => digits_value (fst (span_digits r)) 0
    | EmptyString => 0
    end in
  (digits_value (ip +++ fp) 0, e - Z.of_nat (String.length fp)).

(** The Number value of [m * 10 ^ k] is zero: the nearest double, ties to
    even, is 0 exactly when the value is at most [2 ^ -1075], half of the
    least positive double [2 ^ -1074]. *)
Definition rounds_to_zero (m k : Z) : bool :=
  if m =? 0 then true
  else if 0 <=? k then false
  else m * 2 ^ 1075 <=? 10 ^ (- k).

(** The number that [JSON.parse] reads from the numeral is [0] or [-0]. *)
Definition lexeme_zero (lex : string) : bool :=
  let (m, k) := lexeme_decimal lex in rounds_to_zero m k.

Definition truthy (v : JSON) : bool :=
  match v with
  | JNull => false
  | JBool b => b
  | JNum n => negb (n =? 0)
  | JDec lex => negb (lexeme_zero lex)
  | JStr s => negb (String.eqb s "")
  | JArr _ | JObj _ => true
  end.

Definition truthy_opt (v : option JSON) : bool :=
  match v with Some j => truthy j | None => false end.

(** [x || d] *)
Definition or_else (x : option JSON) (d : JSON) : JSON :=
  match x with
  | Some j => if truthy j then j else d
  | None => d
  end.

(** *** Printing *)

Fixpoint indent (lvl : nat) (k : string) : string :=
  match lvl with
  | O => k
  | S n => String " " (String " " (indent n k))
  end.

Definition newline (lvl : nat) (k : string) : string := String nl (indent lvl k).

Definition hex_digit (n : Z) : ascii :=
  if n <? 10 then digit n else ascii_of_N (Z.to_N (87 + n)).

Definition code (c : ascii) : Z := Z.of_N (N_of_ascii c).

(** One character of a quoted string, followed by [k]. *)
Definition quote_char (c : ascii) (k : string) : string :=
  let n := code c in
  if n =? 8 then String backslash (String "b" k)
  else if n =? 9 then String backslash (String "t" k)
  else if n =? 10 then String backslash (String "n" k)
  else if n =? 12 then String backslash (String "f" k)
  else if n =? 13 then String backslash (String "r" k)
  else if n =? 34 then String backslash (String dquote k)
  else if n =? 92 then String backslash (String backslash k)
  else if n <? 32 then
    String backslash (String "u" (String "0" (String "0"
      (String (hex_digit (n / 16)) (String (hex_digit (n mod 16)) k)))))
  else String c k.

Fixpoint quote_chars (s : string) (k : string) : string :=
  match s with
  | EmptyString => k
  | String c r => quote_char c (quote_chars r k)
  end.

Definition quote (s : string) (k : string) : string :=
  String dquote (quote_chars s (String dquote k)).

Section Printer.
Variable p : nat -> JSON -> string -> string.
Variable lvl : nat.
Variable k : string.

(** The elements after the first and the closing bracket. *)
Fixpoint pr_elems (l : list JSON) : string :=
  match l with
  | [] => newline lvl (String "]" k)
  | y :: ys => String "," (newline (S lvl) (p (S lvl) y (pr_elems ys)))
  end.

Definition pr_member (key : string) (x : JSON) (rest : string) : string :=
  quote key (String ":" (String " " (p (S lvl) x rest))).

Fixpoint pr_mems (l : list (string * JSON)) : string :=
  match l with
  | [] => newline lvl (String "}" k)
  | (key, y) :: ys => String "," (newline (S lvl) (pr_member key y (pr_mems ys)))
  end.
End Printer.

(** [pr lvl v k]: the text of [v] at nesting depth [lvl], followed by [k]. *)
Fixpoint pr (lvl : nat) (v : JSON) (k : string) {struct v} : string :=
  match v with
  | JNull => "null" +++ k
  | JBool true => "true" +++ k
  | JBool false => "false" +++ k
  | JNum n => Z_to_string n +++ k
  | JDec lex => lex +++ k
  | JStr s => quote s k
  | JArr [] => "[]" +++ k
  | JArr (x :: xs) =>
      String "[" (newline (S lvl) (pr (S lvl) x (pr_elems pr lvl k xs)))
  | JObj [] => "{}" +++ k
  | JObj ((key, x) :: ms) =>
      String "{" (newline (S lvl) (pr_member pr lvl key x (pr_mems pr lvl k ms)))
  end.

Definition stringify (v : JSON) : string := pr 0 v "".

(** *** Parsing *)

Definition is_ws (c : ascii) : bool :=
  let n := code c in (n =? 32) || (n =? 9) || (n =? 10) || (n =? 13).

Fixpoint skip_ws (s : string) : string :=
  match s with
  | EmptyString => EmptyString
  | String c r => if is_ws c then skip_ws r else s
  end.

Definition hex_val (c : ascii) : option Z :=
  let n := code c in
  if (48 <=? n) && (n <=? 57) then Some (n - 48)
  else if (97 <=? n) && (n <=? 102) then Some (n - 87)
  else if (65 <=? n) && (n <=? 70) then Some (n - 55)
  else None.

Definition hex4 (a b c d : ascii) : option Z :=
  match hex_val a, hex_val b, hex_val c, hex_val d with
  | Some x, Some y, Some z, Some w => Some (4096 * x + 256 * y + 16 * z + w)
  | _, _, _, _ => None
  end.

Definition byte (n : Z) : ascii := ascii_of_N (Z.to_N n).

(** The UTF-8 bytes of one UTF-16 code unit, followed by [k]. *)
Definition utf8 (u : Z) (k : string) : string :=
  if u <? 128 then String (byte u) k
  else if u <? 2048 then
    String (byte (192 + u / 64)) (String (byte (128 + u mod 64)) k)
  else
    String (byte (224 + u / 4096))
      (String (byte (128 + (u / 64) mod 64)) (String (byte (128 + u mod 64)) k)).

(** The characters of a string up to its closing quote, and the rest. *)
Fixpoint parse_chars (s : string) : option (string * string) :=
  match s with
  | EmptyString => None
  | String c r =>
      if Ascii.eqb c dquote then Some (EmptyString, r)
      else if Ascii.eqb c backslash then
        match r with
        | String e r1 =>
            let plain (x : ascii) :=
              match parse_chars r1 with
              | Some (t, r2) => Some (String x t, r2)
              | None => None
              end in
            if Ascii.eqb e dquote then plain dquote
            else if Ascii.eqb e backslash then plain backslash
            else if Ascii.eqb e "/" then plain "/"%char
            else if Ascii.eqb e "b" then plain (byte 8)
            else if Ascii.eqb e "f" then plain (byte 12)
            else if Ascii.eqb e "n" then plain (byte 10)
            else if Ascii.eqb e "r" then plain (byte 13)
            else if Ascii.eqb e "t" then plain (byte 9)
            else if Ascii.eqb e "u" then
              match r1 with
              | String h1 (String h2 (String h3 (String h4 r2))) =>
                  match hex4 h1 h2 h3 h4, parse_chars r2 with
                  | Some u, Some (t, r3) => Some (utf8 u t, r3)
                  | _, _ => None
                  end
              | _ => None
              end
            else None
        | EmptyString => None
        end
      else if code c <? 32 then None
      else
        match parse_chars r with
        | Some (t, r1) => Some (String c t, r1)
        | None => None
        end
  end.

(** The integer part of a numeral: [0], or digits that do not start with 0. *)
Definition int_part_ok (d : string) : bool :=
  match d with
  | EmptyString => false
  | String c EmptyString => true
  | String c _ => negb (Ascii.eqb c "0")
  end.

Definition parse_fraction (s : string) : option (string * string) :=
  match s with
  | String "." r =>
      match span_digits r with
      | (EmptyString, _) => None
      | (f, r') => Some (String "." f, r')
      end
  | _ => Some (EmptyString, s)
  end.

Definition parse_exponent (s : string) : option (string * string) :=
  let after (e : ascii) (sign : string) (r : string) :=
    match span_digits r with
    | (EmptyString, _) => None
    | (x, r') => Some (String e (sign +++ x), r')
    end in
  let marked (e : ascii) (r : string) :=
    match r with
    | String "+" r1 => after e "+" r1
    | String "-" r1 => after e "-" r1
    | _ => after e "" r
    end in
  match s with
  | String "e" r => marked "e"%char r
  | String "E" r => marked "E"%char r
  | _ => Some (EmptyString, s)
  end.

Definition parse_number (s : string) : option (JSON * string) :=
  let (sign, s1) :=
    match s with
    | String "-" r => ("-", r)
    | _ => ("", s)
    end in
  let (ip, s2) := span_digits s1 in
  if int_part_ok ip then
    match parse_fraction s2 with
    | Some (fp, s3) =>
        match parse_exponent s3 with
        | Some (ep, s4) =>
            match fp, ep with
            | EmptyString, EmptyString =>
                let v := digits_value ip 0 in
                Some (JNum (if String.eqb sign "-" then - v else v), s4)
            | _, _ => Some (JDec (sign +++ ip +++ fp +++ ep), s4)
            end
        | None => None
        end
    | None => None
    end
  else None.

(** A member [key : value], the value read by [pv]. *)
Definition parse_member (pv : string -> option (JSON * string)) (s : string)
  : option ((string * JSON) * string) :=
  match skip_ws s with
  | String c r =>
      if Ascii.eqb c dquote then
        match parse_chars r with
        | Some (key, r1) =>
            match skip_ws r1 with
            | String ":" r2 =>
                match pv r2 with
                | Some (v, r3) => Some ((key, v), r3)
                | None => None
                end
            | _ => None
            end
        | None => None
        end
      else None
  | EmptyString => None
  end.

Fixpoint parse_value (fuel : nat) (s : string) {struct fuel} : option (JSON * string) :=
  match fuel with
  | O => None
  | S f =>
      match skip_ws s with
      | String "n" (String "u" (String "l" (String "l" r))) => Some (JNull, r)
      | String "t" (String "r" (String "u" (String "e" r))) => Some (JBool true, r)
      | String "f" (String "a" (String "l" (String "s" (String "e" r)))) =>
          Some (JBool false, r)
      | String "[" r =>
          match skip_ws r with
          | String c r1 =>
              if Ascii.eqb c "]" then Some (JArr [], r1)
              else
                match parse_value f r with
                | Some (v, r2) =>
                    match parse_elems f r2 with
                    | Some (l, r3) => Some (JArr (v :: l), r3)
                    | None => None
                    end
                | None => None
                end
          | EmptyString => None
          end
      | String "{" r =>
          match skip_ws r with
          | String c r1 =>
              if Ascii.eqb c "}" then Some (JObj [], r1)
              else
                match parse_member (parse_value f) r with
                | Some (m, r2) =>
                    match parse_mems f r2 with
                    | Some (l, r3) => Some (JObj (m :: l), r3)
                    | None => None
                    end
                | None => None
                end
          | EmptyString => None
          end
      | String c r =>
          if Ascii.eqb c dquote then
            match parse_chars r with
            | Some (t, r1) => Some (JStr t, r1)
            | None => None
            end
          else parse_number (String c r)
      | EmptyString => None
      end
  end

with parse_elems (fuel : nat) (s : string) {struct fuel} : option (list JSON * string) :=
  match fuel with
  | O => None
  | S f =>
      match skip_ws s with
      | String "]" r => Some ([], r)
      | String "," r =>
          match parse_value f r with
          | Some (v, r1) =>
              match parse_elems f r1 with
              | Some (l, r2) => Some (v :: l, r2)
              | None => None
              end
          | None => None
          end
      | _ => None
      end
  end

with parse_mems (fuel : nat) (s : string) {struct fuel}
  : option (list (string * JSON) * string) :=
  match fuel with
  | O => None
  | S f =>
      match skip_ws s with
      | String "}" r => Some ([], r)
      | String "," r =>
          match parse_member (parse_value f) r with
          | Some (m, r1) =>
              match parse_mems f r1 with
              | Some (l, r2) => Some (m :: l, r2)
              | None => None
              end
          | None => None
          end
      | _ => None
      end
  end.

(** [JSON.parse]: [None] is the thrown [SyntaxError].  Every recursive call
    has read at least one character, so the length of the text bounds the
    depth of the recursion. *)
Definition parse (s : string) : option JSON :=
  match parse_value (S (String.length s)) s with
  | Some (v, r) =>
      match skip_ws r with
      | EmptyString => Some v
      | _ => None
      end
  | None => None
  end.

End Json.

Import Json.

(** ** Typed values and their JSON form *)

(** [toJSON] is the value [JSON.stringify] sees, with the properties in the
    order of the interface declaration and the absent ones left out;
    [fromJSON] reads a parsed value at the declared type, whatever the order
    of its properties, and refuses a value outside the type. *)
Class Codec (A : Type) : Type := {
  toJSON : A -> JSON;
  fromJSON : JSON -> option A
}.

Definition obind {A B : Type} (c : option A) (k : A -> option B) : option B :=
  match c with
  | Some a => k a
  | None => None
  end.

Notation "'let?' x := c 'in' k" := (obind c (fun x => k))
  (at level 10, x name, c at level 100, k at level 200).

#[export] Instance Codec_string : Codec string := {
  toJSON := JStr;
  fromJSON j := match j with JStr s => Some s | _ => None end
}.

#[export] Instance Codec_Z : Codec Z := {
  toJSON := JNum;
  fromJSON j := match j with JNum n => Some n | _ => None end
}.

#[export] Instance Codec_bool : Codec bool := {
  toJSON := JBool;
  fromJSON j := match j with JBool b => Some b | _ => None end
}.

Fixpoint sequence {A : Type} (l : list (option A)) : option (list A) :=
  match l with
  | [] => Some []
  | x :: r =>
      match x, sequence r with
      | Some a, Some t => Some (a :: t)
      | _, _ => None
      end
  end.

#[export] Instance Codec_list {A : Type} `{Codec A} : Codec (list A) := {
  toJSON l := JArr (map toJSON l);
  fromJSON j := match j with JArr l => sequence (map fromJSON l) | _ => None end
}.

(** An object from its properties, the [undefined] ones left out. *)
Definition present (f : string * option JSON) : list (string * JSON) :=
  match snd f with
  | Some j => [(fst f, j)]
  | None => []
  end.

Definition obj (fields : list (string * option JSON)) : JSON :=
  JObj (flat_map present fields).

Definition field {A : Type} `{Codec A} (key : string) (a : A) : string * option JSON :=
  (key, Some (toJSON a)).

Definition field_opt {A : Type} `{Codec A} (key : string) (a : option A)
  : string * option JSON :=
  (key, option_map toJSON a).

Definition req {A : Type} `{Codec A} (ms : list (string * JSON)) (key : string)
  : option A :=
  match get ms key with
  | Some j => fromJSON j
  | None => None
  end.

Definition opt {A : Type} `{Codec A} (ms : list (string * JSON)) (key : string)
  : option (option A) :=
  match get ms key with
  | Some j => option_map Some (fromJSON j)
  | None => Some None
  end.

(** Every property of the object is one the interface declares. *)
Definition known (keys : list string) (ms : list (string * JSON)) : bool :=
  forallb (fun m => existsb (String.eqb (fst m)) keys) ms.

Definition members_of (keys : list string) (j : JSON) : option (list (string * JSON)) :=
  match j with
  | JObj ms => if known keys ms then Some ms else None
  | _ => None
  end.

(** *** String-literal unions *)

Inductive OutboxStatus := ReadyToSend | Sent | Failed.
Inductive Method := Online | Cash.
Inductive DonationPurpose :=
| Sadaqa | Zakat | Fitrana | Qurbani | SponsorAChild | CleanWater | SastiRoti
| DisasterManagement | Custom.
Inductive Frequency := Weekly | Monthly | Annually.
Inductive RecurringDonation := NoRecurring | Recurs (f : Frequency).
Inductive PledgeStatus := Pending | Due | Completed.
Inductive ProfileStatus := Active | Paused | Cancelled.
Inductive UserStatus := UserActive | UserInactive.
Inductive Channel := Email | WhatsApp.
Inductive LogChannel := LogEmail | LogWhatsApp | LogCall | LogMeeting | LogPrint | LogDownload.
Inductive QueueStatus := Queued | QueueSent | QueueFailed.
Inductive TemplateType := DonationThankYou | PledgeReminder | GeneralUpdate.
Inductive Permission :=
| perm_donors_view | perm_donors_create | perm_donors_edit | perm_donors_delete
| perm_receipts_view | perm_receipts_create | perm_receipts_delete
| perm_reports_view | perm_settings_manage | perm_users_manage.

(** A union of string literals: its text, and the literals to read it back. *)
Definition from_text {A : Type} (text : A -> string) (all : list A) (j : JSON) : option A :=
  match j with
  | JStr s => find (fun a => String.eqb (text a) s) all
  | _ => None
  end.

Definition OutboxStatus_text (s : OutboxStatus) : string :=
  match s with ReadyToSend => "Ready to Send" | Sent => "Sent" | Failed => "Failed" end.
Definition Method_text (m : Method) : string :=
  match m with Online => "Online" | Cash => "Cash" end.
Definition DonationPurpose_text (p : DonationPurpose) : string :=
  match p with
  | Sadaqa => "Sadaqa/Hadiya/Atiyat"
  | Zakat => "Zakat"
  | Fitrana => "Fitrana"
  | Qurbani => "Qurbani"
  | SponsorAChild => "Sponsor a Child"
  | CleanWater => "Clean Water"
  | SastiRoti => "Sasti Roti"
  | DisasterManagement => "Disaster Management"
  | Custom => "Custom"
  end.
Definition Frequency_text (f : Frequency) : string :=
  match f with Weekly => "Weekly" | Monthly => "Monthly" | Annually => "Annually" end.
Definition RecurringDonation_text (r : RecurringDonation) : string :=
  match r with NoRecurring => "None" | Recurs f => Frequency_text f end.
Definition PledgeStatus_text (s : PledgeStatus) : string :=
  match s with Pending => "Pending" | Due => "Due" | Completed => "Completed" end.
Definition ProfileStatus_text (s : ProfileStatus) : string :=
  match s with Active => "Active" | Paused => "Paused" | Cancelled => "Cancelled" end.
Definition UserStatus_text (s : UserStatus) : string :=
  match s with UserActive => "Active" | UserInactive => "Inactive" end.
Definition Channel_text (c : Channel) : string :=
  match c with Email => "Email" | WhatsApp => "WhatsApp" end.
Definition LogChannel_text (c : LogChannel) : string :=
  match c with
  | LogEmail => "Email" | LogWhatsApp => "WhatsApp" | LogCall => "Call"
  | LogMeeting => "Meeting" | LogPrint => "Print" | LogDownload => "Download"
  end.
Definition QueueStatus_text (s : QueueStatus) : string :=
  match s with Queued => "Queued" | QueueSent => "Sent" | QueueFailed => "Failed" end.
Definition TemplateType_text (t : TemplateType) : string :=
  match t with
  | DonationThankYou => "DonationThankYou"
  | PledgeReminder => "PledgeReminder"
  | GeneralUpdate => "GeneralUpdate"
  end.
Definition Permission_text (p : Permission) : string :=
  match p with
  | perm_donors_view => "donors:view"
  | perm_donors_create => "donors:create"
  | perm_donors_edit => "donors:edit"
  | perm_donors_delete => "donors:delete"
  | perm_receipts_view => "receipts:view"
  | perm_receipts_create => "receipts:create"
  | perm_receipts_delete => "receipts:delete"
  | perm_reports_view => "reports:view"
  | perm_settings_manage => "settings:manage"
  | perm_users_manage => "users:manage"
  end.

Definition ALL_PERMISSIONS : list Permission :=
  [perm_donors_view; perm_donors_create; perm_donors_edit; perm_donors_delete; perm_receipts_view;
   perm_receipts_create; perm_receipts_delete; perm_reports_view; perm_settings_manage; perm_users_manage].

#[export] Instance Codec_OutboxStatus : Codec OutboxStatus := {
  toJSON s := JStr (OutboxStatus_text s);
  fromJSON := from_text OutboxStatus_text [ReadyToSend; Sent; Failed]
}.
#[export] Instance Codec_Method : Codec Method := {
  toJSON m := JStr (Method_text m);
  fromJSON := from_text Method_text [Online; Cash]
}.
#[export] Instance Codec_DonationPurpose : Codec DonationPurpose := {
  toJSON p := JStr (DonationPurpose_text p);
  fromJSON := from_text DonationPurpose_text
    [Sadaqa; Zakat; Fitrana; Qurbani; SponsorAChild; CleanWater; SastiRoti;
     DisasterManagement; Custom]
}.
#[export] Instance Codec_Frequency : Codec Frequency := {
  toJSON f := JStr (Frequency_text f);
  fromJSON := from_text Frequency_text [Weekly; Monthly; Annually]
}.
#[export] Instance Codec_RecurringDonation : Codec RecurringDonation := {
  toJSON r := JStr (RecurringDonation_text r);
  fromJSON := from_text RecurringDonation_text
    [NoRecurring; Recurs Weekly; Recurs Monthly; Recurs Annually]
}.
#[export] Instance Codec_PledgeStatus : Codec PledgeStatus := {
  toJSON s := JStr (PledgeStatus_text s);
  fromJSON := from_text PledgeStatus_text [Pending; Due; Completed]
}.
#[export] Instance Codec_ProfileStatus : Codec ProfileStatus := {
  toJSON s := JStr (ProfileStatus_text s);
  fromJSON := from_text ProfileStatus_text [Active; Paused; Cancelled]
}.
#[export] Instance Codec_UserStatus : Codec UserStatus := {
  toJSON s := JStr (UserStatus_text s);
  fromJSON := from_text UserStatus_text [UserActive; UserInactive]
}.
#[export] Instance Codec_Channel : Codec Channel := {
  toJSON c := JStr (Channel_text c);
  fromJSON := from_text Channel_text [Email; WhatsApp]
}.
#[export] Instance Codec_LogChannel : Codec LogChannel := {
  toJSON c := JStr (LogChannel_text c);
  fromJSON := from_text LogChannel_text
    [LogEmail; LogWhatsApp; LogCall; LogMeeting; LogPrint; LogDownload]
}.
#[export] Instance Codec_QueueStatus : Codec QueueStatus := {
  toJSON s := JStr (QueueStatus_text s);
  fromJSON := from_text QueueStatus_text [Queued; QueueSent; QueueFailed]
}.
#[export] Instance Codec_TemplateType : Codec TemplateType := {
  toJSON t := JStr (TemplateType_text t);
  fromJSON := from_text TemplateType_text [DonationThankYou; PledgeReminder; GeneralUpdate]
}.
#[export] Instance Codec_Permission : Codec Permission := {
  toJSON p := JStr (Permission_text p);
  fromJSON := from_text Permission_text ALL_PERMISSIONS
}.

(** *** Records *)

Module DonationHistory.
Record t : Type := mk { date : string; amount : Z; receiptId : string }.
Definition keys : list string := ["date"; "amount"; "receiptId"].
Definition to (x : t) : JSON :=
  obj [field "date" (date x); field "amount" (amount x);
       field "receiptId" (receiptId x)].
Definition from (j : JSON) : option t :=
  let? ms := members_of keys j in
  let? a := req ms "date" in
  let? b := req ms "amount" in
  let? c := req ms "receiptId" in
  Some (mk a b c).
End DonationHistory.
#[export] Instance Codec_DonationHistory : Codec DonationHistory.t :=
  {| toJSON := DonationHistory.to; fromJSON := DonationHistory.from |}.

Module CommunicationLog.
Record t : Type := mk {
  id : string; date : string; channel : LogChannel;
  subjectOrTemplate : string; notes : string; userId : string }.
Definition keys : list string :=
  ["id"; "date"; "channel"; "subjectOrTemplate"; "notes"; "userId"].
Definition to (x : t) : JSON :=
  obj [field "id" (id x); field "date" (date x); field "channel" (channel x);
       field "subjectOrTemplate" (subjectOrTemplate x); field "notes" (notes x);
       field "userId" (userId x)].
Definition from (j : JSON) : option t :=
  let? ms := members_of keys j in
  let? a := req ms "id" in
  let? b := req ms "date" in
  let? c := req ms "channel" in
  let? d := req ms "subjectOrTemplate" in
  let? e := req ms "notes" in
  let? f := req ms "userId" in
  Some (mk a b c d e f).
Definition with_id (x : t) (v : string) : t :=
  mk v (date x) (channel x) (subjectOrTemplate x) (notes x) (userId x).
End CommunicationLog.
#[export] Instance Codec_CommunicationLog : Codec CommunicationLog.t :=
  {| toJSON := CommunicationLog.to; fromJSON := CommunicationLog.from |}.

Module Contact.
Record t : Type := mk {
  id : string; name : string; relationship : string; email : string;
  phone : string; isPrimary : bool }.
Definition keys : list string :=
  ["id"; "name"; "relationship"; "email"; "phone"; "isPrimary"].
Definition to (x : t) : JSON :=
  obj [field "id" (id x); field "name" (name x);
       field "relationship" (relationship x); field "email" (email x);
       field "phone" (phone x); field "isPrimary" (isPrimary x)].
Definition from (j : JSON) : option t :=
  let? ms := members_of keys j in
  let? a := req ms "id" in
  let? b := req ms "name" in
  let? c := req ms "relationship" in
  let? d := req ms "email" in
  let? e := req ms "phone" in
  let? f := req ms "isPrimary" in
  Some (mk a b c d e f).
End Contact.
#[export] Instance Codec_Contact : Codec Contact.t :=
  {| toJSON := Contact.to; fromJSON := Contact.from |}.

Module Tag.
Record t : Type := mk { id : string; name : string; color : string }.
Definition keys : list string := ["id"; "name"; "color"].
Definition to (x : t) : JSON :=
  obj [field "id" (id x); field "name" (name x); field "color" (color x)].
Definition from (j : JSON) : option t :=
  let? ms := members_of keys j in
  let? a := req ms "id" in
  let? b := req ms "name" in
  let? c := req ms "color" in
  Some (mk a b c).
Definition with_id (x : t) (v : string) : t := mk v (name x) (color x).
End Tag.
#[export] Instance Codec_Tag : Codec Tag.t :=
  {| toJSON := Tag.to; fromJSON := Tag.from |}.

Module Donor.
Record t : Type := mk {
  id : string; name : string; email : string; phone : string;
  address : string; joinDate : string;
  donationHistory : list DonationHistory.t;
  tagIds : option (list string);
  notes : option string;
  communicationLogs : option (list CommunicationLog.t);
  contacts : option (list Contact.t) }.
Definition keys : list string :=
  ["id"; "name"; "email"; "phone"; "address"; "joinDate"; "donationHistory";
   "tagIds"; "notes"; "communicationLogs"; "contacts"].
Definition to (x : t) : JSON :=
  obj [field "id" (id x); field "name" (name x); field "email" (email x);
       field "phone" (phone x); field "address" (address x);
       field "joinDate" (joinDate x);
       field "donationHistory" (donationHistory x);
       field_opt "tagIds" (tagIds x); field_opt "notes" (notes x);
       field_opt "communicationLogs" (communicationLogs x);
       field_opt "contacts" (contacts x)].
Definition from (j : JSON) : option t :=
  let? ms := members_of keys j in
  let? a := req ms "id" in
  let? b := req ms "name" in
  let? c := req ms "email" in
  let? d := req ms "phone" in
  let? e := req ms "address" in
  let? f := req ms "joinDate" in
  let? g := req ms "donationHistory" in
  let? h := opt ms "tagIds" in
  let? i := opt ms "notes" in
  let? k := opt ms "communicationLogs" in
  let? l := opt ms "contacts" in
  Some (mk a b c d e f g h i k l).
Definition with_id_history (x : t) (v : string) (h : list DonationHistory.t) : t :=
  mk v (name x) (email x) (phone x) (address x) (joinDate x) h
     (tagIds x) (notes x) (communicationLogs x) (contacts x).
Definition with_donationHistory (x : t) (h : list DonationHistory.t) : t :=
  with_id_history x (id x) h.
Definition with_communicationLogs (x : t) (v : list CommunicationLog.t) : t :=
  mk (id x) (name x) (email x) (phone x) (address x) (joinDate x)
     (donationHistory x) (tagIds x) (notes x) (Some v) (contacts x).
Definition with_tagIds (x : t) (v : list string) : t :=
  mk (id x) (name x) (email x) (phone x) (address x) (joinDate x)
     (donationHistory x) (Some v) (notes x) (communicationLogs x) (contacts x).
End Donor.
#[export] Instance Codec_Donor : Codec Donor.t :=
  {| toJSON := Donor.to; fromJSON := Donor.from |}.

Module Donation.
Record t : Type := mk {
  id : string; donorId : string; amount : Z; date : string;
  method : Method; purpose : DonationPurpose;
  customPurpose : option string; recurring : RecurringDonation }.
Definition keys : list string :=
  ["id"; "donorId"; "amount"; "date"; "method"; "purpose"; "customPurpose";
   "recurring"].
Definition to (x : t) : JSON :=
  obj [field "id" (id x); field "donorId" (donorId x);
       field "amount" (amount x); field "date" (date x);
       field "method" (method x); field "purpose" (purpose x);
       field_opt "customPurpose" (customPurpose x);
       field "recurring" (recurring x)].
Definition from (j : JSON) : option t :=
  let? ms := members_of keys j in
  let? a := req ms "id" in
  let? b := req ms "donorId" in
  let? c := req ms "amount" in
  let? d := req ms "date" in
  let? e := req ms "method" in
  let? f := req ms "purpose" in
  let? g := opt ms "customPurpose" in
  let? h := req ms "recurring" in
  Some (mk a b c d e f g h).
End Donation.
#[export] Instance Codec_Donation : Codec Donation.t :=
  {| toJSON := Donation.to; fromJSON := Donation.from |}.

Module PledgeTask.
Record t : Type := mk { id : string; description : string; completed : bool }.
Definition keys : list string := ["id"; "description"; "completed"].
Definition to (x : t) : JSON :=
  obj [field "id" (id x); field "description" (description x);
       field "completed" (completed x)].
Definition from (j : JSON) : option t :=
  let? ms := members_of keys j in
  let? a := req ms "id" in
  let? b := req ms "description" in
  let? c := req ms "completed" in
  Some (mk a b c).
End PledgeTask.
#[export] Instance Codec_PledgeTask : Codec PledgeTask.t :=
  {| toJSON := PledgeTask.to; fromJSON := PledgeTask.from |}.

Module Pledge.
Record t : Type := mk {
  id : string; donorId : string; amount : Z; dueDate : string;
  status : PledgeStatus; tasks : option (list PledgeTask.t) }.
Definition keys : list string :=
  ["id"; "donorId"; "amount"; "dueDate"; "status"; "tasks"].
Definition to (x : t) : JSON :=
  obj [field "id" (id x); field "donorId" (donorId x);
       field "amount" (amount x); field "dueDate" (dueDate x);
       field "status" (status x); field_opt "tasks" (tasks x)].
Definition from (j : JSON) : option t :=
  let? ms := members_of keys j in
  let? a := req ms "id" in
  let? b := req ms "donorId" in
  let? c := req ms "amount" in
  let? d := req ms "dueDate" in
  let? e := req ms "status" in
  let? f := opt ms "tasks" in
  Some (mk a b c d e f).
Definition with_status (x : t) (v : PledgeStatus) : t :=
  mk (id x) (donorId x) (amount x) (dueDate x) v (tasks x).
Definition with_tasks (x : t) (v : list PledgeTask.t) : t :=
  mk (id x) (donorId x) (amount x) (dueDate x) (status x) (Some v).
End Pledge.
#[export] Instance Codec_Pledge : Codec Pledge.t :=
  {| toJSON := Pledge.to; fromJSON := Pledge.from |}.

Module RecurringProfile.
Record t : Type := mk {
  id : string; donorId : string; amount : Z; frequency : Frequency;
  startDate : string; nextDueDate : string; status : ProfileStatus;
  purpose : DonationPurpose; customPurpose : option string; method : Method }.
Definition keys : list string :=
  ["id"; "donorId"; "amount"; "frequency"; "startDate"; "nextDueDate";
   "status"; "purpose"; "customPurpose"; "method"].
Definition to (x : t) : JSON :=
  obj [field "id" (id x); field "donorId" (donorId x);
       field "amount" (amount x); field "frequency" (frequency x);
       field "startDate" (startDate x); field "nextDueDate" (nextDueDate x);
       field "status" (status x); field "purpose" (purpose x);
       field_opt "customPurpose" (customPurpose x); field "method" (method x)].
Definition from (j : JSON) : option t :=
  let? ms := members_of keys j in
  let? a := req ms "id" in
  let? b := req ms "donorId" in
  let? c := req ms "amount" in
  let? d := req ms "frequency" in
  let? e := req ms "startDate" in
  let? f := req ms "nextDueDate" in
  let? g := req ms "status" in
  let? h := req ms "purpose" in
  let? i := opt ms "customPurpose" in
  let? k := req ms "method" in
  Some (mk a b c d e f g h i k).
Definition with_status (x : t) (v : ProfileStatus) : t :=
  mk (id x) (donorId x) (amount x) (frequency x) (startDate x)
     (nextDueDate x) v (purpose x) (customPurpose x) (method x).
End RecurringProfile.
#[export] Instance Codec_RecurringProfile : Codec RecurringProfile.t :=
  {| toJSON := RecurringProfile.to; fromJSON := RecurringProfile.from |}.

Module Role.
Record t : Type := mk {
  id : string; name : string; permissions : list Permission;
  isSystemRole : option bool }.
Definition keys : list string := ["id"; "name"; "permissions"; "isSystemRole"].
Definition to (x : t) : JSON :=
  obj [field "id" (id x); field "name" (name x);
       field "permissions" (permissions x);
       field_opt "isSystemRole" (isSystemRole x)].
Definition from (j : JSON) : option t :=
  let? ms := members_of keys j in
  let? a := req ms "id" in
  let? b := req ms "name" in
  let? c := req ms "permissions" in
  let? d := opt ms "isSystemRole" in
  Some (mk a b c d).
Definition with_id (x : t) (v : string) : t :=
  mk v (name x) (permissions x) (isSystemRole x).
End Role.
#[export] Instance Codec_Role : Codec Role.t :=
  {| toJSON := Role.to; fromJSON := Role.from |}.

Module User.
Record t : Type := mk {
  id : string; name : string; email : string; roleId : string;
  status : UserStatus; avatar : option string; lastLogin : string }.
Definition keys : list string :=
  ["id"; "name"; "email"; "roleId"; "status"; "avatar"; "lastLogin"].
Definition to (x : t) : JSON :=
  obj [field "id" (id x); field "name" (name x); field "email" (email x);
       field "roleId" (roleId x); field "status" (status x);
       field_opt "avatar" (avatar x); field "lastLogin" (lastLogin x)].
Definition from (j : JSON) : option t :=
  let? ms := members_of keys j in
  let? a := req ms "id" in
  let? b := req ms "name" in
  let? c := req ms "email" in
  let? d := req ms "roleId" in
  let? e := req ms "status" in
  let? f := opt ms "avatar" in
  let? g := req ms "lastLogin" in
  Some (mk a b c d e f g).
Definition with_status (x : t) (v : UserStatus) : t :=
  mk (id x) (name x) (email x) (roleId x) v (avatar x) (lastLogin x).
End User.
#[export] Instance Codec_User : Codec User.t :=
  {| toJSON := User.to; fromJSON := User.from |}.

Module CommunicationTemplate.
Record t : Type := mk {
  id : string; name : string; type : TemplateType; channel : Channel;
  subject : option string; body : string }.
Definition keys : list string :=
  ["id"; "name"; "type"; "channel"; "subject"; "body"].
Definition to (x : t) : JSON :=
  obj [field "id" (id x); field "name" (name x); field "type" (type x);
       field "channel" (channel x); field_opt "subject" (subject x);
       field "body" (body x)].
Definition from (j : JSON) : option t :=
  let? ms := members_of keys j in
  let? a := req ms "id" in
  let? b := req ms "name" in
  let? c := req ms "type" in
  let? d := req ms "channel" in
  let? e := opt ms "subject" in
  let? f := req ms "body" in
  Some (mk a b c d e f).
End CommunicationTemplate.
#[export] Instance Codec_CommunicationTemplate : Codec CommunicationTemplate.t :=
  {| toJSON := CommunicationTemplate.to; fromJSON := CommunicationTemplate.from |}.

Module OrganizationSettings.
Record t : Type := mk {
  name : string; logo : string; address : string; website : string;
  phone : string; email : string; whatsappNumber : string;
  receiptThankYouMessage : string;
  communicationTemplates : list CommunicationTemplate.t;
  tags : list Tag.t }.
Definition keys : list string :=
  ["name"; "logo"; "address"; "website"; "phone"; "email"; "whatsappNumber";
   "receiptThankYouMessage"; "communicationTemplates"; "tags"].
Definition to (x : t) : JSON :=
  obj [field "name" (name x); field "logo" (logo x);
       field "address" (address x); field "website" (website x);
       field "phone" (phone x); field "email" (email x);
       field "whatsappNumber" (whatsappNumber x);
       field "receiptThankYouMessage" (receiptThankYouMessage x);
       field "communicationTemplates" (communicationTemplates x);
       field "tags" (tags x)].
Definition from (j : JSON) : option t :=
  let? ms := members_of keys j in
  let? a := req ms "name" in
  let? b := req ms "logo" in
  let? c := req ms "address" in
  let? d := req ms "website" in
  let? e := req ms "phone" in
  let? f := req ms "email" in
  let? g := req ms "whatsappNumber" in
  let? h := req ms "receiptThankYouMessage" in
  let? i := req ms "communicationTemplates" in
  let? k := req ms "tags" in
  Some (mk a b c d e f g h i k).
(** [{...s, tags: v}] *)
Definition with_tags (x : t) (v : list Tag.t) : t :=
  mk (name x) (logo x) (address x) (website x) (phone x) (email x)
     (whatsappNumber x) (receiptThankYouMessage x) (communicationTemplates x) v.
End OrganizationSettings.
#[export] Instance Codec_OrganizationSettings : Codec OrganizationSettings.t :=
  {| toJSON := OrganizationSettings.to; fromJSON := OrganizationSettings.from |}.

Module OutboxItem.
(** The two variants of the union, told apart by [type]. *)
Inductive info : Type :=
| receipt (donationId : string)
| template (donorId : string) (templateId : string).

Record t : Type := mk {
  id : string; status : OutboxStatus; addedAt : string;
  sentAt : option string; error : option string; variant : info }.

Definition common : list string := ["id"; "status"; "addedAt"; "sentAt"; "error"; "type"].

Definition to (x : t) : JSON :=
  obj ([field "id" (id x); field "status" (status x);
        field "addedAt" (addedAt x); field_opt "sentAt" (sentAt x);
        field_opt "error" (error x)] ++
       match variant x with
       | receipt d => [field "type" "receipt"; field "donationId" d]
       | template d tpl =>
           [field "type" "template"; field "donorId" d; field "templateId" tpl]
       end).

Definition from (j : JSON) : option t :=
  match j with
  | JObj ms =>
      let? a := req ms "id" in
      let? b := req ms "status" in
      let? c := req ms "addedAt" in
      let? d := opt ms "sentAt" in
      let? e := opt ms "error" in
      let? ty := req ms "type" in
      if String.eqb ty "receipt" then
        if known (common ++ ["donationId"]) ms then
          let? f := req ms "donationId" in
          Some (mk a b c d e (receipt f))
        else None
      else if String.eqb ty "template" then
        if known (common ++ ["donorId"; "templateId"]) ms then
          let? f := req ms "donorId" in
          let? g := req ms "templateId" in
          Some (mk a b c d e (template f g))
        else None
      else None
  | _ => None
  end.
End OutboxItem.
#[export] Instance Codec_OutboxItem : Codec OutboxItem.t :=
  {| toJSON := OutboxItem.to; fromJSON := OutboxItem.from |}.

Module QueuedCommunication.
Record t : Type := mk {
  id : string; donorId : string; templateId : string; channel : Channel;
  status : QueueStatus; queuedAt : string; sentAt : option string;
  error : option string }.
Definition keys : list string :=
  ["id"; "donorId"; "templateId"; "channel"; "status"; "queuedAt"; "sentAt";
   "error"].
Definition to (x : t) : JSON :=
  obj [field "id" (id x); field "donorId" (donorId x);
       field "templateId" (templateId x); field "channel" (channel x);
       field "status" (status x); field "queuedAt" (queuedAt x);
       field_opt "sentAt" (sentAt x); field_opt "error" (error x)].
Definition from (j : JSON) : option t :=
  let? ms := members_of keys j in
  let? a := req ms "id" in
  let? b := req ms "donorId" in
  let? c := req ms "templateId" in
  let? d := req ms "channel" in
  let? e := req ms "status" in
  let? f := req ms "queuedAt" in
  let? g := opt ms "sentAt" in
  let? h := opt ms "error" in
  Some (mk a b c d e f g h).
Definition with_id (x : t) (v : string) : t :=
  mk v (donorId x) (templateId x) (channel x) (status x) (queuedAt x)
     (sentAt x) (error x).
End QueuedCommunication.
#[export] Instance Codec_QueuedCommunication : Codec QueuedCommunication.t :=
  {| toJSON := QueuedCommunication.to; fromJSON := QueuedCommunication.from |}.

Module Backup.
Record t : Type := mk { id : string; date : string; size : Z; data : string }.
End Backup.

(** *** The built-in settings ([data/mockData.ts]) *)

Definition mockTags : list Tag.t :=
  [Tag.mk "tag-1" "Volunteer" "bg-blue-100 text-blue-800 dark:bg-blue-900 dark:text-blue-200";
   Tag.mk "tag-2" "Gala 2023" "bg-purple-100 text-purple-800 dark:bg-purple-900 dark:text-purple-200";
   Tag.mk "tag-3" "Corporate" "bg-yellow-100 text-yellow-800 dark:bg-yellow-900 dark:text-yellow-200";
   Tag.mk "tag-4" "Major Donor" "bg-red-100 text-red-800 dark:bg-red-900 dark:text-red-200"].

Definition mockSettings : OrganizationSettings.t :=
  OrganizationSettings.mk
    "Alkahaf Donor System"
    ""
    "123 Charity Lane, Kindness City, 12345"
    "www.alkahaf.org"
    "1-800-GIVE-NOW"
    "info@alkahaf.org"
    "12223334444"
    "Thank you for your generous contribution!"
    [CommunicationTemplate.mk "template-1" "Standard Thank You (Email)"
       DonationThankYou Email (Some "Thank you for your donation!")
       ("Dear {{donorName}}," +++ String nl (String nl
        "Thank you for your generous donation to {{orgName}}."));
     CommunicationTemplate.mk "template-2" "Standard Thank You (WhatsApp)"
       DonationThankYou WhatsApp None
       "Dear {{donorName}}, thank you for your generous donation to {{orgName}}!"]
    mockTags.

(** ** The store *)

Record State : Type := mkState {
  donors : list Donor.t;
  donations : list Donation.t;
  pledges : list Pledge.t;
  recurringProfiles : list RecurringProfile.t;
  users : list User.t;
  roles : list Role.t;
  settings : OrganizationSettings.t;
  outbox : list OutboxItem.t;
  communicationQueue : list QueuedCommunication.t;
  tags : list Tag.t;
  backups : list Backup.t
}.

(** The setters, each given an updater [prev => next]. *)
Definition setDonors (f : list Donor.t -> list Donor.t) (s : State) : State :=
  mkState (f (donors s)) (donations s) (pledges s) (recurringProfiles s) (users s)
    (roles s) (settings s) (outbox s) (communicationQueue s) (tags s) (backups s).
Definition setDonations (f : list Donation.t -> list Donation.t) (s : State) : State :=
  mkState (donors s) (f (donations s)) (pledges s) (recurringProfiles s) (users s)
    (roles s) (settings s) (outbox s) (communicationQueue s) (tags s) (backups s).
Definition setPledges (f : list Pledge.t -> list Pledge.t) (s : State) : State :=
  mkState (donors s) (donations s) (f (pledges s)) (recurringProfiles s) (users s)
    (roles s) (settings s) (outbox s) (communicationQueue s) (tags s) (backups s).
Definition setRecurringProfiles
  (f : list RecurringProfile.t -> list RecurringProfile.t) (s : State) : State :=
  mkState (donors s) (donations s) (pledges s) (f (recurringProfiles s)) (users s)
    (roles s) (settings s) (outbox s) (communicationQueue s) (tags s) (backups s).
Definition setUsers (f : list User.t -> list User.t) (s : State) : State :=
  mkState (donors s) (donations s) (pledges s) (recurringProfiles s) (f (users s))
    (roles s) (settings s) (outbox s) (communicationQueue s) (tags s) (backups s).
Definition setRoles (f : list Role.t -> list Role.t) (s : State) : State :=
  mkState (donors s) (donations s) (pledges s) (recurringProfiles s) (users s)
    (f (roles s)) (settings s) (outbox s) (communicationQueue s) (tags s) (backups s).
Definition setSettings
  (f : OrganizationSettings.t -> OrganizationSettings.t) (s : State) : State :=
  mkState (donors s) (donations s) (pledges s) (recurringProfiles s) (users s)
    (roles s) (f (settings s)) (outbox s) (communicationQueue s) (tags s) (backups s).
Definition setOutbox (f : list OutboxItem.t -> list OutboxItem.t) (s : State) : State :=
  mkState (donors s) (donations s) (pledges s) (recurringProfiles s) (users s)
    (roles s) (settings s) (f (outbox s)) (communicationQueue s) (tags s) (backups s).
Definition setCommunicationQueue
  (f : list QueuedCommunication.t -> list QueuedCommunication.t) (s : State) : State :=
  mkState (donors s) (donations s) (pledges s) (recurringProfiles s) (users s)
    (roles s) (settings s) (outbox s) (f (communicationQueue s)) (tags s) (backups s).
Definition setTags (f : list Tag.t -> list Tag.t) (s : State) : State :=
  mkState (donors s) (donations s) (pledges s) (recurringProfiles s) (users s)
    (roles s) (settings s) (outbox s) (communicationQueue s) (f (tags s)) (backups s).
Definition setBackups (f : list Backup.t -> list Backup.t) (s : State) : State :=
  mkState (donors s) (donations s) (pledges s) (recurringProfiles s) (users s)
    (roles s) (settings s) (outbox s) (communicationQueue s) (tags s) (f (backups s)).

(** ** The host: the clock, the time zone, the random numbers and the
    date formats of the engine

    [now] is [Date.now()], taken not to tick during one action; [tza] is the
    offset of local time from UTC in milliseconds; [random i] is the text of
    the [i]-th value that [Math.random()] returns during the action;
    [parse_other text] is what [Date.parse] makes of a text that is outside
    the Date Time String Format, [None] being the invalid date. *)
Record Env : Type := mkEnv {
  now : Z; tza : Z; random : nat -> string; parse_other : string -> option Z }.

Definition Date_now (env : Env) : string := Z_to_string (now env).
Definition now_iso (env : Env) : string := JSDate.isoString (now env).

(** [x || []] on an optional array. *)
Definition or_empty {A : Type} (x : option (list A)) : list A :=
  match x with Some l => l | None => [] end.

(** ** The mutation layer: [actions] *)

(** *** [actions.donors] *)

Definition donors_add (env : Env) (data : Donor.t) (s : State) : State * Donor.t :=
  let newDonor := Donor.with_id_history data ("donor-" +++ Date_now env) [] in
  (setDonors (fun d => d ++ [newDonor]) s, newDonor).

Definition donors_update (data : Donor.t) (s : State) : State * Donor.t :=
  (setDonors (map (fun donor =>
     if String.eqb (Donor.id donor) (Donor.id data) then data else donor)) s, data).

Definition donors_delete (id : string) (s : State) : State :=
  let s := setDonors (filter (fun donor => negb (String.eqb (Donor.id donor) id))) s in
  let s := setDonations
             (filter (fun donation => negb (String.eqb (Donation.donorId donation) id))) s in
  setPledges (filter (fun pledge => negb (String.eqb (Pledge.donorId pledge) id))) s.

Definition donors_deleteBulk (ids : list string) (s : State) : State :=
  let idSet := Set_new ids in
  let s := setDonors (filter (fun donor => negb (Set_has idSet (Donor.id donor)))) s in
  let s := setDonations
             (filter (fun donation => negb (Set_has idSet (Donation.donorId donation)))) s in
  setPledges (filter (fun pledge => negb (Set_has idSet (Pledge.donorId pledge)))) s.

Definition donors_logCommunication (env : Env) (donorId : string)
  (logData : CommunicationLog.t) (s : State) : State :=
  let newLog := CommunicationLog.with_id logData ("comm-" +++ Date_now env) in
  setDonors (map (fun donor =>
    if String.eqb (Donor.id donor) donorId
    then Donor.with_communicationLogs donor
           (or_empty (Donor.communicationLogs donor) ++ [newLog])
    else donor)) s.

Definition donors_logCommunicationBulk (env : Env) (donorIds : list string)
  (logData : CommunicationLog.t) (s : State) : State :=
  let idSet := Set_new donorIds in
  setDonors (map (fun donor =>
    if Set_has idSet (Donor.id donor)
    then
      let newLog := CommunicationLog.with_id logData
                      ("comm-" +++ Donor.id donor +++ "-" +++ Date_now env) in
      Donor.with_communicationLogs donor
        (or_empty (Donor.communicationLogs donor) ++ [newLog])
    else donor)) s.

(** *** [actions.outbox] *)

Definition outbox_add (env : Env) (donationId : string) (s : State) : State :=
  let newItem :=
    OutboxItem.mk ("outbox-" +++ Date_now env) ReadyToSend (now_iso env)
      None None (OutboxItem.receipt donationId) in
  setOutbox (fun o => newItem :: o) s.

Definition outbox_addBulk (env : Env) (donorIds : list string) (templateId : string)
  (s : State) : State :=
  let newItems :=
    map (fun donorId =>
      OutboxItem.mk ("outbox-" +++ Date_now env +++ "-" +++ donorId) ReadyToSend
        (now_iso env) None None (OutboxItem.template donorId templateId)) donorIds in
  setOutbox (fun o => newItems ++ o) s.

(** [error || item.error]: the argument when it is a non-empty string. *)
Definition error_or (error previous : option string) : option string :=
  match error with
  | Some e => if String.eqb e "" then previous else Some e
  | None => previous
  end.

Definition outbox_updateStatus (env : Env) (outboxId : string) (status : OutboxStatus)
  (error : option string) (s : State) : State :=
  setOutbox (map (fun item =>
    if String.eqb (OutboxItem.id item) outboxId
    then OutboxItem.mk (OutboxItem.id item) status (OutboxItem.addedAt item)
           (match status with
            | Sent => Some (now_iso env)
            | _ => OutboxItem.sentAt item
            end)
           (error_or error (OutboxItem.error item))
           (OutboxItem.variant item)
    else item)) s.

Definition outbox_retry (outboxId : string) (s : State) : State :=
  setOutbox (map (fun item =>
    if String.eqb (OutboxItem.id item) outboxId
    then OutboxItem.mk (OutboxItem.id item) ReadyToSend (OutboxItem.addedAt item)
           (OutboxItem.sentAt item) None (OutboxItem.variant item)
    else item)) s.

(** *** [actions.recurring] *)

Definition calculateNextDueDate (env : Env) (startDate : string) (frequency : Frequency)
  : Exc string :=
  let z := tza env in
  let d := JSDate.new_of_string z (parse_other env) startDate in
  let d := match frequency with
           | Weekly => JSDate.setDate z d (JSDate.plus (JSDate.getDate z d) 7)
           | _ => d
           end in
  let d := match frequency with
           | Monthly => JSDate.setMonth z d (JSDate.plus (JSDate.getMonth z d) 1)
           | _ => d
           end in
  let d := match frequency with
           | Annually => JSDate.setFullYear z d (JSDate.plus (JSDate.getFullYear z d) 1)
           | _ => d
           end in
  iso <- JSDate.toISOString d ;;
  Ok (split_head "T" iso).

(** The promise of [recurring.add] is rejected, and no profile is stored,
    when the start date is not a date. *)
Definition recurring_add (env : Env) (data : RecurringProfile.t) (s : State)
  : State * Exc RecurringProfile.t :=
  match calculateNextDueDate env (RecurringProfile.startDate data)
          (RecurringProfile.frequency data) with
  | Ok next =>
      let newProfile :=
        RecurringProfile.mk ("rec-" +++ Date_now env)
          (RecurringProfile.donorId data) (RecurringProfile.amount data)
          (RecurringProfile.frequency data) (RecurringProfile.startDate data)
          next Active (RecurringProfile.purpose data)
          (RecurringProfile.customPurpose data) (RecurringProfile.method data) in
      (setRecurringProfiles (fun p => p ++ [newProfile]) s, Ok newProfile)
  | Throw e => (s, Throw e)
  end.

Definition recurring_updateStatus (id : string) (status : ProfileStatus) (s : State)
  : State :=
  setRecurringProfiles (map (fun profile =>
    if String.eqb (RecurringProfile.id profile) id
    then RecurringProfile.with_status profile status else profile)) s.

Definition recurring_updateStatusBulk (ids : list string) (status : ProfileStatus)
  (s : State) : State :=
  let idSet := Set_new ids in
  setRecurringProfiles (map (fun profile =>
    if Set_has idSet (RecurringProfile.id profile)
    then RecurringProfile.with_status profile status else profile)) s.

(** *** [actions.donations] *)

(** The profile that [donations.add] hands to [recurring.add]; its [id],
    [status] and [nextDueDate] are not set by the caller. *)
Definition profile_of_donation (data : Donation.t) (f : Frequency) : RecurringProfile.t :=
  RecurringProfile.mk "" (Donation.donorId data) (Donation.amount data) f
    (Donation.date data) "" Active (Donation.purpose data)
    (Donation.customPurpose data) (Donation.method data).

Definition donations_add (env : Env) (data : Donation.t) (s : State)
  : State * Donation.t :=
  let s := setDonations (fun d => d ++ [data]) s in
  let s := setDonors (map (fun donor =>
             if String.eqb (Donor.id donor) (Donation.donorId data)
             then Donor.with_donationHistory donor
                    (Donor.donationHistory donor ++
                     [DonationHistory.mk (Donation.date data) (Donation.amount data)
                        (Donation.id data)])
             else donor)) s in
  let s := outbox_add env (Donation.id data) s in
  let s := match Donation.recurring data with
           | Recurs f => fst (recurring_add env (profile_of_donation data f) s)
           | NoRecurring => s
           end in
  (s, data).

Definition donations_deleteBulk (ids : list string) (s : State) : State :=
  let idSet := Set_new ids in
  let s := setDonations
             (filter (fun donation => negb (Set_has idSet (Donation.id donation)))) s in
  setOutbox (filter (fun item =>
    match OutboxItem.variant item with
    | OutboxItem.receipt donationId => negb (Set_has idSet donationId)
    | OutboxItem.template _ _ => true
    end)) s.

(** *** [actions.pledges] *)

Definition pledges_add (env : Env) (data : Pledge.t) (s : State) : State * Pledge.t :=
  let newPledge :=
    Pledge.mk ("pledge-" +++ Date_now env) (Pledge.donorId data) (Pledge.amount data)
      (Pledge.dueDate data) Pending (Some []) in
  (setPledges (fun p => p ++ [newPledge]) s, newPledge).

Definition pledges_update (data : Pledge.t) (s : State) : State * Pledge.t :=
  (setPledges (map (fun pledge =>
     if String.eqb (Pledge.id pledge) (Pledge.id data) then data else pledge)) s, data).

Definition pledges_deleteBulk (ids : list string) (s : State) : State :=
  let idSet := Set_new ids in
  setPledges (filter (fun pledge => negb (Set_has idSet (Pledge.id pledge)))) s.

Definition pledges_updateStatusBulk (ids : list string) (status : PledgeStatus)
  (s : State) : State :=
  let idSet := Set_new ids in
  setPledges (map (fun pledge =>
    if Set_has idSet (Pledge.id pledge) then Pledge.with_status pledge status
    else pledge)) s.

Definition pledges_addTask (env : Env) (pledgeId : string) (taskData : PledgeTask.t)
  (s : State) : State :=
  let newTask :=
    PledgeTask.mk ("task-" +++ Date_now env) (PledgeTask.description taskData) false in
  setPledges (map (fun pledge =>
    if String.eqb (Pledge.id pledge) pledgeId
    then Pledge.with_tasks pledge (or_empty (Pledge.tasks pledge) ++ [newTask])
    else pledge)) s.

Definition pledges_toggleTask (pledgeId taskId : string) (s : State) : State :=
  setPledges (map (fun pledge =>
    if String.eqb (Pledge.id pledge) pledgeId
    then Pledge.with_tasks pledge
           (map (fun task =>
              if String.eqb (PledgeTask.id task) taskId
              then PledgeTask.mk (PledgeTask.id task) (PledgeTask.description task)
                     (negb (PledgeTask.completed task))
              else task) (or_empty (Pledge.tasks pledge)))
    else pledge)) s.

(** *** [actions.users] *)

Definition users_add (env : Env) (data : User.t) (s : State) : State * User.t :=
  let newUser :=
    User.mk ("user-" +++ Date_now env) (User.name data) (User.email data)
      (User.roleId data) (User.status data) (User.avatar data)
      "1970-01-01T00:00:00.000Z" in
  (setUsers (fun u => u ++ [newUser]) s, newUser).

Definition users_update (data : User.t) (s : State) : State * User.t :=
  (setUsers (map (fun user =>
     if String.eqb (User.id user) (User.id data) then data else user)) s, data).

Definition users_updateStatus (id : string) (status : UserStatus) (s : State) : State :=
  setUsers (map (fun user =>
    if String.eqb (User.id user) id then User.with_status user status else user)) s.

(** *** [actions.roles] *)

Definition roles_add (env : Env) (data : Role.t) (s : State) : State * Role.t :=
  let newRole := Role.with_id data ("role-" +++ Date_now env) in
  (setRoles (fun r => r ++ [newRole]) s, newRole).

Definition roles_update (data : Role.t) (s : State) : State * Role.t :=
  (setRoles (map (fun role =>
     if String.eqb (Role.id role) (Role.id data) then data else role)) s, data).

(** [role?.isSystemRole] as a condition. *)
Definition is_system (role : option Role.t) : bool :=
  match role with
  | Some r => match Role.isSystemRole r with Some b => b | None => false end
  | None => false
  end.

(** The result is the [error] of the returned object, or [None] when the
    action returns nothing. *)
Definition roles_delete (id : string) (s : State) : State * option string :=
  let role := find (fun r => String.eqb (Role.id r) id) (roles s) in
  if is_system role then (s, Some "System roles cannot be deleted.")
  else
    let isAssigned := existsb (fun u => String.eqb (User.roleId u) id) (users s) in
    if isAssigned then (s, Some "Cannot delete a role that is assigned to users.")
    else (setRoles (filter (fun role => negb (String.eqb (Role.id role) id))) s, None).

(** *** [actions.settings] *)

Definition settings_update (data : OrganizationSettings.t) (s : State) : State :=
  let s := setSettings (fun _ => data) s in
  setTags (fun _ => OrganizationSettings.tags data) s.

(** *** [actions.queue] *)

(** [items.map(f)] where [f] draws the next random number at each item. *)
Fixpoint map_indexed {A B : Type} (f : nat -> A -> B) (i : nat) (l : list A) : list B :=
  match l with
  | [] => []
  | x :: r => f i x :: map_indexed f (S i) r
  end.

Definition queue_add (env : Env) (items : list QueuedCommunication.t) (s : State)
  : State :=
  let newItems :=
    map_indexed (fun i item =>
      QueuedCommunication.with_id item
        ("q-" +++ Date_now env +++ "-" +++ random env i)) 0%nat items in
  setCommunicationQueue (fun q => q ++ newItems) s.

(** *** [actions.tags] *)

Definition tags_add (env : Env) (tagData : Tag.t) (s : State) : State * Tag.t :=
  let newTag := Tag.with_id tagData ("tag-" +++ Date_now env) in
  let s := setTags (fun t => t ++ [newTag]) s in
  let s := setSettings (fun st =>
             OrganizationSettings.with_tags st (OrganizationSettings.tags st ++ [newTag])) s in
  (s, newTag).

Definition tags_update (tag : Tag.t) (s : State) : State * Tag.t :=
  let replace := map (fun t_ => if String.eqb (Tag.id t_) (Tag.id tag) then tag else t_) in
  let s := setTags replace s in
  let s := setSettings (fun st =>
             OrganizationSettings.with_tags st (replace (OrganizationSettings.tags st))) s in
  (s, tag).

Definition tags_delete (id : string) (s : State) : State :=
  let keep := filter (fun t_ => negb (String.eqb (Tag.id t_) id)) in
  let s := setTags keep s in
  let s := setSettings (fun st =>
             OrganizationSettings.with_tags st (keep (OrganizationSettings.tags st))) s in
  setDonors (map (fun donor =>
    Donor.with_tagIds donor
      (filter (fun tagId => negb (String.eqb tagId id)) (or_empty (Donor.tagIds donor))))) s.

(** ** The operations of the mutation layer, as data *)

Inductive Op : Type :=
| DonorsAdd (data : Donor.t)
| DonorsUpdate (data : Donor.t)
| DonorsDelete (id : string)
| DonorsDeleteBulk (ids : list string)
| DonorsLogCommunication (donorId : string) (logData : CommunicationLog.t)
| DonorsLogCommunicationBulk (donorIds : list string) (logData : CommunicationLog.t)
| DonationsAdd (data : Donation.t)
| DonationsDeleteBulk (ids : list string)
| PledgesAdd (data : Pledge.t)
| PledgesUpdate (data : Pledge.t)
| PledgesDeleteBulk (ids : list string)
| PledgesUpdateStatusBulk (ids : list string) (status : PledgeStatus)
| PledgesAddTask (pledgeId : string) (taskData : PledgeTask.t)
| PledgesToggleTask (pledgeId taskId : string)
| RecurringAdd (data : RecurringProfile.t)
| RecurringUpdateStatus (id : string) (status : ProfileStatus)
| RecurringUpdateStatusBulk (ids : list string) (status : ProfileStatus)
| UsersAdd (data : User.t)
| UsersUpdate (data : User.t)
| UsersUpdateStatus (id : string) (status : UserStatus)
| RolesAdd (data : Role.t)
| RolesUpdate (data : Role.t)
| RolesDelete (id : string)
| SettingsUpdate (data : OrganizationSettings.t)
| OutboxAdd (donationId : string)
| OutboxAddBulk (donorIds : list string) (templateId : string)
| OutboxUpdateStatus (outboxId : string) (status : OutboxStatus) (error : option string)
| OutboxRetry (outboxId : string)
| QueueAdd (items : list QueuedCommunication.t)
| TagsAdd (tagData : Tag.t)
| TagsUpdate (tag : Tag.t)
| TagsDelete (id : string).

(** The store after one operation run in the host [env]. *)
Definition step (env : Env) (op : Op) (s : State) : State :=
  match op with
  | DonorsAdd data => fst (donors_add env data s)
  | DonorsUpdate data => fst (donors_update data s)
  | DonorsDelete id => donors_delete id s
  | DonorsDeleteBulk ids => donors_deleteBulk ids s
  | DonorsLogCommunication donorId logData => donors_logCommunication env donorId logData s
  | DonorsLogCommunicationBulk donorIds logData =>
      donors_logCommunicationBulk env donorIds logData s
  | DonationsAdd data => fst (donations_add env data s)
  | DonationsDeleteBulk ids => donations_deleteBulk ids s
  | PledgesAdd data => fst (pledges_add env data s)
  | PledgesUpdate data => fst (pledges_update data s)
  | PledgesDeleteBulk ids => pledges_deleteBulk ids s
  | PledgesUpdateStatusBulk ids status => pledges_updateStatusBulk ids status s
  | PledgesAddTask pledgeId taskData => pledges_addTask env pledgeId taskData s
  | PledgesToggleTask pledgeId taskId => pledges_toggleTask pledgeId taskId s
  | RecurringAdd data => fst (recurring_add env data s)
  | RecurringUpdateStatus id status => recurring_updateStatus id status s
  | RecurringUpdateStatusBulk ids status => recurring_updateStatusBulk ids status s
  | UsersAdd data => fst (users_add env data s)
  | UsersUpdate data => fst (users_update data s)
  | UsersUpdateStatus id status => users_updateStatus id status s
  | RolesAdd data => fst (roles_add env data s)
  | RolesUpdate data => fst (roles_update data s)
  | RolesDelete id => fst (roles_delete id s)
  | SettingsUpdate data => settings_update data s
  | OutboxAdd donationId => outbox_add env donationId s
  | OutboxAddBulk donorIds templateId => outbox_addBulk env donorIds templateId s
  | OutboxUpdateStatus outboxId status error => outbox_updateStatus env outboxId status error s
  | OutboxRetry outboxId => outbox_retry outboxId s
  | QueueAdd items => queue_add env items s
  | TagsAdd tagData => fst (tags_add env tagData s)
  | TagsUpdate tag => fst (tags_update tag s)
  | TagsDelete id => tags_delete id s
  end.

(** A run: each operation with the host it meets. *)
Fixpoint run (ops : list (Env * Op)) (s : State) : State :=
  match ops with
  | [] => s
  | (env, op) :: rest => run rest (step env op s)
  end.

(** ** The backup layer

    [restoreStateFromData] takes [data : any] and hands its properties to
    the setters unchecked, so the backup layer is embedded over a store
    whose ten tracked collections are arbitrary JSON values.

    The [actions] object is built anew at every render and closes over
    the collections that this render shows.  [backups.create] reads the ten
    tracked collections, and [backups.restore] the Backups collection, from
    that closure and not from the store as it is when the call runs: the
    two actions take the store that their render shows, [shown], as an
    argument.  What an action writes goes through the setters, which work
    on the current store. *)

Record AnyStore : Type := mkAny {
  any_donors : JSON;
  any_donations : JSON;
  any_pledges : JSON;
  any_recurringProfiles : JSON;
  any_users : JSON;
  any_roles : JSON;
  any_settings : JSON;
  any_outbox : JSON;
  any_communicationQueue : JSON;
  any_tags : JSON;
  any_backups : list Backup.t
}.

(** The store as the backup layer sees it. *)
Definition ofState (s : State) : AnyStore :=
  mkAny (toJSON (donors s)) (toJSON (donations s)) (toJSON (pledges s))
    (toJSON (recurringProfiles s)) (toJSON (users s)) (toJSON (roles s))
    (toJSON (settings s)) (toJSON (outbox s)) (toJSON (communicationQueue s))
    (toJSON (tags s)) (backups s).

(** The store read back at the declared types, when every collection has
    its declared type. *)
Definition asState (a : AnyStore) : option State :=
  let? d := fromJSON (any_donors a) in
  let? dn := fromJSON (any_donations a) in
  let? p := fromJSON (any_pledges a) in
  let? r := fromJSON (any_recurringProfiles a) in
  let? u := fromJSON (any_users a) in
  let? ro := fromJSON (any_roles a) in
  let? st := fromJSON (any_settings a) in
  let? o := fromJSON (any_outbox a) in
  let? q := fromJSON (any_communicationQueue a) in
  let? t := fromJSON (any_tags a) in
  Some (mkState d dn p r u ro st o q t (any_backups a)).

(** Computations that read and write the store and may throw. *)
Definition M (A : Type) : Type := AnyStore -> Exc A * AnyStore.

Definition ret {A : Type} (a : A) : M A := fun st => (Ok a, st).
Definition throw {A : Type} (e : JSError) : M A := fun st => (Throw e, st).
Definition lift {A : Type} (c : Exc A) : M A := fun st => (c, st).
Definition mbind {A B : Type} (c : M A) (k : A -> M B) : M B :=
  fun st =>
    match c st with
    | (Ok a, st') => k a st'
    | (Throw e, st') => (Throw e, st')
    end.
Definition try_catch {A : Type} (body : M A) (handler : JSError -> M A) : M A :=
  fun st =>
    match body st with
    | (Ok a, st') => (Ok a, st')
    | (Throw e, st') => handler e st'
    end.
Definition modify (f : AnyStore -> AnyStore) : M unit := fun st => (Ok tt, f st).
Definition read {A : Type} (f : AnyStore -> A) : M A := fun st => (Ok (f st), st).

Notation "x <~ c ;; k" := (mbind c (fun x => k))
  (at level 61, c at next level, right associativity).
Notation "c ;;; k" := (mbind c (fun _ => k))
  (at level 61, right associativity).

Definition put_donors (v : JSON) (a : AnyStore) : AnyStore :=
  mkAny v (any_donations a) (any_pledges a) (any_recurringProfiles a) (any_users a)
    (any_roles a) (any_settings a) (any_outbox a) (any_communicationQueue a)
    (any_tags a) (any_backups a).
Definition put_donations (v : JSON) (a : AnyStore) : AnyStore :=
  mkAny (any_donors a) v (any_pledges a) (any_recurringProfiles a) (any_users a)
    (any_roles a) (any_settings a) (any_outbox a) (any_communicationQueue a)
    (any_tags a) (any_backups a).
Definition put_pledges (v : JSON) (a : AnyStore) : AnyStore :=
  mkAny (any_donors a) (any_donations a) v (any_recurringProfiles a) (any_users a)
    (any_roles a) (any_settings a) (any_outbox a) (any_communicationQueue a)
    (any_tags a) (any_backups a).
Definition put_recurringProfiles (v : JSON) (a : AnyStore) : AnyStore :=
  mkAny (any_donors a) (any_donations a) (any_pledges a) v (any_users a)
    (any_roles a) (any_settings a) (any_outbox a) (any_communicationQueue a)
    (any_tags a) (any_backups a).
Definition put_users (v : JSON) (a : AnyStore) : AnyStore :=
  mkAny (any_donors a) (any_donations a) (any_pledges a) (any_recurringProfiles a) v
    (any_roles a) (any_settings a) (any_outbox a) (any_communicationQueue a)
    (any_tags a) (any_backups a).
Definition put_roles (v : JSON) (a : AnyStore) : AnyStore :=
  mkAny (any_donors a) (any_donations a) (any_pledges a) (any_recurringProfiles a)
    (any_users a) v (any_settings a) (any_outbox a) (any_communicationQueue a)
    (any_tags a) (any_backups a).
Definition put_settings (v : JSON) (a : AnyStore) : AnyStore :=
  mkAny (any_donors a) (any_donations a) (any_pledges a) (any_recurringProfiles a)
    (any_users a) (any_roles a) v (any_outbox a) (any_communicationQueue a)
    (any_tags a) (any_backups a).
Definition put_outbox (v : JSON) (a : AnyStore) : AnyStore :=
  mkAny (any_donors a) (any_donations a) (any_pledges a) (any_recurringProfiles a)
    (any_users a) (any_roles a) (any_settings a) v (any_communicationQueue a)
    (any_tags a) (any_backups a).
Definition put_communicationQueue (v : JSON) (a : AnyStore) : AnyStore :=
  mkAny (any_donors a) (any_donations a) (any_pledges a) (any_recurringProfiles a)
    (any_users a) (any_roles a) (any_settings a) (any_outbox a) v
    (any_tags a) (any_backups a).
Definition put_tags (v : JSON) (a : AnyStore) : AnyStore :=
  mkAny (any_donors a) (any_donations a) (any_pledges a) (any_recurringProfiles a)
    (any_users a) (any_roles a) (any_settings a) (any_outbox a)
    (any_communicationQueue a) v (any_backups a).
Definition put_backups (f : list Backup.t -> list Backup.t) (a : AnyStore) : AnyStore :=
  mkAny (any_donors a) (any_donations a) (any_pledges a) (any_recurringProfiles a)
    (any_users a) (any_roles a) (any_settings a) (any_outbox a)
    (any_communicationQueue a) (any_tags a) (f (any_backups a)).

(** [set(data.key || fallback)] *)
Definition restore_key (data : JSON) (key : string) (fallback : JSON)
  (set : JSON -> AnyStore -> AnyStore) : M unit :=
  v <~ lift (prop data key) ;;
  modify (set (or_else v fallback)).

Definition restoreStateFromData (data : JSON) : M unit :=
  restore_key data "donors" (JArr []) put_donors ;;;
  restore_key data "donations" (JArr []) put_donations ;;;
  restore_key data "pledges" (JArr []) put_pledges ;;;
  restore_key data "recurringProfiles" (JArr []) put_recurringProfiles ;;;
  restore_key data "users" (JArr []) put_users ;;;
  restore_key data "roles" (JArr []) put_roles ;;;
  restore_key data "settings" (toJSON mockSettings) put_settings ;;;
  restore_key data "outbox" (JArr []) put_outbox ;;;
  restore_key data "communicationQueue" (JArr []) put_communicationQueue ;;;
  restore_key data "tags" (JArr []) put_tags.

Definition JSON_parse (text : string) : M JSON :=
  match Json.parse text with
  | Some v => ret v
  | None => throw SyntaxError
  end.

(** [{ donors, donations, ..., tags }] *)
Definition stateToBackup (a : AnyStore) : JSON :=
  JObj [("donors", any_donors a); ("donations", any_donations a);
        ("pledges", any_pledges a); ("recurringProfiles", any_recurringProfiles a);
        ("users", any_users a); ("roles", any_roles a);
        ("settings", any_settings a); ("outbox", any_outbox a);
        ("communicationQueue", any_communicationQueue a); ("tags", any_tags a)].

(** The backup that [create] makes of the collections shown. *)
Definition newBackup (env : Env) (shown : AnyStore) : Backup.t :=
  let dataString := Json.stringify (stateToBackup shown) in
  Backup.mk ("backup-" +++ Date_now env) (now_iso env)
    (Z.of_nat (String.length dataString)) dataString.

Definition backups_create (env : Env) (shown : AnyStore) : M Backup.t :=
  let newBackup := newBackup env shown in
  modify (put_backups (fun b => newBackup :: b)) ;;;
  ret newBackup.

Definition backups_restore (shown : AnyStore) (backupId : string) : M unit :=
  match find (fun b => String.eqb (Backup.id b) backupId) (any_backups shown) with
  | None => throw (Error "Backup not found")
  | Some backup =>
      parsedData <~ JSON_parse (Backup.data backup) ;;
      restoreStateFromData parsedData
  end.

Record RestoreResult : Type := mkResult { success : bool; error : option string }.

Definition backups_restoreFromFile (jsonData : string) : M RestoreResult :=
  try_catch
    (parsedData <~ JSON_parse jsonData ;;
     d <~ lift (prop parsedData "donors") ;;
     if negb (truthy_opt d) then
       ret (mkResult false (Some "Invalid backup file format."))
     else
       dn <~ lift (prop parsedData "donations") ;;
       if negb (truthy_opt dn) then
         ret (mkResult false (Some "Invalid backup file format."))
       else
         restoreStateFromData parsedData ;;;
         ret (mkResult true None))
    (fun _ => ret (mkResult false (Some "Failed to parse backup file."))).

Definition backups_delete (backupId : string) : M unit :=
  modify (put_backups (filter (fun backup => negb (String.eqb (Backup.id backup) backupId)))).

(** The [success] of a returned result; a thrown error is no success. *)
Definition success_of (r : Exc RestoreResult) : bool :=
  match r with
  | Ok res => success res
  | Throw _ => false
  end.

(** ** Calendar dates, for stating what [calculateNextDueDate] returns *)

(** A date of the calendar: [month] from 1 to 12. *)
Record CivilDate : Type := mkDate { year : Z; month : Z; day : Z }.

Definition is_date (c : CivilDate) : Prop :=
  1 <= month c <= 12 /\ 1 <= day c <= JSDate.DaysInMonth (year c) (month c - 1).

(** The text [YYYY-MM-DD] of a date in the years 0 to 9999. *)
Definition iso_date (c : CivilDate) : string :=
  pad4 (year c) +++ "-" +++ pad2 (month c) +++ "-" +++ pad2 (day c).

(** Days since 1 January 1970, and back. *)
Definition day_number (c : CivilDate) : Z :=
  JSDate.MakeDay (year c) (month c - 1) (day c).

Definition date_of_day (n : Z) : CivilDate :=
  let t := JSDate.MakeDate n 0 in
  mkDate (JSDate.YearFromTime t) (JSDate.MonthFromTime t + 1) (JSDate.DateFromTime t).

(** The start date plus one period, as the specification words it: seven
    days later, the same day of the next month, the same day of the next
    year. *)
Definition plus_period (f : Frequency) (c : CivilDate) : CivilDate :=
  match f with
  | Weekly => date_of_day (day_number c + 7)
  | Monthly =>
      if month c =? 12 then mkDate (year c + 1) 1 (day c)
      else mkDate (year c) (month c + 1) (day c)
  | Annually => mkDate (year c + 1) (month c) (day c)
  end.

(** A month (0-based) and a day that exist in year [y]. *)
Definition valid_md (y mn d : Z) : Prop :=
  0 <= mn <= 11 /\ 1 <= d <= JSDate.DaysInMonth y mn.

Definition leapDay (leap : bool) : Z := if leap then 1 else 0.

Fixpoint all_chars (P : ascii -> bool) (s : string) : bool :=
  match s with
  | EmptyString => true
  | String c r => P c && all_chars P r
  end.

(** The characters of the date part of [toISOString]. *)
Definition date_char (c : ascii) : bool :=
  is_digit c || Ascii.eqb c "-" || Ascii.eqb c "+".

(** The claim about the next due date as the specification words it: a
    recurring donation made on a date of the calendar stores one profile,
    due one period after that date, a date that exists. *)
Definition profile_due_one_period_later : Prop :=
  forall (env : Env) (s : State) (data : Donation.t) (f : Frequency) (c : CivilDate),
    (exists d, In d (donors s) /\ Donor.id d = Donation.donorId data) ->
    Donation.recurring data = Recurs f ->
    is_date c -> 0 <= year c <= 9998 -> is_date (plus_period f c) ->
    Donation.date data = iso_date c ->
    exists p,
      recurringProfiles (fst (donations_add env data s)) = recurringProfiles s ++ [p]
      /\ RecurringProfile.nextDueDate p = iso_date (plus_period f c).

(** A host at UTC and one at a fixed five hours west of it, on an engine
    that reads no date outside the Date Time String Format. *)
Definition host0 : Env := mkEnv 1700000000123 0 (fun _ => "0.5") (fun _ => None).
Definition host_UTC_minus_5 : Env :=
  mkEnv 1700000000123 (-18000000) (fun _ => "0.5") (fun _ => None).

Definition donorD1 : Donor.t :=
  Donor.mk "D1" "Alice Johnson" "alice.j@example.com" "123-456-7890"
    "123 Maple St, Springfield" "2023-01-15" [] None None None None.

Definition store_with_D1 : State :=
  mkState [donorD1] [] [] [] [] [] mockSettings [] [] mockTags [].

(** The donation of the specification's scenario, and recurring ones. *)
Definition donationR1 : Donation.t :=
  Donation.mk "R1" "D1" 100 "2024-01-01" Online Zakat None NoRecurring.

Definition donation_monthly (date : string) : Donation.t :=
  Donation.mk "R1" "D1" 100 date Online Zakat None (Recurs Monthly).

(** ** Values that [JSON.stringify] writes and [JSON.parse] reads back *)

(** No numeral kept as a lexeme: the values of the typed store. *)
Fixpoint jwf (v : JSON) : bool :=
  match v with
  | JDec _ => false
  | JArr l => forallb jwf l
  | JObj ms => forallb (fun m => jwf (snd m)) ms
  | _ => true
  end.

(** What may follow a value in a printed text: nothing, a comma or a line
    break. *)
Definition terminated (k : string) : Prop :=
  match k with
  | EmptyString => True
  | String c _ => c = ","%char \/ c = nl
  end.

(** The first character of a printed value. *)
Definition value_start (c : ascii) : bool :=
  is_digit c || Ascii.eqb c "-" || Ascii.eqb c "n" || Ascii.eqb c "t"
  || Ascii.eqb c "f" || Ascii.eqb c dquote || Ascii.eqb c "[" || Ascii.eqb c "{".

Definition starts_digit (k : string) : bool :=
  match k with String c _ => is_digit c | EmptyString => false end.

(** What the round trip says of one value: the printed text of [v], read
    with enough fuel, gives [v] back and leaves what followed it. *)
Definition reads_back (v : JSON) : Prop :=
  forall lvl k fuel s,
    skip_ws s = pr lvl v k -> terminated k -> (String.length s < fuel)%nat ->
    parse_value fuel s = Some (v, k).

(** A codec that reads back what it writes, and writes no numeral lexeme. *)
Class Lawful (A : Type) `{Codec A} : Prop := {
  roundtrip : forall a : A, fromJSON (toJSON a) = Some a;
  wf : forall a : A, jwf (toJSON a) = true
}.

(** ** The backup layer, for stating what it does *)

(** [v.key] on a value other than [null]. *)
Definition field_of (v : JSON) (key : string) : option JSON :=
  match v with
  | JObj ms => get ms key
  | _ => None
  end.

(** The tracked collections: the key in a backup, the collection in the
    store, and the value that [restoreStateFromData] falls back to. *)
Definition tracked : list (string * (AnyStore -> JSON) * JSON) :=
  [("donors", any_donors, JArr []);
   ("donations", any_donations, JArr []);
   ("pledges", any_pledges, JArr []);
   ("recurringProfiles", any_recurringProfiles, JArr []);
   ("users", any_users, JArr []);
   ("roles", any_roles, JArr []);
   ("settings", any_settings, toJSON mockSettings);
   ("outbox", any_outbox, JArr []);
   ("communicationQueue", any_communicationQueue, JArr []);
   ("tags", any_tags, JArr [])].


(** A text in double quotes. *)
Definition quoted (s : string) : string := String dquote (s +++ String dquote "").

(** The claim about [restoreFromFile] as the specification words it: the
    restore succeeds exactly when the text parses to an object that has
    the keys [donors] and [donations]. *)
Definition succeeds_iff_keys_present : Prop :=
  forall (text : string) (st : AnyStore),
    success_of (fst (backups_restoreFromFile text st)) = true
    <-> exists ms, Json.parse text = Some (JObj ms)
                   /\ get ms "donors" <> None /\ get ms "donations" <> None.

(** A collection that is empty. *)
Definition is_empty (j : JSON) : Prop := j = JArr [] \/ j = JObj [].

(** A backup made by [backups.create], from a render whose collections
    have their declared types. *)
Definition created (b : Backup.t) : Prop :=
  exists env shown, b = newBackup env (ofState shown).

(** The stores that the hook can be in.  Once the data are loaded the
    Backups collection is empty ([setBackups([])]); every later store comes
    from an operation of the mutation layer or from an action on backups,
    [create] and [restore] being called through the actions of a render
    [shown] that is itself a store the hook was in. *)
Inductive reachable : State -> Prop :=
| reach_loaded (s : State) :
    backups s = [] -> reachable s
| reach_step (env : Env) (op : Op) (s : State) :
    reachable s -> reachable (step env op s)
| reach_create (env : Env) (shown s : State) :
    reachable shown -> reachable s ->
    reachable (setBackups (fun b => newBackup env (ofState shown) :: b) s)
| reach_delete (backupId : string) (s : State) :
    reachable s ->
    reachable (setBackups
                 (filter (fun backup => negb (String.eqb (Backup.id backup) backupId))) s)
| reach_restore (shown : State) (backupId : string) (s s' : State) (a : AnyStore) :
    reachable shown -> reachable s ->
    backups_restore (ofState shown) backupId (ofState s) = (Ok tt, a) ->
    asState a = Some s' -> reachable s'
| reach_restoreFromFile (text : string) (s s' : State) (r : RestoreResult) (a : AnyStore) :
    reachable s ->
    backups_restoreFromFile text (ofState s) = (Ok r, a) ->
    asState a = Some s' -> reachable s'.

(** The store with donor D1 once it is backed up on [host0] and the donor
    is then deleted. *)
Definition store_after_backup : State :=
  step host0 (DonorsDelete "D1")
    (setBackups (fun b => newBackup host0 (ofState store_with_D1) :: b) store_with_D1).

(** A store with one backup, of an object without properties. *)
Definition backup_of_nothing : Backup.t :=
  Backup.mk "backup-1" "2023-11-14T22:13:20.123Z" 2 "{}".

Definition store_one_backup : AnyStore :=
  ofState (mkState [donorD1] [] [] [] [] [] mockSettings [] [] mockTags
             [backup_of_nothing]).

(** Texts of backup files. *)
Definition file_without_donations : string :=
  "{" +++ quoted "donors" +++ ": []}".

Definition file_with_null_donors : string :=
  "{" +++ quoted "donors" +++ ": null, " +++ quoted "donations" +++ ": []}".

Definition file_minimal : string :=
  "{" +++ quoted "donors" +++ ": [], " +++ quoted "donations" +++ ": []}".

(** ** Statements and sample stores for the properties below *)

(** Every [donorId] that some collection of the store holds. *)
Definition outbox_donorIds (o : list OutboxItem.t) : list string :=
  flat_map (fun item =>
    match OutboxItem.variant item with
    | OutboxItem.template d _ => [d]
    | OutboxItem.receipt _ => []
    end) o.

Definition donor_references (s : State) : list string :=
  map Donation.donorId (donations s) ++ map Pledge.donorId (pledges s)
  ++ map RecurringProfile.donorId (recurringProfiles s)
  ++ outbox_donorIds (outbox s)
  ++ map QueuedCommunication.donorId (communicationQueue s).

(** The claim as the specification words it: once a donor is deleted, no
    collection holds its id. *)
Definition no_orphaned_donor_reference : Prop :=
  forall (id : string) (s : State),
    (exists d, In d (donors s) /\ Donor.id d = id) ->
    ~ In id (donor_references (donors_delete id s)).

(** Donor [D1] after one monthly donation. *)
Definition store_D1_monthly : State :=
  fst (donations_add host0
         (Donation.mk "R1" "D1" 100 "2024-01-15" Online Zakat None (Recurs Monthly))
         store_with_D1).

(** The role that [roles.find] returns for [id] is a system role. *)
Definition system_role (id : string) (s : State) : Prop :=
  exists r, find (fun r => String.eqb (Role.id r) id) (roles s) = Some r
            /\ Role.isSystemRole r = Some true.

(** Some user holds the role. *)
Definition assigned_role (id : string) (s : State) : Prop :=
  exists u, In u (users s) /\ User.roleId u = id.

Definition role_admin : Role.t := Role.mk "role-1" "Administrator" ALL_PERMISSIONS (Some true).
Definition role_staff : Role.t :=
  Role.mk "role-2" "Staff"
    [perm_donors_view; perm_donors_create; perm_donors_edit; perm_receipts_view;
     perm_receipts_create] None.
Definition role_viewer : Role.t :=
  Role.mk "role-3" "Viewer" [perm_donors_view; perm_receipts_view; perm_reports_view] None.
Definition user_john : User.t :=
  User.mk "user-2" "John Doe" "john.doe@example.com" "role-2" UserActive
    (Some "https://i.pravatar.cc/150?u=john") "2023-11-13T22:13:20.123Z".

Definition store_roles : State :=
  mkState [] [] [] [] [user_john] [role_admin; role_staff; role_viewer]
    mockSettings [] [] mockTags [].

Inductive OutboxOp : Type :=
| UpdateStatus (outboxId : string) (status : OutboxStatus) (error : option string)
| Retry (outboxId : string).

Definition outbox_step (env : Env) (op : OutboxOp) (s : State) : State :=
  match op with
  | UpdateStatus outboxId status error => outbox_updateStatus env outboxId status error s
  | Retry outboxId => outbox_retry outboxId s
  end.

Fixpoint outbox_run (ops : list (Env * OutboxOp)) (s : State) : State :=
  match ops with
  | [] => s
  | (env, op) :: rest => outbox_run rest (outbox_step env op s)
  end.

(** The transitions that the specification allows; [Failed] is left only by
    a retry. *)
Inductive allowed : OutboxOp -> OutboxStatus -> OutboxStatus -> Prop :=
| allowed_sent : forall op, allowed op ReadyToSend Sent
| allowed_failed : forall op, allowed op ReadyToSend Failed
| allowed_retry : forall id, allowed (Retry id) Failed ReadyToSend.

(** The claim as the specification words it: whatever the operations, an
    item keeps its status or moves along an allowed transition. *)
Definition only_allowed_transitions : Prop :=
  forall (ops : list (Env * OutboxOp)) (env : Env) (op : OutboxOp) (s : State)
         (n : nat) (before after : OutboxItem.t),
    nth_error (outbox (outbox_run ops s)) n = Some before ->
    nth_error (outbox (outbox_step env op (outbox_run ops s))) n = Some after ->
    OutboxItem.status after = OutboxItem.status before
    \/ allowed op (OutboxItem.status before) (OutboxItem.status after).

Definition sent_item : OutboxItem.t :=
  OutboxItem.mk "outbox-1" Sent "2023-11-14T22:13:20.123Z"
    (Some "2023-11-14T22:15:00.000Z") None (OutboxItem.receipt "R1").

Definition store_sent : State :=
  mkState [] [] [] [] [] [] mockSettings [sent_item] [] mockTags [].

Definition failed_item : OutboxItem.t :=
  OutboxItem.mk "outbox-2" Failed "2023-11-14T22:13:20.123Z" None
    (Some "Donor has no email address.") (OutboxItem.template "D1" "template-1").

(** The operations that write the Tags collection or the settings. *)
Definition writes_tags (op : Op) : bool :=
  match op with
  | TagsAdd _ | TagsUpdate _ | TagsDelete _ | SettingsUpdate _ => true
  | _ => false
  end.

Definition tags_in_sync (s : State) : Prop :=
  tags s = OrganizationSettings.tags (settings s).

(** The change that [tags.add], [tags.update] and [tags.delete] make to a
    list of tags: the new tag at the end, the tag with the id replaced, the
    tags with the id removed. *)
Definition tag_change (env : Env) (op : Op) (l : list Tag.t) : list Tag.t :=
  match op with
  | TagsAdd tagData => l ++ [Tag.with_id tagData ("tag-" +++ Date_now env)]
  | TagsUpdate tag =>
      map (fun t => if String.eqb (Tag.id t) (Tag.id tag) then tag else t) l
  | TagsDelete id => filter (fun t => negb (String.eqb (Tag.id t) id)) l
  | _ => l
  end.

(** What an operation that writes tags does to the Tags collection and to
    the settings: the three operations on tags make the same change to the
    Tags collection and to the tags of the settings, whose other fields
    stay; [settings.update] puts its input in the settings and the tags of
    its input in the Tags collection. *)
Definition writes_both_lists (env : Env) (op : Op) (s s' : State) : Prop :=
  match op with
  | TagsAdd _ | TagsUpdate _ | TagsDelete _ =>
      tags s' = tag_change env op (tags s)
      /\ settings s'
         = OrganizationSettings.with_tags (settings s)
             (tag_change env op (OrganizationSettings.tags (settings s)))
  | SettingsUpdate data =>
      settings s' = data /\ tags s' = OrganizationSettings.tags data
  | _ => True
  end.

(** The settings that a form of the settings page would submit: the
    built-in settings with one tag only. *)
Definition settings_one_tag : OrganizationSettings.t :=
  OrganizationSettings.with_tags mockSettings
    [Tag.mk "tag-9" "Major donor" "bg-green-100 text-green-800"].

(** ** Callers of the actions and their helpers *)

(** *** [utils/communication]: the phone number of a [wa.me] link *)

(** [phone.replace(/[^0-9]/g, '')] *)
Fixpoint only_digits (s : string) : string :=
  match s with
  | EmptyString => EmptyString
  | String c r => if is_digit c then String c (only_digits r) else only_digits r
  end.

Definition sanitizePhoneNumber (phone : string) : string :=
  let sanitized := only_digits phone in
  if Nat.eqb (String.length sanitized) 10 then String "1" sanitized else sanitized.

(** Whether [sendToWhatsApp] opens a window: it does not, and only alerts,
    when no digit is left of the number. *)
Definition sendToWhatsApp_opens (phoneNumber : string) : bool :=
  negb (String.eqb (sanitizePhoneNumber phoneNumber) "").

(** *** [App.handleImport]: one [donors.add] per imported donor, the
    [i]-th call meeting the host [host i] *)

Fixpoint handleImport_from (host : nat -> Env) (i : nat) (newDonors : list Donor.t)
  (s : State) : State :=
  match newDonors with
  | [] => s
  | donor :: rest => handleImport_from host (S i) rest (fst (donors_add (host i) donor s))
  end.

Definition handleImport (host : nat -> Env) (newDonors : list Donor.t) (s : State)
  : State :=
  handleImport_from host 0%nat newDonors s.

(** *** The outbox view: [processedItems] and [handleSend] *)

(** [new Map(items.map(x => [key(x), x])).get(k)]: the last item with the
    key, a later entry of a map replacing an earlier one. *)
Definition Map_get {A : Type} (key : A -> string) (items : list A) (k : string)
  : option A :=
  find (fun x => String.eqb (key x) k) (rev items).

Record ProcessedItem : Type := mkProcessed {
  item : OutboxItem.t;
  item_donation : option Donation.t;
  item_donor : option Donor.t;
  item_template : option CommunicationTemplate.t
}.

Definition process_item (s : State) (it : OutboxItem.t) : ProcessedItem :=
  match OutboxItem.variant it with
  | OutboxItem.receipt donationId =>
      let donation := Map_get Donation.id (donations s) donationId in
      let donor :=
        match donation with
        | Some d => Map_get Donor.id (donors s) (Donation.donorId d)
        | None => None
        end in
      mkProcessed it donation donor None
  | OutboxItem.template donorId templateId =>
      let donor := Map_get Donor.id (donors s) donorId in
      let template :=
        Map_get CommunicationTemplate.id
          (OrganizationSettings.communicationTemplates (settings s)) templateId in
      mkProcessed it None donor template
  end.

Definition LogChannel_of (channel : Channel) : LogChannel :=
  match channel with Email => LogEmail | WhatsApp => LogWhatsApp end.

(** The subject of the log entry; an item without its donation or its
    template is invalid. *)
Definition logSubject_of (p : ProcessedItem) : Exc string :=
  match OutboxItem.variant (item p), item_donation p, item_template p with
  | OutboxItem.receipt _, Some donation, _ => Ok ("Receipt: " +++ Donation.id donation)
  | OutboxItem.template _ _, _, Some template =>
      Ok ("Template: " +++ CommunicationTemplate.name template)
  | _, _, _ => Throw (Error "Invalid outbox item data.")
  end.

(** [currentUser?.id || 'system'] *)
Definition userId_or_system (currentUser : option User.t) : string :=
  match currentUser with
  | Some u => if String.eqb (User.id u) "" then "system" else User.id u
  | None => "system"
  end.

(** What the [try] block of [handleSend] does before it touches the store:
    the subject to log and whether a window was opened, or the error
    thrown. *)
Definition prepare_send (p : ProcessedItem) (donor : Donor.t) (channel : Channel)
  : Exc (string * bool) :=
  logSubject <- logSubject_of p ;;
  match channel with
  | WhatsApp =>
      if String.eqb (Donor.phone donor) "" then Throw (Error "Donor has no phone number.")
      else Ok (logSubject, sendToWhatsApp_opens (Donor.phone donor))
  | Email =>
      if String.eqb (Donor.email donor) "" then Throw (Error "Donor has no email address.")
      else Ok (logSubject, true)
  end.

Definition error_message (e : JSError) : string :=
  match e with
  | Error m => m
  | SyntaxError => "SyntaxError"
  | TypeError => "TypeError"
  | RangeError => "RangeError"
  end.

(** [handleSend]: [env] is the host until the log is written, [env'] the
    host when the item is marked Sent.  The result is the store and whether
    a window (WhatsApp or the mail client) was opened. *)
Definition handleSend (env env' : Env) (currentUser : option User.t) (p : ProcessedItem)
  (channel : Channel) (s : State) : State * bool :=
  let outboxId := OutboxItem.id (item p) in
  match item_donor p with
  | None => (outbox_updateStatus env outboxId Failed (Some "Missing donor data.") s, false)
  | Some donor =>
      match prepare_send p donor channel with
      | Ok (logSubject, opened) =>
          let s := donors_logCommunication env (Donor.id donor)
                     (CommunicationLog.mk "" (now_iso env) (LogChannel_of channel) logSubject
                        ("Message sent via " +++ Channel_text channel +++ " from Outbox.")
                        (userId_or_system currentUser)) s in
          (outbox_updateStatus env' outboxId Sent None s, opened)
      | Throw e => (outbox_updateStatus env outboxId Failed (Some (error_message e)) s, false)
      end
  end.

(** *** [Pagination] and the page of a list *)

(** [Math.ceil(a / b)] for integers, [b] positive. *)
Definition ceil_div (a b : Z) : Z := - ((- a) / b).

Definition totalPages (totalItems itemsPerPage : Z) : Z := ceil_div totalItems itemsPerPage.
Definition startItem (currentPage itemsPerPage : Z) : Z := (currentPage - 1) * itemsPerPage + 1.
Definition endItem (currentPage totalItems itemsPerPage : Z) : Z :=
  Z.min (currentPage * itemsPerPage) totalItems.

(** The page asked for by the two buttons. *)
Definition handlePrevious (currentPage : Z) : Z :=
  if 1 <? currentPage then currentPage - 1 else currentPage.
Definition handleNext (currentPage totalItems itemsPerPage : Z) : Z :=
  if currentPage <? totalPages totalItems itemsPerPage then currentPage + 1 else currentPage.

(** [l.slice(start, end)]: a negative index counts from the end. *)
Definition slice_index (len k : Z) : Z :=
  if k <? 0 then Z.max (len + k) 0 else Z.min k len.

Definition Array_slice {A : Type} (l : list A) (start stop : Z) : list A :=
  let len := Z.of_nat (length l) in
  let a := slice_index len start in
  let b := slice_index len stop in
  firstn (Z.to_nat (b - a)) (skipn (Z.to_nat a) l).

Definition ITEMS_PER_PAGE : Z := 10.

(** The rows that the lists of donors, receipts and pledges show. *)
Definition paginated {A : Type} (l : list A) (currentPage : Z) : list A :=
  let startIndex := (currentPage - 1) * ITEMS_PER_PAGE in
  Array_slice l startIndex (startIndex + ITEMS_PER_PAGE).

(** ** Statements and sample stores for the further properties *)

(** No item of [l] has the key [k]. *)
Definition unknown {A : Type} (key : A -> string) (k : string) (l : list A) : Prop :=
  forall x, In x l -> key x <> k.

(** No donor, donation or pledge of the store refers to the donor [id]. *)
Definition fresh_donor_id (id : string) (s : State) : Prop :=
  unknown Donor.id id (donors s)
  /\ unknown Donation.donorId id (donations s)
  /\ unknown Pledge.donorId id (pledges s).

(** The donor that [donors.add] stores at the clock value [t]. *)
Definition imported_at (t : Z) (donor : Donor.t) : Donor.t :=
  Donor.with_id_history donor ("donor-" +++ Z_to_string t) [].

(** Every pledge with the id has a list of tasks. *)
Definition tasks_defined (pledgeId : string) (s : State) : Prop :=
  forall p, In p (pledges s) -> Pledge.id p = pledgeId -> Pledge.tasks p <> None.

(** The day of the month of [c] counted from the first day of the month
    one period later; days that this month lacks run on into the next. *)
Definition rolled_over (f : Frequency) (c : CivilDate) : CivilDate :=
  date_of_day (day_number (plus_period f (mkDate (year c) (month c) 1)) + (day c - 1)).

Fixpoint has_digit (s : string) : bool :=
  match s with
  | EmptyString => false
  | String c r => is_digit c || has_digit r
  end.

(** Whether [Pagination] renders anything. *)
Definition Pagination_shown (totalItems itemsPerPage : Z) : bool :=
  negb (totalPages totalItems itemsPerPage <=? 1).

(** The pages [1 .. n]. *)
Definition page_numbers (n : Z) : list Z :=
  map (fun i => Z.of_nat i + 1) (seq 0 (Z.to_nat n)).

(** Sample values. *)
Definition host_west : Env := mkEnv 1700000000123 (-28800000) (fun _ => "0.5") (fun _ => None).

Definition donorD2 : Donor.t :=
  Donor.mk "D2" "Bilal Khan" "bilal.k@example.com" "n/a"
    "45 Oak Ave, Shelbyville" "2023-02-20" [] None None None None.

Definition pledge_P1 : Pledge.t :=
  Pledge.mk "P1" "D1" 500 "2024-06-01" Pending
    (Some [PledgeTask.mk "task-1" "Call the donor" false;
           PledgeTask.mk "task-2" "Send a reminder" true]).

Definition store_pledge : State :=
  mkState [donorD1] [] [pledge_P1] [] [] [] mockSettings [] [] mockTags [].

Definition profile_rec1 : RecurringProfile.t :=
  RecurringProfile.mk "rec-1" "D1" 100 Monthly "2024-01-15" "2024-02-15" Active Zakat
    None Online.

Definition store_profile : State :=
  mkState [donorD1] [] [] [profile_rec1] [] [] mockSettings [] [] mockTags [].

Definition state_one_backup : State :=
  mkState [donorD1] [] [] [] [] [] mockSettings [] [] mockTags [backup_of_nothing].

(** The receipt that [donations.add] queues on [host0], with a donor whose
    phone number has no digit. *)
Definition donationR2 : Donation.t :=
  Donation.mk "R2" "D2" 50 "2024-01-01" Online Sadaqa None NoRecurring.

Definition queued_receipt : OutboxItem.t :=
  OutboxItem.mk ("outbox-" +++ Date_now host0) ReadyToSend (now_iso host0) None None
    (OutboxItem.receipt "R2").

Definition store_receipt : State :=
  mkState [donorD1; donorD2] [donationR2] [] [] [] [] mockSettings [queued_receipt] []
    mockTags [].

Definition store_template : State :=
  mkState [donorD1] [] [] [] [] [] mockSettings [failed_item] [] mockTags [].

Definition rows11 : list Z := [1; 2; 3; 4; 5; 6; 7; 8; 9; 10; 11].

Definition donorD1_moved : Donor.t :=
  Donor.mk "D1" "Alice Johnson" "alice.j@example.com" "123-456-7890"
    "9 Elm Rd, Capital City" "2023-01-15" [] None None None None.

(** The queued receipt once it is marked Sent on [host0]. *)
Definition sent_receipt : OutboxItem.t :=
  OutboxItem.mk ("outbox-" +++ Date_now host0) Sent (now_iso host0)
    (Some (now_iso host0)) None (OutboxItem.receipt "R2").

(** A store whose only backup holds the text [null]. *)
Definition backup_of_null : Backup.t :=
  Backup.mk "backup-2" "2023-11-14T22:13:20.123Z" 4 "null".

Definition store_null_backup : AnyStore :=
  ofState (mkState [donorD1] [] [] [] [] [] mockSettings [] [] mockTags
             [backup_of_null]).

(** * Properties *)

(** [lia] is to reason about divisions by constants. *)
Ltac Zify.zify_post_hook ::= Z.to_euclidean_division_equations.

(** ** Sets and lists *)

Lemma Set_has_spec (ids : list string) (x : string) :
  Set_has (Set_new ids) x = true <-> In x ids.
Proof.
  unfold Set_has. rewrite StringSet.mem_spec.
  induction ids as [|i ids IH]; simpl.
  - split; [intros H; exact (StringSet.empty_spec H) | tauto].
  - rewrite StringSet.add_spec, IH. split; intros [H|H]; auto.
Qed.

Lemma Set_has_single (id x : string) :
  Set_has (Set_new [id]) x = String.eqb x id.
Proof.
  destruct (String.eqb x id) eqn:E.
  - apply Set_has_spec. apply String.eqb_eq in E. left. congruence.
  - destruct (Set_has (Set_new [id]) x) eqn:F; [|reflexivity].
    apply Set_has_spec in F. destruct F as [F|[]].
    apply String.eqb_neq in E. congruence.
Qed.

Lemma filter_keeps {A : Type} (f : A -> bool) (l : list A) (x : A) :
  In x (filter f l) <-> In x l /\ f x = true.
Proof. apply filter_In. Qed.

Lemma negb_eqb_true (a b : string) : negb (String.eqb a b) = true <-> a <> b.
Proof.
  rewrite negb_true_iff. apply String.eqb_neq.
Qed.

Lemma negb_has_true (ids : list string) (x : string) :
  negb (Set_has (Set_new ids) x) = true <-> ~ In x ids.
Proof.
  rewrite negb_true_iff, <- Set_has_spec.
  destruct (Set_has (Set_new ids) x); split; congruence.
Qed.

(** Deleting one donor is deleting the set that holds it alone. *)
Lemma donors_delete_as_bulk (id : string) (s : State) :
  donors_delete id s = donors_deleteBulk [id] s.
Proof.
  unfold donors_delete, donors_deleteBulk, setDonors, setDonations, setPledges.
  cbn -[Set_new Set_has].
  f_equal; apply filter_ext; intros a; now rewrite Set_has_single.
Qed.

(** ** Deleting donors (C1) *)

(** C1, counterexample: donor D1 gives monthly and is then deleted; the
    recurring profile that the donation created still names D1, so the
    claim that no collection refers to a deleted donor fails. *)
Lemma C1_orphaned_profile_remains : ~ no_orphaned_donor_reference.
Proof.
  intros H. apply (H "D1" store_D1_monthly).
  - exists (Donor.with_donationHistory donorD1
              [DonationHistory.mk "2024-01-15" 100 "R1"]).
    split; [left|]; reflexivity.
  - vm_compute. left. reflexivity.
Qed.

(** C1, as amended: [donors.delete(id)] and [donors.deleteBulk(ids)] keep
    exactly the donors whose id is not deleted and exactly the donations
    and pledges whose [donorId] is not deleted; the cascade stops there,
    and the recurring profiles are left as they were. *)
Theorem C1_delete_cascades_to_donations_and_pledges :
  forall (ids : list string) (s : State),
    let s' := donors_deleteBulk ids s in
    (forall d, In d (donors s') <-> In d (donors s) /\ ~ In (Donor.id d) ids)
    /\ (forall d, In d (donations s') <-> In d (donations s) /\ ~ In (Donation.donorId d) ids)
    /\ (forall p, In p (pledges s') <-> In p (pledges s) /\ ~ In (Pledge.donorId p) ids)
    /\ recurringProfiles s' = recurringProfiles s
    /\ (forall id, donors_delete id s = donors_deleteBulk [id] s).
Proof.
  intros ids s s'. subst s'. unfold donors_deleteBulk. cbn -[Set_new Set_has].
  split; [|split; [|split; [|split]]].
  - intros d. rewrite filter_keeps, negb_has_true. reflexivity.
  - intros d. rewrite filter_keeps, negb_has_true. reflexivity.
  - intros p. rewrite filter_keeps, negb_has_true. reflexivity.
  - reflexivity.
  - intros id. apply donors_delete_as_bulk.
Qed.

(** ** Deleting a role (C4) *)

Lemma is_system_spec (id : string) (s : State) :
  is_system (find (fun r => String.eqb (Role.id r) id) (roles s)) = true
  <-> system_role id s.
Proof.
  unfold system_role, is_system.
  destruct (find _ (roles s)) as [r|].
  - destruct (Role.isSystemRole r) as [[|]|] eqn:E; split; intros H;
      try discriminate; try (exists r; now rewrite E);
      destruct H as [r' [H1 H2]]; inversion H1; subst; congruence.
  - split; [discriminate | intros [r [H _]]; discriminate].
Qed.

Lemma assigned_spec (id : string) (s : State) :
  existsb (fun u => String.eqb (User.roleId u) id) (users s) = true
  <-> assigned_role id s.
Proof.
  unfold assigned_role. rewrite existsb_exists.
  split; intros [u [H1 H2]]; exists u; split; auto; now apply String.eqb_eq.
Qed.

(** C4: [roles.delete(id)] returns an [error] and leaves the whole store as
    it was when the role is a system role or some user holds it; otherwise
    it returns nothing, keeps exactly the roles with another id, and
    leaves every other collection as it was. *)
Theorem C4_roles_delete_fails_closed :
  forall (id : string) (s : State),
    (system_role id s \/ assigned_role id s ->
       exists message, roles_delete id s = (s, Some message))
    /\ (~ (system_role id s \/ assigned_role id s) ->
          snd (roles_delete id s) = None
          /\ (forall r, In r (roles (fst (roles_delete id s)))
                        <-> In r (roles s) /\ Role.id r <> id)
          /\ fst (roles_delete id s)
             = setRoles (fun _ => roles (fst (roles_delete id s))) s).
Proof.
  intros id s. unfold roles_delete.
  destruct (is_system _) eqn:Esys.
  - split.
    + intros _. eexists. reflexivity.
    + intros H. exfalso. apply H. left. now apply is_system_spec.
  - destruct (existsb _ (users s)) eqn:Eas.
    + split.
      * intros _. eexists. reflexivity.
      * intros H. exfalso. apply H. right. now apply assigned_spec.
    + split.
      * intros [H|H].
        -- apply is_system_spec in H. congruence.
        -- apply assigned_spec in H. congruence.
      * intros _. cbn. split; [reflexivity|]. split; [|reflexivity].
        intros r. rewrite filter_keeps, negb_eqb_true. reflexivity.
Qed.

(** C4 at work: the system role and the assigned role stay, the unused
    role goes. *)
Lemma C4_roles_delete_witness :
  (exists m, roles_delete "role-1" store_roles = (store_roles, Some m))
  /\ (exists m, roles_delete "role-2" store_roles = (store_roles, Some m))
  /\ snd (roles_delete "role-3" store_roles) = None.
Proof.
  split; [|split].
  - apply (proj1 (C4_roles_delete_fails_closed "role-1" store_roles)).
    left. exists role_admin. split; reflexivity.
  - apply (proj1 (C4_roles_delete_fails_closed "role-2" store_roles)).
    right. exists user_john. split; [left|]; reflexivity.
  - apply (proj2 (C4_roles_delete_fails_closed "role-3" store_roles)).
    intros [[r [H1 H2]]|[u [[H1|[]] H2]]].
    + vm_compute in H1. inversion H1; subst. discriminate.
    + subst u. discriminate.
Defined.

(** ** Deleting a tag (C5) *)

(** C5: after [tags.delete(id)] no tag of the Tags collection and no tag of
    the settings has that id, the other tags are all kept, and every donor
    of the store is still there, in place, with [id] gone from its
    [tagIds] and its other tag ids kept. *)
Theorem C5_tags_delete_cascades :
  forall (id : string) (s : State),
    let s' := tags_delete id s in
    (forall t, In t (tags s') <-> In t (tags s) /\ Tag.id t <> id)
    /\ (forall t, In t (OrganizationSettings.tags (settings s'))
                  <-> In t (OrganizationSettings.tags (settings s)) /\ Tag.id t <> id)
    /\ length (donors s') = length (donors s)
    /\ (forall n d, nth_error (donors s) n = Some d ->
          exists d' l,
            nth_error (donors s') n = Some d'
            /\ Donor.id d' = Donor.id d
            /\ Donor.tagIds d' = Some l
            /\ (forall x, In x l <-> In x (or_empty (Donor.tagIds d)) /\ x <> id))
    /\ (forall d l, In d (donors s') -> Donor.tagIds d = Some l -> ~ In id l).
Proof.
  intros id s s'. subst s'. unfold tags_delete. cbn.
  split; [|split; [|split; [|split]]].
  - intros t. rewrite filter_keeps, negb_eqb_true. reflexivity.
  - intros t. rewrite filter_keeps, negb_eqb_true. reflexivity.
  - apply length_map.
  - intros n d H. eexists. eexists. rewrite nth_error_map, H. cbn.
    split; [reflexivity|]. split; [reflexivity|]. split; [reflexivity|].
    intros x. rewrite filter_keeps, negb_eqb_true. reflexivity.
  - intros d l Hd Hl Hin. apply in_map_iff in Hd. destruct Hd as [d0 [Hd0 _]].
    subst d. cbn in Hl. inversion Hl; subst.
    apply filter_keeps in Hin. destruct Hin as [_ Hin].
    apply negb_eqb_true in Hin. congruence.
Qed.

(** ** The status of an outbox item (C9) *)

(** C9, counterexample: [retry] on an item that was sent puts it back to
    Ready to Send, a transition the claim rules out. *)
Lemma C9_retry_reopens_sent_item : ~ only_allowed_transitions.
Proof.
  intros H.
  destruct (H [] host0 (Retry "outbox-1") store_sent 0%nat sent_item
              (OutboxItem.mk "outbox-1" ReadyToSend "2023-11-14T22:13:20.123Z"
                 (Some "2023-11-14T22:15:00.000Z") None (OutboxItem.receipt "R1"))
              eq_refl eq_refl) as [E|E].
  - discriminate E.
  - inversion E.
Qed.

Lemma outbox_step_length (env : Env) (op : OutboxOp) (s : State) :
  length (outbox (outbox_step env op s)) = length (outbox s).
Proof. destruct op; cbn; apply length_map. Qed.

(** C9, as amended: the layer does not check the current status.  Whatever
    its status, an item named by [updateStatus(id, status, error)] takes
    the status passed (so Ready to Send becomes Sent or Failed when asked),
    and an item named by [retry(id)] becomes Ready to Send with its error
    cleared (so Failed becomes Ready to Send); an item with another id is
    left as it is, and no item is added, dropped or moved. *)
Theorem C9_outbox_status_is_set_unconditionally :
  forall (env : Env) (op : OutboxOp) (s : State),
    length (outbox (outbox_step env op s)) = length (outbox s)
    /\ forall (n : nat) (before : OutboxItem.t),
         nth_error (outbox s) n = Some before ->
         exists after,
           nth_error (outbox (outbox_step env op s)) n = Some after
           /\ OutboxItem.id after = OutboxItem.id before
           /\ match op with
              | UpdateStatus outboxId status error =>
                  if String.eqb (OutboxItem.id before) outboxId
                  then OutboxItem.status after = status
                       /\ OutboxItem.error after = error_or error (OutboxItem.error before)
                  else after = before
              | Retry outboxId =>
                  if String.eqb (OutboxItem.id before) outboxId
                  then OutboxItem.status after = ReadyToSend
                       /\ OutboxItem.error after = None
                  else after = before
              end.
Proof.
  intros env op s. split; [apply outbox_step_length|].
  intros n before H.
  destruct op as [oid st err|oid]; cbn; rewrite nth_error_map, H; cbn;
    eexists; (split; [reflexivity|]);
    destruct (String.eqb (OutboxItem.id before) oid); cbn; auto.
Qed.

(** C9 at work: a failed item is retried and is Ready to Send again, its
    error cleared. *)
Lemma C9_outbox_witness :
  exists after,
    nth_error (outbox (outbox_step host0 (Retry "outbox-2")
                         (setOutbox (fun o => o ++ [failed_item]) store_sent))) 1
    = Some after
    /\ OutboxItem.status after = ReadyToSend
    /\ OutboxItem.error after = None.
Proof.
  destruct (proj2 (C9_outbox_status_is_set_unconditionally host0 (Retry "outbox-2")
                     (setOutbox (fun o => o ++ [failed_item]) store_sent))
              1%nat failed_item eq_refl) as [after [H1 [_ H2]]].
  exists after. split; [exact H1 | exact H2].
Defined.

(** ** Tags and the settings' tag list (C10) *)

Lemma step_keeps_tags (env : Env) (op : Op) (s : State) :
  writes_tags op = false ->
  tags (step env op s) = tags s /\ settings (step env op s) = settings s.
Proof.
  destruct op; try discriminate; intros _; cbn; auto.
  - unfold donations_add. cbn. destruct (Donation.recurring data); cbn; auto.
    unfold recurring_add. destruct (calculateNextDueDate _ _ _); cbn; auto.
  - unfold recurring_add. destruct (calculateNextDueDate _ _ _); cbn; auto.
  - unfold roles_delete. destruct (is_system _); cbn; auto.
    destruct (existsb _ _); cbn; auto.
Qed.

Lemma step_keeps_tags_in_sync (env : Env) (op : Op) (s : State) :
  tags_in_sync s -> tags_in_sync (step env op s).
Proof.
  unfold tags_in_sync. intros H.
  destruct (writes_tags op) eqn:W.
  - destruct op; try discriminate; cbn; try rewrite H; reflexivity.
  - destruct (step_keeps_tags env op s W) as [H1 H2]. now rewrite H1, H2.
Qed.

(** The same along a whole run. *)
Lemma run_keeps_tags_in_sync (ops : list (Env * Op)) :
  forall s, tags_in_sync s -> tags_in_sync (run ops s).
Proof.
  induction ops as [|[env op] ops IH]; intros s H; cbn; auto.
  apply IH. now apply step_keeps_tags_in_sync.
Qed.

Lemma step_writes_both_lists (env : Env) (op : Op) (s : State) :
  writes_both_lists env op s (step env op s).
Proof. destruct op; cbn; auto. Qed.

(** C10: [tags.add], [tags.update] and [tags.delete] make the same change
    to the Tags collection and to the tag list of the settings, and
    [settings.update] overwrites the settings with its input and the Tags
    collection with the tags of that input; any other operation of the
    mutation layer writes neither the Tags collection nor the settings; so
    every operation of the layer keeps the Tags collection equal to the tag
    list of the settings. *)
Theorem C10_tags_stay_in_sync :
  forall (env : Env) (op : Op) (s : State),
    writes_both_lists env op s (step env op s)
    /\ (writes_tags op = false ->
          tags (step env op s) = tags s /\ settings (step env op s) = settings s)
    /\ (tags_in_sync s -> tags_in_sync (step env op s)).
Proof.
  intros env op s.
  split; [apply step_writes_both_lists|].
  split; [apply step_keeps_tags | apply step_keeps_tags_in_sync].
Qed.

(** C10 at work: a tag is deleted from the built-in tags, a donor is
    deleted, and the settings are replaced. *)
Lemma C10_tags_witness :
  tags_in_sync (step host0 (TagsDelete "tag-1") store_with_D1)
  /\ tags (step host0 (DonorsDelete "D1") store_with_D1) = tags store_with_D1
  /\ tags (step host0 (SettingsUpdate settings_one_tag) store_with_D1)
     = OrganizationSettings.tags settings_one_tag.
Proof.
  split; [|split].
  - apply (proj2 (proj2 (C10_tags_stay_in_sync host0 (TagsDelete "tag-1") store_with_D1))).
    reflexivity.
  - apply (proj1 (proj2 (C10_tags_stay_in_sync host0 (DonorsDelete "D1") store_with_D1))).
    reflexivity.
  - apply (proj1 (C10_tags_stay_in_sync host0 (SettingsUpdate settings_one_tag)
                    store_with_D1)).
Defined.

(** ** The calendar of [Date] (C2) *)

Section Calendar.
Import JSDate.

Lemma DaysInYear_cases y : (isLeap y = true /\ DaysInYear y = 366) \/ (isLeap y = false /\ DaysInYear y = 365).
Proof. unfold DaysInYear. destruct (isLeap y); auto. Qed.

Lemma DayFromYear_succ y : DayFromYear (y + 1) = DayFromYear y + DaysInYear y.
Proof.
  unfold DayFromYear, DaysInYear, isLeap.
  destruct (Z.eqb_spec (y mod 4) 0), (Z.eqb_spec (y mod 100) 0), (Z.eqb_spec (y mod 400) 0); cbn [negb andb orb]; lia.
Qed.

Lemma DayFromYear_mono y y' : y <= y' -> DayFromYear y <= DayFromYear y'.
Proof. unfold DayFromYear. lia. Qed.

Lemma YearFromDay_spec n : DayFromYear (YearFromDay n) <= n < DayFromYear (YearFromDay n + 1).
Proof.
  unfold YearFromDay.
  set (y := 1970 + n * 400 / 146097).
  assert (Hy : 146097 * (y - 1970) <= n * 400 < 146097 * (y - 1970) + 146097) by (subst y; lia).
  clearbody y.
  destruct (Z.leb_spec (DayFromYear (y + 1)) n).
  - split; [assumption|]. unfold DayFromYear in *. lia.
  - destruct (Z.ltb_spec n (DayFromYear y)).
    + replace (y - 1 + 1) with y by lia. split; [|assumption]. unfold DayFromYear in *. lia.
    + split; assumption.
Qed.

Lemma YearFromDay_unique n y : DayFromYear y <= n < DayFromYear (y + 1) -> YearFromDay n = y.
Proof.
  intros H. pose proof (YearFromDay_spec n) as S.
  destruct (Z.lt_trichotomy (YearFromDay n) y) as [L|[E|G]]; auto.
  - pose proof (DayFromYear_mono (YearFromDay n + 1) y ltac:(lia)). lia.
  - pose proof (DayFromYear_mono (y + 1) (YearFromDay n) ltac:(lia)). lia.
Qed.

Lemma Day_MakeDate n tod : 0 <= tod < msPerDay -> Day (MakeDate n tod) = n /\ TimeWithinDay (MakeDate n tod) = tod.
Proof. unfold Day, TimeWithinDay, MakeDate, msPerDay. lia. Qed.

Lemma MakeDay_year y mn d : valid_md y mn d -> YearFromDay (MakeDay y mn d) = y.
Proof.
  intros [Hm Hd]. apply YearFromDay_unique. rewrite DayFromYear_succ.
  unfold MakeDay. replace (mn / 12) with 0 by lia. replace (mn mod 12) with mn by lia.
  replace (y + 0) with y by lia.
  unfold DaysInYear, DaysInMonth, daysBeforeMonth in *.
  assert (mn = 0 \/ mn = 1 \/ mn = 2 \/ mn = 3 \/ mn = 4 \/ mn = 5 \/ mn = 6 \/ mn = 7 \/ mn = 8 \/ mn = 9 \/ mn = 10 \/ mn = 11) as C by lia.
  destruct (isLeap y); repeat (destruct C as [C|C]; [subst mn; cbn in *; lia|]); subst mn; cbn in *; lia.
Qed.

Lemma month_table (leap : bool) (mn d : Z) :
  0 <= mn <= 11 ->
  1 <= d <= (match mn with 1 => if leap then 29 else 28 | 3 | 5 | 8 | 10 => 30 | _ => 31 end) ->
  monthFromDay (daysBeforeMonth leap mn + d - 1) (leapDay leap) = mn
  /\ dateFromDay (daysBeforeMonth leap mn + d - 1) (leapDay leap) = d.
Proof.
  intros Hm Hd.
  assert (mn = 0 \/ mn = 1 \/ mn = 2 \/ mn = 3 \/ mn = 4 \/ mn = 5 \/ mn = 6 \/ mn = 7 \/ mn = 8 \/ mn = 9 \/ mn = 10 \/ mn = 11) as C by lia.
  clear Hm.
  unfold dateFromDay, monthFromDay, daysBeforeMonth, leapDay.
  destruct leap;
    repeat (destruct C as [C|C]; [subst mn|]); try subst mn;
    repeat match goal with
           | |- context [?a <? ?b] =>
               first [ rewrite (proj2 (Z.ltb_lt a b)) by lia
                     | rewrite (proj2 (Z.ltb_ge a b)) by lia ]
           end; split; lia.
Qed.

Lemma MakeDay_fields y mn d tod : valid_md y mn d -> 0 <= tod < msPerDay ->
  let t := MakeDate (MakeDay y mn d) tod in
  YearFromTime t = y /\ MonthFromTime t = mn /\ DateFromTime t = d.
Proof.
  intros V Ht t. subst t.
  assert (Y : YearFromTime (MakeDate (MakeDay y mn d) tod) = y).
  { unfold YearFromTime. rewrite (proj1 (Day_MakeDate _ _ Ht)). now apply MakeDay_year. }
  assert (W : DayWithinYear (MakeDate (MakeDay y mn d) tod) = daysBeforeMonth (isLeap y) mn + d - 1).
  { unfold DayWithinYear. rewrite Y, (proj1 (Day_MakeDate _ _ Ht)).
    destruct V as [Hm Hd]. unfold MakeDay.
    replace (mn / 12) with 0 by lia. replace (mn mod 12) with mn by lia.
    replace (y + 0) with y by lia. lia. }
  split; [exact Y|].
  unfold DateFromTime, MonthFromTime, InLeapYear. rewrite Y, W.
  destruct V as [Hm Hd]. apply (month_table (isLeap y) mn d Hm Hd).
Qed.

Lemma digit_val_digit k : 0 <= k <= 9 -> digit_val (digit k) = Some k.
Proof.
  intros H.
  assert (k = 0 \/ k = 1 \/ k = 2 \/ k = 3 \/ k = 4 \/ k = 5 \/ k = 6 \/ k = 7 \/ k = 8 \/ k = 9) as C by lia.
  repeat (destruct C as [C|C]; [subst k; reflexivity|]). subst k; reflexivity.
Qed.

Lemma digit_not (c : ascii) k :
  0 <= k <= 9 -> is_digit c = false -> Ascii.eqb (digit k) c = false.
Proof.
  intros H Hc. destruct (Ascii.eqb_spec (digit k) c) as [E|]; [|reflexivity].
  subst c. unfold is_digit in Hc. now rewrite (digit_val_digit k H) in Hc.
Qed.

Lemma digits2_pad a b : 0 <= a <= 9 -> 0 <= b <= 9 ->
  digits2 (digit a) (digit b) = Some (10 * a + b).
Proof. intros Ha Hb. unfold digits2. now rewrite !digit_val_digit. Qed.

Lemma parse_iso_date c :
  is_date c -> 0 <= year c <= 9999 ->
  forall tza other,
    JSDate.parse tza other (iso_date c) = Some (MakeDate (day_number c) 0).
Proof.
  intros [Hm Hd] Hy tza other. destruct c as [y m d]; cbn [year month day] in *.
  assert (Hd' : d <= 31).
  { unfold DaysInMonth in Hd. destruct (m - 1); try lia; repeat (destruct p; try lia); destruct (isLeap y); lia. }
  unfold iso_date, pad4, pad3, pad2; cbn [year month day String.append].
  unfold JSDate.parse, parse_format, parse_date, take4, take2, digits4.
  rewrite !digits2_pad by lia.
  replace (100 * (10 * (y / 1000 mod 10) + y / 100 mod 10) + (10 * (y / 10 mod 10) + y mod 10)) with y by lia.
  replace (10 * (m / 10 mod 10) + m mod 10) with m by lia.
  replace (10 * (d / 10 mod 10) + d mod 10) with d by lia.
  replace ((1 <=? m) && (m <=? 12) && (1 <=? d) && (d <=? DaysInMonth y (m - 1))) with true.
  - reflexivity.
  - symmetry. rewrite !andb_true_iff, !Z.leb_le. lia.
Qed.

Lemma all_chars_app P a b : all_chars P (a +++ b) = all_chars P a && all_chars P b.
Proof. induction a as [|c a IH]; cbn; [reflexivity|]. now rewrite IH, andb_assoc. Qed.

Lemma split_head_app sep a b :
  all_chars (fun c => negb (Ascii.eqb c sep)) a = true ->
  split_head sep (a +++ String sep b) = a.
Proof.
  induction a as [|c a IH]; cbn; intros H.
  - now rewrite Ascii.eqb_refl.
  - apply andb_true_iff in H. destruct H as [H1 H2].
    apply negb_true_iff in H1. rewrite H1. f_equal. now apply IH.
Qed.

Lemma is_digit_mod10 n : is_digit (digit (n mod 10)) = true.
Proof. unfold is_digit. rewrite digit_val_digit by lia. reflexivity. Qed.

Lemma date_char_mod10 n : date_char (digit (n mod 10)) = true.
Proof. unfold date_char. now rewrite is_digit_mod10. Qed.

Lemma isoDate_chars t : all_chars date_char (isoDate t) = true.
Proof.
  unfold isoDate, isoYear, pad6, pad4, pad3, pad2.
  destruct ((0 <=? YearFromTime t) && (YearFromTime t <=? 9999));
    [|destruct (YearFromTime t <? 0)];
    cbn [String.append all_chars]; rewrite !date_char_mod10; reflexivity.
Qed.

Lemma all_chars_weaken (P Q : ascii -> bool) s :
  (forall c, P c = true -> Q c = true) -> all_chars P s = true -> all_chars Q s = true.
Proof.
  intros H. induction s as [|c s IH]; cbn; auto.
  rewrite !andb_true_iff. intros [H1 H2]. auto.
Qed.

Lemma split_isoString t : split_head "T" (isoString t) = isoDate t.
Proof.
  unfold isoString. apply split_head_app.
  apply (all_chars_weaken date_char); [|apply isoDate_chars].
  intros c H. destruct (Ascii.eqb_spec c "T"); [subst c; discriminate H | reflexivity].
Qed.

Lemma DayFromYear_bounds y : 0 <= y <= 10001 -> -720000 <= DayFromYear y <= 2934000.
Proof. unfold DayFromYear. lia. Qed.

Lemma isoDate_MakeDate y mn d :
  valid_md y mn d -> 0 <= y <= 9999 ->
  isoDate (MakeDate (MakeDay y mn d) 0) = iso_date (mkDate y (mn + 1) d).
Proof.
  intros V Hy.
  destruct (MakeDay_fields y mn d 0 V ltac:(unfold msPerDay; lia)) as [H1 [H2 H3]].
  unfold isoDate, iso_date, isoYear. rewrite H1, H2, H3. cbn [year month day].
  replace ((0 <=? y) && (y <=? 9999)) with true; [reflexivity|].
  symmetry. rewrite andb_true_iff, !Z.leb_le. lia.
Qed.

Lemma MakeDay_bounds y mn d :
  valid_md y mn d -> 0 <= y <= 10000 -> -720000 <= MakeDay y mn d <= 2935000.
Proof.
  intros V Hy. pose proof (MakeDay_year y mn d V) as E.
  pose proof (YearFromDay_spec (MakeDay y mn d)) as S. rewrite E in S.
  pose proof (DayFromYear_bounds y ltac:(lia)).
  pose proof (DayFromYear_bounds (y + 1) ltac:(lia)). lia.
Qed.

Lemma TimeClip_day n : -100000000 <= n <= 100000000 -> TimeClip (MakeDate n 0) = Some (MakeDate n 0).
Proof.
  intros H. unfold TimeClip, MakeDate, msPerDay.
  replace (Z.abs (n * 86400000 + 0) <=? 8640000000000000) with true; [reflexivity|].
  symmetry. apply Z.leb_le. lia.
Qed.

Lemma is_date_valid c : is_date c -> valid_md (year c) (month c - 1) (day c).
Proof. intros [H1 H2]. split; [lia | exact H2]. Qed.

Lemma finish_date n :
  -100000000 <= n <= 100000000 ->
  (iso <- toISOString (TimeClip (MakeDate n 0)) ;; Ok (split_head "T" iso))
  = Ok (isoDate (MakeDate n 0)).
Proof.
  intros H. rewrite TimeClip_day by exact H. cbn. now rewrite split_isoString.
Qed.

Lemma local_fields env c :
  is_date c -> 0 <= tza env < msPerDay ->
  let t := LocalTime (tza env) (MakeDate (day_number c) 0) in
  YearFromTime t = year c /\ MonthFromTime t = month c - 1 /\ DateFromTime t = day c
  /\ TimeWithinDay t = tza env.
Proof.
  intros D Hz t.
  assert (E : t = MakeDate (day_number c) (tza env)) by (subst t; unfold LocalTime, MakeDate; lia).
  rewrite E.
  destruct (MakeDay_fields (year c) (month c - 1) (day c) (tza env) (is_date_valid c D) Hz)
    as [H1 [H2 H3]].
  repeat split; auto. apply (Day_MakeDate _ _ Hz).
Qed.

Lemma weekly_year n y :
  0 <= y <= 9998 -> DayFromYear y <= n < DayFromYear (y + 1) ->
  0 <= YearFromDay (n + 7) <= 9999.
Proof.
  intros Hy Hn. pose proof (YearFromDay_spec (n + 7)) as S.
  pose proof (DayFromYear_succ (y + 1)) as S1.
  assert (365 <= DaysInYear (y + 1)) by (unfold DaysInYear; destruct (isLeap _); lia).
  split.
  - destruct (Z.le_gt_cases 0 (YearFromDay (n + 7))); auto.
    pose proof (DayFromYear_mono (YearFromDay (n + 7) + 1) y ltac:(lia)). lia.
  - destruct (Z.le_gt_cases (YearFromDay (n + 7)) 9999); auto.
    pose proof (DayFromYear_mono (y + 1 + 1) (YearFromDay (n + 7)) ltac:(lia)). lia.
Qed.

Lemma MakeDay_december y d : MakeDay y 12 d = MakeDay (y + 1) 0 d.
Proof.
  unfold MakeDay. change (12 / 12) with 1. change (12 mod 12) with 0.
  change (0 / 12) with 0. change (0 mod 12) with 0.
  replace (y + 1 + 0) with (y + 1) by lia. reflexivity.
Qed.

Lemma next_due_date env c f :
  is_date c -> 0 <= year c <= 9998 -> is_date (plus_period f c) ->
  0 <= tza env < msPerDay ->
  calculateNextDueDate env (iso_date c) f = Ok (iso_date (plus_period f c)).
Proof.
  intros D Hy D' Hz.
  destruct (local_fields env c D Hz) as [LY [LM [LD LT]]].
  pose proof (MakeDay_bounds _ _ _ (is_date_valid c D) ltac:(lia)) as B.
  unfold calculateNextDueDate, new_of_string.
  rewrite (parse_iso_date c D ltac:(lia)).
  destruct f; cbn [getDate getMonth getFullYear plus setDate setMonth setFullYear option_map];
    rewrite LY, LM, LD, LT.
  - (* Weekly *)
    replace (UTC (tza env) (MakeDate (MakeDay (year c) (month c - 1) (day c + 7)) (tza env)))
      with (MakeDate (day_number c + 7) 0)
      by (unfold UTC, MakeDate, day_number, MakeDay; lia).
    rewrite finish_date by (unfold day_number; lia).
    f_equal. cbn [plus_period]. unfold isoDate, iso_date, date_of_day, isoYear.
    cbn [year month day].
    replace ((0 <=? YearFromTime (MakeDate (day_number c + 7) 0))
             && (YearFromTime (MakeDate (day_number c + 7) 0) <=? 9999)) with true;
      [reflexivity|].
    symmetry. rewrite andb_true_iff, !Z.leb_le.
    unfold YearFromTime. rewrite (proj1 (Day_MakeDate _ 0 ltac:(unfold msPerDay; lia))).
    apply (weekly_year _ (year c) Hy).
    pose proof (MakeDay_year _ _ _ (is_date_valid c D)) as E.
    pose proof (YearFromDay_spec (day_number c)) as S.
    unfold day_number in *. now rewrite E in S.
  - (* Monthly *)
    cbn [plus_period] in *.
    replace (UTC (tza env) (MakeDate (MakeDay (year c) (month c - 1 + 1) (day c)) (tza env)))
      with (MakeDate (MakeDay (year c) (month c - 1 + 1) (day c)) 0)
      by (unfold UTC, MakeDate; lia).
    destruct (Z.eqb_spec (month c) 12) as [E|E].
    + replace (MakeDay (year c) (month c - 1 + 1) (day c)) with (MakeDay (year c + 1) (1 - 1) (day c))
        by (rewrite E; symmetry; apply MakeDay_december).
      pose proof (is_date_valid _ D') as V. cbn [year month day] in V.
      rewrite finish_date by (pose proof (MakeDay_bounds _ _ _ V ltac:(lia)); lia).
      f_equal. now rewrite isoDate_MakeDate by (auto; lia).
    + replace (MakeDay (year c) (month c - 1 + 1) (day c))
        with (MakeDay (year c) (month c + 1 - 1) (day c)) by (f_equal; lia).
      pose proof (is_date_valid _ D') as V. cbn [year month day] in V.
      rewrite finish_date by (pose proof (MakeDay_bounds _ _ _ V ltac:(lia)); lia).
      f_equal. rewrite isoDate_MakeDate by (auto; lia).
      now replace (month c + 1 - 1 + 1) with (month c + 1) by lia.
  - (* Annually *)
    cbn [plus_period] in *.
    replace (UTC (tza env) (MakeDate (MakeDay (year c + 1) (month c - 1) (day c)) (tza env)))
      with (MakeDate (MakeDay (year c + 1) (month c - 1) (day c)) 0)
      by (unfold UTC, MakeDate; lia).
    pose proof (is_date_valid _ D') as V. cbn [year month day] in V.
    rewrite finish_date by (pose proof (MakeDay_bounds _ _ _ V ltac:(lia)); lia).
    f_equal. rewrite isoDate_MakeDate by (auto; lia).
    now replace (month c - 1 + 1) with (month c) by lia.
Qed.

End Calendar.

(** ** Adding a donation (C2) *)

(** On a host five hours west of UTC a monthly donation of 1 March is
    due again on 30 March. *)
Lemma west_of_UTC_the_month_is_short :
  calculateNextDueDate host_UTC_minus_5 "2024-03-01" Monthly = Ok "2024-03-30".
Proof. vm_compute. reflexivity. Qed.

(** So the next due date is not, as the specification has it, the start
    date plus one period, even where that date exists. *)
Lemma next_due_date_is_not_one_period_later : ~ profile_due_one_period_later.
Proof.
  intros H.
  destruct (H host_UTC_minus_5 store_with_D1 (donation_monthly "2024-03-01") Monthly
              (mkDate 2024 3 1)) as [p [H1 H2]].
  - exists donorD1. split; [left|]; reflexivity.
  - reflexivity.
  - unfold is_date; cbn; lia.
  - cbn; lia.
  - unfold is_date; cbn; lia.
  - reflexivity.
  - vm_compute in H1. injection H1 as H1. subst p. vm_compute in H2. discriminate H2.
Qed.

(** A start date that is no date rejects the promise of [recurring.add]:
    no profile is stored. *)
Lemma no_profile_without_date :
  recurringProfiles (fst (donations_add host0 (donation_monthly "") store_with_D1)) = [].
Proof. vm_compute. reflexivity. Qed.

(** C2, the defect at work.  On a host five hours west of UTC the monthly
    donation of 1 March 2024 stores one profile, due on 30 March 2024,
    although 1 April, one month after the start, is a date of the
    calendar; at UTC the monthly donation of 31 January 2024 stores a
    profile due on 2 March 2024. *)
Theorem C2_next_due_date_misses_the_period :
  recurringProfiles
    (fst (donations_add host_UTC_minus_5 (donation_monthly "2024-03-01") store_with_D1))
  = [RecurringProfile.mk "rec-1700000000123" "D1" 100 Monthly "2024-03-01"
       "2024-03-30" Active Zakat None Online]
  /\ iso_date (plus_period Monthly (mkDate 2024 3 1)) = "2024-04-01"
  /\ is_date (plus_period Monthly (mkDate 2024 3 1))
  /\ recurringProfiles
       (fst (donations_add host0 (donation_monthly "2024-01-31") store_with_D1))
     = [RecurringProfile.mk "rec-1700000000123" "D1" 100 Monthly "2024-01-31"
          "2024-03-02" Active Zakat None Online].
Proof.
  split; [vm_compute; reflexivity|].
  split; [vm_compute; reflexivity|].
  split; [unfold is_date; cbn; lia|].
  vm_compute; reflexivity.
Qed.

(** What [donations.add] does: it appends the donation, appends the entry
    [{date, amount, receiptId}] to the history of every donor with the
    donation's [donorId] and leaves the other donors alone, puts one receipt
    item, Ready to Send and naming the donation, at the head of the outbox,
    and stores no profile when [recurring] is None.  When [recurring] is a
    frequency, the date is a calendar date written [YYYY-MM-DD], the date
    one period later exists in the calendar (the same day of the next month
    or year, or seven days later) and local time is UTC or east of it, it
    appends exactly one Active profile whose [nextDueDate] is that date.
    Nothing else in the store changes. *)
Lemma donations_add_fans_out :
  forall (env : Env) (data : Donation.t) (s : State),
    let s' := fst (donations_add env data s) in
    donations s' = donations s ++ [data]
    /\ length (donors s') = length (donors s)
    /\ (forall n d, nth_error (donors s) n = Some d ->
          nth_error (donors s') n
          = Some (if String.eqb (Donor.id d) (Donation.donorId data)
                  then Donor.with_donationHistory d
                         (Donor.donationHistory d ++
                          [DonationHistory.mk (Donation.date data) (Donation.amount data)
                             (Donation.id data)])
                  else d))
    /\ outbox s'
       = OutboxItem.mk ("outbox-" +++ Date_now env) ReadyToSend (now_iso env) None None
           (OutboxItem.receipt (Donation.id data)) :: outbox s
    /\ (Donation.recurring data = NoRecurring ->
          recurringProfiles s' = recurringProfiles s)
    /\ (forall f c,
          Donation.recurring data = Recurs f ->
          Donation.date data = iso_date c ->
          is_date c -> 0 <= year c <= 9998 ->
          is_date (plus_period f c) ->
          0 <= tza env < JSDate.msPerDay ->
          recurringProfiles s'
          = recurringProfiles s ++
            [RecurringProfile.mk ("rec-" +++ Date_now env) (Donation.donorId data)
               (Donation.amount data) f (Donation.date data)
               (iso_date (plus_period f c)) Active (Donation.purpose data)
               (Donation.customPurpose data) (Donation.method data)])
    /\ pledges s' = pledges s /\ users s' = users s /\ roles s' = roles s
    /\ settings s' = settings s /\ communicationQueue s' = communicationQueue s
    /\ tags s' = tags s /\ backups s' = backups s.
Proof.
  intros env data s s'. subst s'. unfold donations_add.
  assert (R : forall st,
             exists ps,
               (match Donation.recurring data with
                | Recurs f => fst (recurring_add env (profile_of_donation data f) st)
                | NoRecurring => st
                end) = setRecurringProfiles (fun _ => ps) st).
  { intros st. destruct (Donation.recurring data) as [|f].
    - exists (recurringProfiles st). now destruct st.
    - unfold recurring_add. destruct (calculateNextDueDate _ _ _).
      + eexists. reflexivity.
      + exists (recurringProfiles st). now destruct st. }
  cbn [fst].
  match goal with
  | |- context [match Donation.recurring data with Recurs f => _ | NoRecurring => ?st end] =>
      destruct (R st) as [ps E]
  end.
  repeat split; try (rewrite E; reflexivity).
  - rewrite E. cbn. apply length_map.
  - intros n d H. rewrite E. cbn. now rewrite nth_error_map, H.
  - intros N. now rewrite N.
  - intros f c F Hd D Hy D' Hz. rewrite F. unfold recurring_add, profile_of_donation.
    cbn [RecurringProfile.startDate RecurringProfile.frequency].
    rewrite Hd, (next_due_date env c f D Hy D' Hz). reflexivity.
Qed.

(** On the scenario of the specification and on a monthly donation of 15
    January. *)
Lemma donations_add_fans_out_witness :
  nth_error (donors (fst (donations_add host0 donationR1 store_with_D1))) 0
  = Some (Donor.with_donationHistory donorD1 [DonationHistory.mk "2024-01-01" 100 "R1"])
  /\ recurringProfiles (fst (donations_add host0 donationR1 store_with_D1)) = []
  /\ recurringProfiles (fst (donations_add host0 (donation_monthly "2024-01-15") store_with_D1))
     = [RecurringProfile.mk "rec-1700000000123" "D1" 100 Monthly "2024-01-15"
          "2024-02-15" Active Zakat None Online].
Proof.
  split; [|split].
  - apply (proj1 (proj2 (proj2 (donations_add_fans_out host0 donationR1 store_with_D1)))
             0%nat donorD1).
    reflexivity.
  - apply (proj1 (proj2 (proj2 (proj2 (proj2
             (donations_add_fans_out host0 donationR1 store_with_D1)))))).
    reflexivity.
  - apply (proj1 (proj2 (proj2 (proj2 (proj2 (proj2
             (donations_add_fans_out host0 (donation_monthly "2024-01-15")
                store_with_D1))))))
             Monthly (mkDate 2024 1 15)).
    + reflexivity.
    + reflexivity.
    + unfold is_date; cbn; lia.
    + cbn; lia.
    + unfold is_date; cbn; lia.
    + cbn; unfold JSDate.msPerDay; lia.
Defined.

(** ** [JSON.parse] reads back what [JSON.stringify] writes *)

(** *** Numerals *)

Lemma digits_fuel_all (f : nat) : forall n acc,
  all_chars is_digit (digits_fuel f n acc) = all_chars is_digit acc.
Proof.
  induction f as [|f IH]; intros n acc; cbn; [reflexivity|].
  destruct (n <? 10); [|rewrite IH]; cbn; now rewrite is_digit_mod10.
Qed.

Lemma digit_val_mod10 n : digit_val (digit (n mod 10)) = Some (n mod 10).
Proof. apply digit_val_digit. lia. Qed.

Lemma digits_fuel_value (f : nat) : forall n acc,
  0 <= n < 10 ^ Z.of_nat f ->
  digits_value (digits_fuel f n acc) 0 = digits_value acc n.
Proof.
  induction f as [|f IH]; intros n acc H.
  - cbn in *. now replace n with 0 by lia.
  - cbn [digits_fuel]. rewrite Nat2Z.inj_succ, Z.pow_succ_r in H by lia.
    specialize (IH (n / 10) (String (digit (n mod 10)) acc)).
    generalize dependent (10 ^ Z.of_nat f). intros P IH H.
    destruct (Z.ltb_spec n 10).
    + cbn [digits_value]. rewrite digit_val_mod10. f_equal. lia.
    + rewrite IH by lia. cbn [digits_value]. rewrite digit_val_mod10. f_equal. lia.
Qed.

Lemma digits_fuel_head (f : nat) : forall n acc,
  0 < n < 10 ^ Z.of_nat f ->
  exists c r, digits_fuel f n acc = String c r /\ Ascii.eqb c "0" = false
              /\ is_digit c = true.
Proof.
  induction f as [|f IH]; intros n acc H.
  - cbn in H. lia.
  - cbn [digits_fuel]. rewrite Nat2Z.inj_succ, Z.pow_succ_r in H by lia.
    specialize (IH (n / 10) (String (digit (n mod 10)) acc)).
    generalize dependent (10 ^ Z.of_nat f). intros P IH H.
    destruct (Z.ltb_spec n 10).
    + exists (digit (n mod 10)), acc. split; [reflexivity|]. split; [|apply is_digit_mod10].
      assert (n = 1 \/ n = 2 \/ n = 3 \/ n = 4 \/ n = 5 \/ n = 6 \/ n = 7 \/ n = 8 \/ n = 9) as C by lia.
      repeat (destruct C as [C|C]; [subst n; reflexivity|]). subst n; reflexivity.
    + apply IH. lia.
Qed.

Lemma fuel_enough n : 0 <= n -> n < 10 ^ Z.of_nat (S (Z.to_nat (Z.log2 n))).
Proof.
  intros H. rewrite Nat2Z.inj_succ, Z2Nat.id by apply Z.log2_nonneg.
  destruct (Z.eq_dec n 0) as [->|N]; [cbn; lia|].
  pose proof (Z.log2_spec n ltac:(lia)) as [_ L].
  pose proof (Z.log2_nonneg n).
  pose proof (Z.pow_le_mono_l 2 10 (Z.succ (Z.log2 n)) ltac:(lia)). lia.
Qed.

Lemma digits_all n : all_chars is_digit (digits n) = true.
Proof. unfold digits. now rewrite digits_fuel_all. Qed.

Lemma digits_value_digits n : 0 <= n -> digits_value (digits n) 0 = n.
Proof.
  intros H. unfold digits. rewrite digits_fuel_value by (split; [lia | now apply fuel_enough]).
  reflexivity.
Qed.

Lemma digits_head n : 0 <= n ->
  exists c r, digits n = String c r /\ is_digit c = true /\ int_part_ok (digits n) = true.
Proof.
  intros H. destruct (Z.eq_dec n 0) as [->|N].
  - exists "0"%char, "". repeat split.
  - destruct (digits_fuel_head (S (Z.to_nat (Z.log2 n))) n ""
                ltac:(split; [lia | now apply fuel_enough])) as [c [r [E [Z D]]]].
    exists c, r. unfold digits. rewrite E. repeat split; auto.
    cbn. destruct r; [reflexivity|]. now rewrite Z.
Qed.

Lemma span_digits_app a k :
  all_chars is_digit a = true -> starts_digit k = false ->
  span_digits (a +++ k) = (a, k).
Proof.
  induction a as [|c a IH]; cbn; intros H K.
  - destruct k as [|c k]; [reflexivity|]. cbn in *. now rewrite K.
  - apply andb_true_iff in H. destruct H as [H1 H2]. now rewrite H1, IH.
Qed.

Lemma terminated_plain k :
  terminated k ->
  starts_digit k = false /\ parse_fraction k = Some ("", k) /\ parse_exponent k = Some ("", k).
Proof.
  destruct k as [|c k]; cbn; [auto|].
  intros [->| ->]; repeat split; reflexivity.
Qed.

Lemma parse_number_Z n k :
  terminated k -> parse_number (Z_to_string n +++ k) = Some (JNum n, k).
Proof.
  intros T. destruct (terminated_plain k T) as [K [F E]].
  unfold Z_to_string. destruct (Z.ltb_spec n 0).
  - unfold parse_number. cbn [String.append].
    rewrite span_digits_app by (auto using digits_all).
    destruct (digits_head (- n) ltac:(lia)) as [c [r [_ [_ I]]]]. rewrite I, F, E.
    rewrite digits_value_digits by lia. change (("-" =? "-")%string) with true. cbv iota. now rewrite Z.opp_involutive.
  - destruct (digits_head n ltac:(lia)) as [c [r [D [Dc I]]]].
    unfold parse_number.
    assert (S1 : (match digits n +++ k with
                  | String "-" r0 => ("-", r0)
                  | _ => ("", digits n +++ k)
                  end) = ("", digits n +++ k)).
    { rewrite D. cbn [String.append].
      destruct c as [[] [] [] [] [] [] [] []]; try reflexivity; discriminate Dc. }
    rewrite S1. rewrite span_digits_app by (auto using digits_all).
    rewrite I, F, E. rewrite digits_value_digits by lia. reflexivity.
Qed.

(** *** Strings *)

Lemma parse_quote_char (c : ascii) (r : string) :
  parse_chars (quote_char c r)
  = match parse_chars r with
    | Some (t, r') => Some (String c t, r')
    | None => None
    end.
Proof.
  destruct c as [[] [] [] [] [] [] [] []]; reflexivity.
Qed.

Lemma parse_quote_chars (s k : string) :
  parse_chars (quote_chars s (String dquote k)) = Some (s, k).
Proof.
  induction s as [|c s IH]; [reflexivity|].
  cbn [quote_chars]. now rewrite parse_quote_char, IH.
Qed.

(** *** Arrays and objects *)

Lemma JSON_induction (P : JSON -> Prop) :
  P JNull -> (forall b, P (JBool b)) -> (forall n, P (JNum n)) ->
  (forall lex, P (JDec lex)) -> (forall s, P (JStr s)) ->
  (forall l, Forall P l -> P (JArr l)) ->
  (forall ms, Forall (fun m => P (snd m)) ms -> P (JObj ms)) ->
  forall v, P v.
Proof.
  intros Hnull Hbool Hnum Hdec Hstr Harr Hobj.
  fix IH 1.
  intros [ | b | n | lex | s | l | ms];
    [apply Hnull | apply Hbool | apply Hnum | apply Hdec | apply Hstr | | ].
  - apply Harr. induction l as [|x l IHl]; constructor; [apply IH | exact IHl].
  - apply Hobj. induction ms as [|[k x] ms IHms]; constructor; [apply IH | exact IHms].
Qed.

Lemma len_app (a b : string) : String.length (a +++ b) = (String.length a + String.length b)%nat.
Proof. induction a as [|c a IH]; cbn; [reflexivity | now rewrite IH]. Qed.

Lemma len_indent lvl k : (String.length k <= String.length (indent lvl k))%nat.
Proof. induction lvl as [|n IH]; cbn; lia. Qed.

Lemma len_newline lvl k : (String.length k < String.length (newline lvl k))%nat.
Proof. unfold newline. cbn. pose proof (len_indent lvl k). lia. Qed.

Lemma len_quote_char c k : (String.length k < String.length (quote_char c k))%nat.
Proof.
  unfold quote_char.
  repeat match goal with |- context [if ?b then _ else _] => destruct b end; cbn; lia.
Qed.

Lemma len_quote_chars s k : (String.length k <= String.length (quote_chars s k))%nat.
Proof.
  induction s as [|c s IH]; cbn; [lia|].
  pose proof (len_quote_char c (quote_chars s k)). lia.
Qed.

Lemma len_quote s k : (String.length k < String.length (quote s k))%nat.
Proof. unfold quote. cbn. pose proof (len_quote_chars s (String dquote k)). cbn in *. lia. Qed.

Lemma len_skip_ws s : (String.length (skip_ws s) <= String.length s)%nat.
Proof.
  induction s as [|c s IH]; cbn; [lia|]. destruct (is_ws c); cbn; lia.
Qed.

Lemma len_pr : forall v lvl k, (String.length k <= String.length (pr lvl v k))%nat.
Proof.
  induction v as [ | b | n | lex | s | l IHl | ms IHms] using JSON_induction;
    intros lvl k.
  - cbn. lia.
  - destruct b; cbn; lia.
  - cbn [pr]. rewrite len_app. lia.
  - cbn [pr]. rewrite len_app. lia.
  - cbn [pr]. pose proof (len_quote s k). lia.
  - destruct l as [|x xs]; [cbn; lia|].
    cbn [pr]. inversion IHl as [|? ? Hx Hxs]; subst.
    assert (E : (String.length k <= String.length (pr_elems pr lvl k xs))%nat).
    { clear Hx IHl. induction xs as [|y ys IHys]; cbn [pr_elems].
      - pose proof (len_newline lvl (String "]" k)). cbn in *. lia.
      - inversion Hxs as [|? ? Hy Hys]; subst. specialize (IHys Hys).
        pose proof (Hy (S lvl) (pr_elems pr lvl k ys)).
        pose proof (len_newline (S lvl) (pr (S lvl) y (pr_elems pr lvl k ys))).
        cbn [String.length]. lia. }
    pose proof (Hx (S lvl) (pr_elems pr lvl k xs)).
    pose proof (len_newline (S lvl) (pr (S lvl) x (pr_elems pr lvl k xs))).
    cbn [String.length]. lia.
  - destruct ms as [|[key x] xs]; [cbn; lia|].
    cbn [pr]. inversion IHms as [|? ? Hx Hxs]; subst. cbn [snd] in Hx.
    assert (E : (String.length k <= String.length (pr_mems pr lvl k xs))%nat).
    { clear Hx IHms. induction xs as [|[ky y] ys IHys]; cbn [pr_mems].
      - pose proof (len_newline lvl (String "}" k)). cbn in *. lia.
      - inversion Hxs as [|? ? Hy Hys]; subst. specialize (IHys Hys). cbn [snd] in Hy.
        unfold pr_member.
        pose proof (Hy (S lvl) (pr_mems pr lvl k ys)).
        pose proof (len_quote ky (String ":" (String " " (pr (S lvl) y (pr_mems pr lvl k ys))))).
        pose proof (len_newline (S lvl) (quote ky (String ":" (String " " (pr (S lvl) y (pr_mems pr lvl k ys)))))).
        cbn [String.length] in *. lia. }
    unfold pr_member.
    pose proof (Hx (S lvl) (pr_mems pr lvl k xs)).
    pose proof (len_quote key (String ":" (String " " (pr (S lvl) x (pr_mems pr lvl k xs))))).
    pose proof (len_newline (S lvl) (quote key (String ":" (String " " (pr (S lvl) x (pr_mems pr lvl k xs)))))).
    cbn [String.length] in *. lia.
Qed.

Lemma value_start_plain c :
  value_start c = true ->
  is_ws c = false /\ Ascii.eqb c "]" = false /\ Ascii.eqb c "}" = false.
Proof.
  destruct c as [[] [] [] [] [] [] [] []]; intros H; vm_compute in H;
    try discriminate H; repeat split; reflexivity.
Qed.

Lemma skip_ws_start c t : value_start c = true -> skip_ws (String c t) = String c t.
Proof. intros H. cbn. now rewrite (proj1 (value_start_plain c H)). Qed.

Lemma skip_ws_indent lvl t : skip_ws (indent lvl t) = skip_ws t.
Proof. induction lvl as [|n IH]; [reflexivity | exact IH]. Qed.

Lemma skip_ws_newline lvl t : skip_ws (newline lvl t) = skip_ws t.
Proof. unfold newline. cbn [skip_ws]. change (is_ws nl) with true. cbv iota. apply skip_ws_indent. Qed.

Lemma Z_to_string_head n :
  exists c r, Z_to_string n = String c r /\ (c = "-"%char \/ is_digit c = true).
Proof.
  unfold Z_to_string. destruct (Z.ltb_spec n 0).
  - eexists. eexists. split; [reflexivity | now left].
  - destruct (digits_head n ltac:(lia)) as [c [r [D [Dc _]]]].
    exists c, r. split; [exact D | now right].
Qed.

Lemma pr_start v lvl k :
  jwf v = true -> exists c t, pr lvl v k = String c t /\ value_start c = true.
Proof.
  destruct v as [ | [|] | n | lex | s | [|x xs] | [|[key x] ms]]; cbn [jwf pr]; intros W;
    try discriminate W;
    try (eexists; eexists; split; [reflexivity | reflexivity]).
  destruct (Z_to_string_head n) as [c [r [E H]]]. rewrite E. cbn [String.append].
  exists c, (r +++ k). split; [reflexivity|].
  unfold value_start. destruct H as [->|H]; [reflexivity | now rewrite H].
Qed.

Lemma skip_ws_pr v lvl k : jwf v = true -> skip_ws (pr lvl v k) = pr lvl v k.
Proof.
  intros W. destruct (pr_start v lvl k W) as [c [t [E H]]]. rewrite E.
  now apply skip_ws_start.
Qed.

Lemma parse_value_number (f : nat) (c : ascii) (r : string) :
  c = "-"%char \/ is_digit c = true ->
  parse_value (S f) (String c r) = parse_number (String c r).
Proof.
  destruct c as [[] [] [] [] [] [] [] []]; intros [H|H];
    try discriminate H; try (vm_compute in H; discriminate H); reflexivity.
Qed.

Lemma terminated_elems (p : nat -> JSON -> string -> string) lvl k xs :
  terminated (pr_elems p lvl k xs).
Proof. destruct xs; cbn; auto. Qed.

Lemma terminated_mems (p : nat -> JSON -> string -> string) lvl k xs :
  terminated (pr_mems p lvl k xs).
Proof. destruct xs as [|[key x] xs]; cbn; auto. Qed.

Lemma parse_elems_pr xs :
  Forall reads_back xs -> forallb jwf xs = true ->
  forall lvl k fuel,
    (String.length (pr_elems pr lvl k xs) < fuel)%nat ->
    parse_elems fuel (pr_elems pr lvl k xs) = Some (xs, k).
Proof.
  induction xs as [|y ys IH]; intros R W lvl k fuel L;
    (destruct fuel as [|f]; [lia|]); cbn [pr_elems] in *.
  - cbn [parse_elems]. rewrite skip_ws_newline. reflexivity.
  - inversion R as [|? ? Ry Rys]; subst.
    cbn [forallb] in W. apply andb_true_iff in W. destruct W as [Wy Wys].
    cbn [parse_elems skip_ws]. change (is_ws ",") with false. cbv iota.
    pose proof (len_newline (S lvl) (pr (S lvl) y (pr_elems pr lvl k ys))) as L1.
    pose proof (len_pr y (S lvl) (pr_elems pr lvl k ys)) as L2.
    cbn [String.length] in L.
    rewrite (Ry (S lvl) (pr_elems pr lvl k ys) f);
      [ | rewrite skip_ws_newline; now apply skip_ws_pr
        | apply terminated_elems | lia ].
    rewrite IH by (auto; lia). reflexivity.
Qed.

Lemma parse_member_pr key x rest lvl f :
  reads_back x -> jwf x = true -> terminated rest ->
  (String.length (newline (S lvl) (pr_member pr lvl key x rest)) < f)%nat ->
  parse_member (parse_value f) (newline (S lvl) (pr_member pr lvl key x rest))
  = Some ((key, x), rest).
Proof.
  intros R W T L. unfold parse_member. rewrite skip_ws_newline.
  unfold pr_member at 1. unfold quote at 1. cbn [skip_ws].
  change (is_ws dquote) with false. cbv iota.
  rewrite Ascii.eqb_refl, parse_quote_chars.
  cbn [skip_ws]. change (is_ws ":") with false. cbv iota.
  pose proof (len_newline (S lvl) (pr_member pr lvl key x rest)) as L1.
  pose proof (len_quote key (String ":" (String " " (pr (S lvl) x rest)))) as L2.
  unfold pr_member in L1, L. cbn [String.length] in L2.
  rewrite (R (S lvl) rest f); [reflexivity | | exact T | cbn [String.length]; lia].
  cbn [skip_ws]. change (is_ws " ") with true. cbv iota. now apply skip_ws_pr.
Qed.

Lemma parse_mems_pr xs :
  Forall (fun m => reads_back (snd m)) xs -> forallb (fun m => jwf (snd m)) xs = true ->
  forall lvl k fuel,
    (String.length (pr_mems pr lvl k xs) < fuel)%nat ->
    parse_mems fuel (pr_mems pr lvl k xs) = Some (xs, k).
Proof.
  induction xs as [|[key y] ys IH]; intros R W lvl k fuel L;
    (destruct fuel as [|f]; [lia|]); cbn [pr_mems] in *.
  - cbn [parse_mems]. rewrite skip_ws_newline. reflexivity.
  - inversion R as [|? ? Ry Rys]; subst. cbn [snd] in Ry.
    cbn [forallb snd] in W. apply andb_true_iff in W. destruct W as [Wy Wys].
    cbn [parse_mems skip_ws]. change (is_ws ",") with false. cbv iota.
    pose proof (len_newline (S lvl) (pr_member pr lvl key y (pr_mems pr lvl k ys))) as L1.
    pose proof (len_quote key (String ":" (String " " (pr (S lvl) y (pr_mems pr lvl k ys))))) as L2.
    pose proof (len_pr y (S lvl) (pr_mems pr lvl k ys)) as L3.
    cbn [String.length] in L, L2.
    rewrite parse_member_pr by (auto using terminated_mems; lia).
    unfold pr_member in L1, L.
    rewrite IH by (auto; lia). reflexivity.
Qed.

Lemma parse_value_pr : forall v, jwf v = true -> reads_back v.
Proof.
  induction v as [ | b | n | lex | s | l IHl | ms IHms] using JSON_induction;
    intros W lvl k fuel s0 E T L; (destruct fuel as [|f]; [lia|]).
  - cbn [parse_value]. rewrite E. reflexivity.
  - cbn [parse_value]. rewrite E. destruct b; reflexivity.
  - destruct (Z_to_string_head n) as [c [r [Ec H]]].
    assert (E' : skip_ws s0 = String c (r +++ k)) by (rewrite E; cbn [pr]; now rewrite Ec).
    assert (P : parse_value (S f) s0 = parse_value (S f) (String c (r +++ k))).
    { cbn [parse_value]. rewrite E'. rewrite skip_ws_start; [reflexivity|].
      unfold value_start. destruct H as [->|H]; [reflexivity | now rewrite H]. }
    rewrite P, (parse_value_number f c _ H).
    change (String c (r +++ k)) with (String c r +++ k). rewrite <- Ec.
    now apply parse_number_Z.
  - discriminate W.
  - cbn [parse_value]. rewrite E. cbn [pr]. unfold quote.
    change (Ascii.eqb dquote dquote) with true.
    cbv iota. cbn match. rewrite parse_quote_chars. reflexivity.
  - cbn [jwf] in W. destruct l as [|x xs].
    + cbn [parse_value]. rewrite E. reflexivity.
    + inversion IHl as [|? ? Hx Hxs]; subst.
      cbn [forallb] in W. apply andb_true_iff in W. destruct W as [Wx Wxs].
      pose proof (len_skip_ws s0) as L0. rewrite E in L0. cbn [pr String.length] in L0.
      pose proof (len_newline (S lvl) (pr (S lvl) x (pr_elems pr lvl k xs))) as L1.
      pose proof (len_pr x (S lvl) (pr_elems pr lvl k xs)) as L2.
      cbn [parse_value]. rewrite E. cbn [pr]. cbv iota. cbn match.
      rewrite skip_ws_newline, skip_ws_pr by exact Wx.
      destruct (pr_start x (S lvl) (pr_elems pr lvl k xs) Wx) as [c [t [Ec Hc]]].
      rewrite Ec at 1. rewrite (proj1 (proj2 (value_start_plain c Hc))).
      rewrite (Hx Wx (S lvl) (pr_elems pr lvl k xs) f);
        [ | rewrite skip_ws_newline; now apply skip_ws_pr
          | apply terminated_elems | lia ].
      rewrite parse_elems_pr; [reflexivity | | exact Wxs | lia].
      clear -Hxs Wxs. induction xs as [|y ys IH]; constructor.
      * inversion Hxs; subst. cbn in Wxs. apply andb_true_iff in Wxs. tauto.
      * inversion Hxs; subst. cbn in Wxs. apply andb_true_iff in Wxs. apply IH; tauto.
  - cbn [jwf] in W. destruct ms as [|[key x] xs].
    + cbn [parse_value]. rewrite E. reflexivity.
    + inversion IHms as [|? ? Hx Hxs]; subst. cbn [snd] in Hx.
      cbn [forallb snd] in W. apply andb_true_iff in W. destruct W as [Wx Wxs].
      pose proof (len_skip_ws s0) as L0. rewrite E in L0. cbn [pr String.length] in L0.
      cbn [parse_value]. rewrite E. cbn [pr]. cbv iota. cbn match.
      rewrite skip_ws_newline. unfold pr_member at 1. unfold quote at 1.
      cbn [skip_ws]. change (is_ws dquote) with false. cbv iota.
      change (Ascii.eqb dquote "}") with false. cbv iota.
      rewrite parse_member_pr; [ | exact (Hx Wx) | exact Wx | apply terminated_mems | lia ].
      pose proof (len_newline (S lvl) (pr_member pr lvl key x (pr_mems pr lvl k xs))) as L1.
      pose proof (len_quote key (String ":" (String " " (pr (S lvl) x (pr_mems pr lvl k xs))))) as L2.
      pose proof (len_pr x (S lvl) (pr_mems pr lvl k xs)) as L3.
      unfold pr_member in L1, L0. cbn [String.length] in L2.
      rewrite parse_mems_pr; [reflexivity | | exact Wxs | lia].
      clear -Hxs Wxs. induction xs as [|[ky y] ys IH]; constructor.
      * inversion Hxs; subst. cbn in Wxs. apply andb_true_iff in Wxs. cbn in *. tauto.
      * inversion Hxs; subst. cbn in Wxs. apply andb_true_iff in Wxs. apply IH; tauto.
Qed.

Theorem parse_stringify (v : JSON) :
  jwf v = true -> Json.parse (stringify v) = Some v.
Proof.
  intros W. unfold Json.parse, stringify.
  rewrite (parse_value_pr v W 0%nat "" (S (String.length (pr 0 v ""))) (pr 0 v ""));
    [reflexivity | now apply skip_ws_pr | exact I | lia].
Qed.

(** ** The codecs read back what they write *)

#[export] Instance Lawful_string : Lawful string.
Proof. split; reflexivity. Qed.
#[export] Instance Lawful_Z : Lawful Z.
Proof. split; reflexivity. Qed.
#[export] Instance Lawful_bool : Lawful bool.
Proof. split; reflexivity. Qed.

#[export] Instance Lawful_list (A : Type) `{Lawful A} : Lawful (list A).
Proof.
  split; intros l; cbn.
  - induction l as [|x l IH]; cbn; [reflexivity|]. now rewrite roundtrip, IH.
  - induction l as [|x l IH]; cbn; [reflexivity|]. now rewrite wf, IH.
Qed.

Ltac enum := split; intros []; reflexivity.

#[export] Instance Lawful_OutboxStatus : Lawful OutboxStatus. Proof. enum. Qed.
#[export] Instance Lawful_Method : Lawful Method. Proof. enum. Qed.
#[export] Instance Lawful_DonationPurpose : Lawful DonationPurpose. Proof. enum. Qed.
#[export] Instance Lawful_Frequency : Lawful Frequency. Proof. enum. Qed.
#[export] Instance Lawful_RecurringDonation : Lawful RecurringDonation.
Proof. split; intros [|[]]; reflexivity. Qed.
#[export] Instance Lawful_PledgeStatus : Lawful PledgeStatus. Proof. enum. Qed.
#[export] Instance Lawful_ProfileStatus : Lawful ProfileStatus. Proof. enum. Qed.
#[export] Instance Lawful_UserStatus : Lawful UserStatus. Proof. enum. Qed.
#[export] Instance Lawful_Channel : Lawful Channel. Proof. enum. Qed.
#[export] Instance Lawful_LogChannel : Lawful LogChannel. Proof. enum. Qed.
#[export] Instance Lawful_QueueStatus : Lawful QueueStatus. Proof. enum. Qed.
#[export] Instance Lawful_TemplateType : Lawful TemplateType. Proof. enum. Qed.
#[export] Instance Lawful_Permission : Lawful Permission. Proof. enum. Qed.

Ltac compute_members :=
  lazy beta iota zeta delta
    -[fromJSON toJSON jwf Codec_string Codec_Z Codec_bool Codec_list
      Codec_OutboxStatus Codec_Method Codec_DonationPurpose Codec_Frequency
      Codec_RecurringDonation Codec_PledgeStatus Codec_ProfileStatus
      Codec_UserStatus Codec_Channel Codec_LogChannel Codec_QueueStatus
      Codec_TemplateType Codec_Permission Codec_DonationHistory
      Codec_CommunicationLog Codec_Contact Codec_Tag Codec_Donor Codec_Donation
      Codec_PledgeTask Codec_Pledge Codec_RecurringProfile Codec_Role Codec_User
      Codec_CommunicationTemplate Codec_OrganizationSettings Codec_OutboxItem
      Codec_QueuedCommunication].

Ltac destruct_record x :=
  destruct x; repeat match goal with o : option _ |- _ => destruct o end.

Ltac record_laws from to :=
  split; intros x;
  [ change (from (to x) = Some x); destruct_record x; unfold from, to;
    compute_members; rewrite ?roundtrip; reflexivity
  | change (jwf (to x) = true); destruct_record x; unfold to;
    compute_members; cbn [jwf forallb snd]; rewrite ?wf; reflexivity ].

#[export] Instance Lawful_DonationHistory : Lawful DonationHistory.t.
Proof. record_laws DonationHistory.from DonationHistory.to. Qed.
#[export] Instance Lawful_CommunicationLog : Lawful CommunicationLog.t.
Proof. record_laws CommunicationLog.from CommunicationLog.to. Qed.
#[export] Instance Lawful_Contact : Lawful Contact.t.
Proof. record_laws Contact.from Contact.to. Qed.
#[export] Instance Lawful_Tag : Lawful Tag.t.
Proof. record_laws Tag.from Tag.to. Qed.
#[export] Instance Lawful_Donor : Lawful Donor.t.
Proof. record_laws Donor.from Donor.to. Qed.
#[export] Instance Lawful_Donation : Lawful Donation.t.
Proof. record_laws Donation.from Donation.to. Qed.
#[export] Instance Lawful_PledgeTask : Lawful PledgeTask.t.
Proof. record_laws PledgeTask.from PledgeTask.to. Qed.
#[export] Instance Lawful_Pledge : Lawful Pledge.t.
Proof. record_laws Pledge.from Pledge.to. Qed.
#[export] Instance Lawful_RecurringProfile : Lawful RecurringProfile.t.
Proof. record_laws RecurringProfile.from RecurringProfile.to. Qed.
#[export] Instance Lawful_Role : Lawful Role.t.
Proof. record_laws Role.from Role.to. Qed.
#[export] Instance Lawful_User : Lawful User.t.
Proof. record_laws User.from User.to. Qed.
#[export] Instance Lawful_CommunicationTemplate : Lawful CommunicationTemplate.t.
Proof. record_laws CommunicationTemplate.from CommunicationTemplate.to. Qed.
#[export] Instance Lawful_OrganizationSettings : Lawful OrganizationSettings.t.
Proof. record_laws OrganizationSettings.from OrganizationSettings.to. Qed.
#[export] Instance Lawful_QueuedCommunication : Lawful QueuedCommunication.t.
Proof. record_laws QueuedCommunication.from QueuedCommunication.to. Qed.
#[export] Instance Lawful_OutboxItem : Lawful OutboxItem.t.
Proof.
  split; intros x.
  - change (OutboxItem.from (OutboxItem.to x) = Some x).
    destruct x as [a b c d e [f|f g]]; destruct d, e;
      unfold OutboxItem.from, OutboxItem.to;
      compute_members; rewrite ?roundtrip; compute_members;
      rewrite ?roundtrip; reflexivity.
  - change (jwf (OutboxItem.to x) = true).
    destruct x as [a b c d e [f|f g]]; destruct d, e;
      unfold OutboxItem.to;
      compute_members; cbn [jwf forallb snd]; rewrite ?wf; reflexivity.
Qed.

(** ** The backup layer (C3, C6, C7, C8) *)


Lemma stateToBackup_wf (s : State) : jwf (stateToBackup (ofState s)) = true.
Proof.
  unfold stateToBackup, ofState. cbn [any_donors any_donations any_pledges
    any_recurringProfiles any_users any_roles any_settings any_outbox
    any_communicationQueue any_tags jwf forallb snd].
  now rewrite !wf.
Qed.

Lemma prop_field_of (v : JSON) (key : string) :
  v <> JNull -> prop v key = Ok (field_of v key).
Proof. destruct v; intros H; try reflexivity. now contradiction H. Qed.

(** What [restoreStateFromData] leaves in the store, for data other than
    [null]. *)
Lemma restoreStateFromData_value (v : JSON) (st : AnyStore) :
  v <> JNull ->
  restoreStateFromData v st
  = (Ok tt,
     mkAny (or_else (field_of v "donors") (JArr []))
       (or_else (field_of v "donations") (JArr []))
       (or_else (field_of v "pledges") (JArr []))
       (or_else (field_of v "recurringProfiles") (JArr []))
       (or_else (field_of v "users") (JArr []))
       (or_else (field_of v "roles") (JArr []))
       (or_else (field_of v "settings") (toJSON mockSettings))
       (or_else (field_of v "outbox") (JArr []))
       (or_else (field_of v "communicationQueue") (JArr []))
       (or_else (field_of v "tags") (JArr []))
       (any_backups st)).
Proof.
  intros H. unfold restoreStateFromData, restore_key, mbind, lift, modify.
  rewrite !(prop_field_of v _ H). reflexivity.
Qed.

Lemma restoreStateFromData_null (st : AnyStore) :
  restoreStateFromData JNull st = (Throw TypeError, st).
Proof. reflexivity. Qed.

Lemma step_keeps_backups (env : Env) (op : Op) (s : State) :
  backups (step env op s) = backups s.
Proof.
  destruct op; cbn; auto.
  - unfold donations_add. cbn. destruct (Donation.recurring data); cbn; auto.
    unfold recurring_add. destruct (calculateNextDueDate _ _ _); cbn; auto.
  - unfold recurring_add. destruct (calculateNextDueDate _ _ _); cbn; auto.
  - unfold roles_delete. destruct (is_system _); cbn; auto.
    destruct (existsb _ _); cbn; auto.
Qed.


(** The outcomes of [restore]: it throws and leaves the store as it
    was, or it finds the backup in the render, reads a value other than
    [null] from it and writes that value. *)
Lemma restore_outcome (shown : AnyStore) (backupId : string) (st : AnyStore) :
  (exists e, backups_restore shown backupId st = (Throw e, st))
  \/ (exists b v,
        find (fun b => String.eqb (Backup.id b) backupId) (any_backups shown) = Some b
        /\ Json.parse (Backup.data b) = Some v /\ v <> JNull
        /\ backups_restore shown backupId st = (Ok tt, snd (restoreStateFromData v st))
        /\ any_backups (snd (restoreStateFromData v st)) = any_backups st).
Proof.
  unfold backups_restore, mbind.
  destruct (find _ (any_backups shown)) as [b|] eqn:F; [|left; eexists; reflexivity].
  unfold JSON_parse. destruct (Json.parse (Backup.data b)) as [v|] eqn:P;
    [|left; eexists; reflexivity].
  unfold ret. destruct v.
  1: left; eexists; reflexivity.
  all: right; eexists b, _; split; [reflexivity|]; split; [exact P|];
    split; [discriminate|]; rewrite restoreStateFromData_value by discriminate;
    split; reflexivity.
Qed.

(** The text of a backup made of typed collections reads back as the
    collections. *)
Lemma newBackup_data (env : Env) (s : State) :
  Json.parse (Backup.data (newBackup env (ofState s))) = Some (stateToBackup (ofState s)).
Proof. apply parse_stringify, stateToBackup_wf. Qed.


(** Called through the actions of the render in which [create] was called,
    which does not list the new backup, [restore] throws. *)
Lemma restore_on_the_creating_render_throws (env : Env) (shown st : AnyStore) :
  find (fun b => String.eqb (Backup.id b) (Backup.id (newBackup env shown)))
    (any_backups shown) = None ->
  backups_restore shown (Backup.id (newBackup env shown))
    (snd (backups_create env shown st))
  = (Throw (Error "Backup not found"), snd (backups_create env shown st)).
Proof. intros F. unfold backups_restore. now rewrite F. Qed.



Lemma restoreFromFile_unparsed (text : string) (st : AnyStore) :
  Json.parse text = None ->
  backups_restoreFromFile text st
  = (Ok (mkResult false (Some "Failed to parse backup file.")), st).
Proof.
  intros P. unfold backups_restoreFromFile, try_catch, mbind, JSON_parse. now rewrite P.
Qed.

Lemma restoreFromFile_null (text : string) (st : AnyStore) :
  Json.parse text = Some JNull ->
  backups_restoreFromFile text st
  = (Ok (mkResult false (Some "Failed to parse backup file.")), st).
Proof.
  intros P. unfold backups_restoreFromFile, try_catch, mbind, JSON_parse. now rewrite P.
Qed.

Lemma restoreFromFile_value (text : string) (v : JSON) (st : AnyStore) :
  Json.parse text = Some v -> v <> JNull ->
  backups_restoreFromFile text st
  = if truthy_opt (field_of v "donors") && truthy_opt (field_of v "donations")
    then (Ok (mkResult true None), snd (restoreStateFromData v st))
    else (Ok (mkResult false (Some "Invalid backup file format.")), st).
Proof.
  intros P N.
  unfold backups_restoreFromFile, try_catch, mbind, JSON_parse, lift. rewrite P.
  cbn [ret]. rewrite !(prop_field_of v _ N).
  destruct (truthy_opt (field_of v "donors")); cbn [negb andb]; [|reflexivity].
  destruct (truthy_opt (field_of v "donations")); cbn [negb]; [|reflexivity].
  rewrite (restoreStateFromData_value v st N). reflexivity.
Qed.

(** C6: a text that parses to a JSON object without a [donations] key, or
    without a [donors] key, makes [restoreFromFile] return
    [{success: false}] with the message of an invalid format, and the
    store, all its collections, is what it was. *)
Theorem C6_restoreFromFile_missing_key :
  forall (text : string) (ms : list (string * JSON)) (st : AnyStore),
    Json.parse text = Some (JObj ms) ->
    get ms "donations" = None \/ get ms "donors" = None ->
    backups_restoreFromFile text st
    = (Ok (mkResult false (Some "Invalid backup file format.")), st).
Proof.
  intros text ms st P H.
  rewrite (restoreFromFile_value text (JObj ms) st P ltac:(discriminate)).
  cbn [field_of]. destruct H as [H|H]; rewrite H; cbn [truthy_opt andb];
    [now rewrite andb_false_r | reflexivity].
Qed.

(** C6 at work: a file with donors but no donations. *)
Lemma C6_restoreFromFile_witness :
  backups_restoreFromFile file_without_donations store_one_backup
  = (Ok (mkResult false (Some "Invalid backup file format.")), store_one_backup).
Proof.
  apply (C6_restoreFromFile_missing_key file_without_donations [("donors", JArr [])]).
  - vm_compute. reflexivity.
  - left. reflexivity.
Defined.

(** C7, counterexample: the file [{donors: null, donations: []}] parses and
    has both keys, yet the restore reports a failure: the check is on the
    values, [!parsedData.donors], not on the keys. *)
Lemma C7_null_donors_rejected : ~ succeeds_iff_keys_present.
Proof.
  intros H.
  destruct (H file_with_null_donors store_one_backup) as [_ H2].
  assert (F : success_of (fst (backups_restoreFromFile file_with_null_donors store_one_backup))
              = true).
  { apply H2. exists [("donors", JNull); ("donations", JArr [])].
    split; [vm_compute; reflexivity|]. split; discriminate. }
  vm_compute in F. discriminate F.
Qed.

(** C7, as amended: [restoreFromFile] throws for no text.  It returns
    [{success: true}] exactly when the text parses as JSON and the [donors]
    and the [donations] of the parsed value are both truthy (present, and
    neither [null], [false], [0] nor the empty string); in every other
    case, a text that does not parse or parses to [null] included, it
    returns [{success: false}] with an error message and leaves the store
    as it was. *)
Theorem C7_restoreFromFile_never_throws :
  forall (text : string) (st : AnyStore),
  exists r st',
    backups_restoreFromFile text st = (Ok r, st')
    /\ (success r = true
        <-> exists v, Json.parse text = Some v
                      /\ truthy_opt (field_of v "donors") = true
                      /\ truthy_opt (field_of v "donations") = true)
    /\ (success r = false -> error r <> None /\ st' = st).
Proof.
  intros text st. destruct (Json.parse text) as [v|] eqn:P.
  - assert (D : v = JNull \/ v <> JNull) by (destruct v; ((left; reflexivity) || (right; discriminate))). destruct D as [->|N].
    + rewrite (restoreFromFile_null text st P). eexists. eexists.
      split; [reflexivity|]. cbn [success error]. split.
      * split; [discriminate|]. intros [v [E [H _]]]. injection E as <-. discriminate H.
      * intros _. split; [discriminate | reflexivity].
    + rewrite (restoreFromFile_value text v st P N).
      destruct (truthy_opt (field_of v "donors") && truthy_opt (field_of v "donations")) eqn:T.
      * eexists. eexists. split; [reflexivity|]. cbn [success error]. split.
        -- split; [|reflexivity]. intros _. exists v. apply andb_true_iff in T. tauto.
        -- discriminate.
      * eexists. eexists. split; [reflexivity|]. cbn [success error]. split.
        -- split; [discriminate|]. intros [v' [E [H1 H2]]]. injection E as <-.
           rewrite H1, H2 in T. discriminate T.
        -- intros _. split; [discriminate | reflexivity].
  - rewrite (restoreFromFile_unparsed text st P). eexists. eexists.
    split; [reflexivity|]. cbn [success error]. split.
    + split; [discriminate|]. intros [v [E _]]. discriminate E.
    + intros _. split; [discriminate | reflexivity].
Qed.

(** What [restore] writes, whatever the backup holds: the value parsed at
    the key of a collection, or, when that value is missing or falsy, the
    fallback of the collection. *)
Lemma restore_overwrites_or_defaults (shown : AnyStore) (backupId : string)
  (st : AnyStore) (b : Backup.t) (v : JSON) :
  find (fun b => String.eqb (Backup.id b) backupId) (any_backups shown) = Some b ->
  Json.parse (Backup.data b) = Some v -> v <> JNull ->
  exists st',
    backups_restore shown backupId st = (Ok tt, st')
    /\ any_backups st' = any_backups st
    /\ forall key collection fallback,
         In (key, collection, fallback) tracked ->
         collection st' = or_else (field_of v key) fallback.
Proof.
  intros F P N. unfold backups_restore, mbind. rewrite F.
  unfold JSON_parse. rewrite P. unfold ret.
  rewrite (restoreStateFromData_value v st N). eexists. split; [reflexivity|].
  split; [reflexivity|].
  intros key collection fallback H. unfold tracked in H.
  repeat (destruct H as [H|H]; [injection H as <- <- <-; reflexivity|]).
  destruct H.
Qed.

(** The typed reading of a store has the backups of the store. *)
Lemma asState_backups (a : AnyStore) (s : State) :
  asState a = Some s -> backups s = any_backups a.
Proof.
  unfold asState. intros H.
  repeat match type of H with
         | obind ?c _ = Some _ => destruct c; cbn [obind] in H; [|discriminate H]
         end.
  injection H as <-. reflexivity.
Qed.

Lemma restore_keeps_backups (shown : AnyStore) (backupId : string) (st : AnyStore) :
  any_backups (snd (backups_restore shown backupId st)) = any_backups st.
Proof.
  destruct (restore_outcome shown backupId st) as [[e E]|[b [v [_ [_ [_ [E B]]]]]]];
    rewrite E; [reflexivity | exact B].
Qed.

Lemma restoreFromFile_keeps_backups (text : string) (st : AnyStore) :
  any_backups (snd (backups_restoreFromFile text st)) = any_backups st.
Proof.
  destruct (Json.parse text) as [v|] eqn:P.
  - destruct v.
    1: now rewrite (restoreFromFile_null _ _ P).
    all: rewrite (restoreFromFile_value _ _ st P) by discriminate;
      destruct (truthy_opt _ && truthy_opt _); [|reflexivity];
      rewrite restoreStateFromData_value by discriminate; reflexivity.
  - now rewrite (restoreFromFile_unparsed _ _ P).
Qed.

(** Every backup of a store that the hook can be in was made by
    [create]. *)
Lemma reachable_backups_created (s : State) :
  reachable s -> forall b, In b (backups s) -> created b.
Proof.
  induction 1 as [s E|env op s R IH|env shown s Rs IHs R IH|backupId s R IH
                  |shown backupId s s' a Rs IHs R IH E A|text s s' r a R IH E A];
    intros b I.
  - rewrite E in I. destruct I.
  - rewrite step_keeps_backups in I. now apply IH.
  - cbn [backups setBackups] in I. destruct I as [<-|I]; [|now apply IH].
    exists env, shown. reflexivity.
  - cbn [backups setBackups] in I. apply filter_In in I. now apply IH.
  - rewrite (asState_backups a s' A) in I.
    pose proof (restore_keeps_backups (ofState shown) backupId (ofState s)) as K.
    rewrite E in K. cbn [snd] in K. rewrite K in I. now apply IH.
  - rewrite (asState_backups a s' A) in I.
    pose proof (restoreFromFile_keeps_backups text (ofState s)) as K.
    rewrite E in K. cbn [snd] in K. rewrite K in I. now apply IH.
Qed.

(** The ten keys are in the text of a backup made by [create], each with
    the collection backed up. *)
Lemma created_fields (s : State) (key : string) (collection : AnyStore -> JSON)
  (fallback : JSON) :
  In (key, collection, fallback) tracked ->
  field_of (stateToBackup (ofState s)) key = Some (collection (ofState s))
  /\ or_else (Some (collection (ofState s))) fallback = collection (ofState s).
Proof.
  intros H. unfold tracked in H.
  repeat (destruct H as [H|H];
          [injection H as <- <- <-; split; [reflexivity|];
           cbn [or_else ofState any_donors any_donations any_pledges
                any_recurringProfiles any_users any_roles any_settings any_outbox
                any_communicationQueue any_tags];
           try reflexivity|]).
  destruct H.
Qed.

(** C8: [restore(backupId)], called through the actions of a render
    [shown], throws [Backup not found] and leaves the store as it was when
    the render lists no backup with that id.  When it lists one, and
    [shown] is a store that the hook can be in, so that the backup was made
    by [create], the data of the backup parse, the call succeeds, every
    tracked collection is overwritten with the value parsed at its key, and
    the Backups collection is not written; no key is missing from such a
    backup, so no collection is left other than empty for want of its key.
    Whatever the backup holds, each of the nine collections that are arrays
    is left the empty array when its key is missing. *)
Theorem C8_restore_overwrites :
  forall (shown : State) (backupId : string) (st : AnyStore),
    (find (fun b => String.eqb (Backup.id b) backupId) (backups shown) = None ->
       backups_restore (ofState shown) backupId st
       = (Throw (Error "Backup not found"), st))
    /\ (forall b,
          reachable shown ->
          find (fun b => String.eqb (Backup.id b) backupId) (backups shown) = Some b ->
          exists v st',
            Json.parse (Backup.data b) = Some v
            /\ backups_restore (ofState shown) backupId st = (Ok tt, st')
            /\ any_backups st' = any_backups st
            /\ forall key collection fallback,
                 In (key, collection, fallback) tracked ->
                 (exists x, field_of v key = Some x /\ collection st' = x)
                 /\ (field_of v key = None -> is_empty (collection st')))
    /\ (forall b ms,
          find (fun b => String.eqb (Backup.id b) backupId) (backups shown) = Some b ->
          Json.parse (Backup.data b) = Some (JObj ms) ->
          exists st',
            backups_restore (ofState shown) backupId st = (Ok tt, st')
            /\ forall key collection,
                 In (key, collection, JArr []) tracked ->
                 get ms key = None -> collection st' = JArr []).
Proof.
  intros shown backupId st. split; [|split].
  - intros F. unfold backups_restore. cbn [any_backups ofState]. now rewrite F.
  - intros b R F.
    assert (I : In b (backups shown)) by (apply find_some in F; apply F).
    destruct (reachable_backups_created shown R b I) as [env [s0 ->]].
    destruct (restore_overwrites_or_defaults (ofState shown) backupId st _ _ F
                (newBackup_data env s0) ltac:(discriminate)) as [st' [E [B C]]].
    exists (stateToBackup (ofState s0)), st'.
    split; [apply newBackup_data|]. split; [exact E|]. split; [exact B|].
    intros key collection fallback H.
    destruct (created_fields s0 key collection fallback H) as [G O].
    split.
    + exists (collection (ofState s0)). split; [exact G|].
      now rewrite (C key collection fallback H), G.
    + intros N. rewrite G in N. discriminate N.
  - intros b ms F P.
    destruct (restore_overwrites_or_defaults (ofState shown) backupId st _ _ F P
                ltac:(discriminate)) as [st' [E [_ C]]].
    exists st'. split; [exact E|].
    intros key collection H N. rewrite (C key collection (JArr []) H).
    cbn [field_of]. now rewrite N.
Qed.

(** C8 at work: in the store that lists the backup of the store with donor
    D1, an unknown id, and the restore of that backup after the donor was
    deleted. *)
Lemma C8_restore_witness :
  backups_restore (ofState store_after_backup) "backup-9" (ofState store_after_backup)
  = (Throw (Error "Backup not found"), ofState store_after_backup)
  /\ exists v st',
       Json.parse (Backup.data (newBackup host0 (ofState store_with_D1))) = Some v
       /\ backups_restore (ofState store_after_backup) "backup-1700000000123"
            (ofState store_after_backup) = (Ok tt, st')
       /\ any_backups st' = backups store_after_backup
       /\ any_donors st' = toJSON [donorD1].
Proof.
  split.
  - apply (proj1 (C8_restore_overwrites store_after_backup "backup-9"
                    (ofState store_after_backup))).
    reflexivity.
  - destruct (proj1 (proj2 (C8_restore_overwrites store_after_backup
                              "backup-1700000000123" (ofState store_after_backup)))
                (newBackup host0 (ofState store_with_D1)))
      as [v [st' [P [E [B C]]]]].
    + unfold store_after_backup.
      apply reach_step. apply reach_create; apply reach_loaded; reflexivity.
    + reflexivity.
    + exists v, st'. split; [exact P|]. split; [exact E|]. split; [exact B|].
      destruct (C "donors" any_donors (JArr []) ltac:(left; reflexivity))
        as [[x [G X]] _].
      rewrite X. rewrite newBackup_data in P. injection P as <-.
      vm_compute in G. injection G as <-. reflexivity.
Defined.

(** * Further properties *)

(** ** Updates, deletions and their composition *)

Lemma map_unchanged {A : Type} (f : A -> A) (l : list A) :
  (forall x, In x l -> f x = x) -> map f l = l.
Proof.
  induction l as [|x l IH]; cbn; intros H; [reflexivity|].
  rewrite H by now left. f_equal. apply IH. intros y Hy. apply H. now right.
Qed.

Lemma map_replace_unknown {A : Type} (key : A -> string) (k : string) (g : A -> A)
  (l : list A) :
  (forall x, In x l -> key x <> k) ->
  map (fun x => if String.eqb (key x) k then g x else x) l = l.
Proof.
  intros H. apply map_unchanged. intros x Hx.
  destruct (String.eqb_spec (key x) k) as [E|]; [|reflexivity]. now apply H in Hx.
Qed.

Lemma State_eta (s : State) :
  mkState (donors s) (donations s) (pledges s) (recurringProfiles s) (users s)
    (roles s) (settings s) (outbox s) (communicationQueue s) (tags s) (backups s) = s.
Proof. now destruct s. Qed.

Lemma with_tags_same (st : OrganizationSettings.t) :
  OrganizationSettings.with_tags st (OrganizationSettings.tags st) = st.
Proof. now destruct st. Qed.

(** X1: the [update] of a donor, pledge, user, role or tag whose id is not in the
    store leaves the whole store as it was: nothing is added. *)
Theorem update_of_unknown_id_changes_nothing :
  forall (s : State),
    (forall data, unknown Donor.id (Donor.id data) (donors s) ->
       fst (donors_update data s) = s)
    /\ (forall data, unknown Pledge.id (Pledge.id data) (pledges s) ->
          fst (pledges_update data s) = s)
    /\ (forall data, unknown User.id (User.id data) (users s) ->
          fst (users_update data s) = s)
    /\ (forall data, unknown Role.id (Role.id data) (roles s) ->
          fst (roles_update data s) = s)
    /\ (forall tag, unknown Tag.id (Tag.id tag) (tags s) ->
          unknown Tag.id (Tag.id tag) (OrganizationSettings.tags (settings s)) ->
          fst (tags_update tag s) = s).
Proof.
  intros s. repeat split; intros data H; try intros H';
    unfold donors_update, pledges_update, users_update, roles_update, tags_update,
      setDonors, setPledges, setUsers, setRoles, setTags, setSettings; cbn;
    rewrite ?(map_replace_unknown _ _ (fun _ => data)) by assumption;
    rewrite ?with_tags_same; apply State_eta.
Qed.

Lemma update_of_unknown_id_witness :
  unknown Donor.id (Donor.id donorD2) (donors store_with_D1)
  /\ fst (donors_update donorD2 store_with_D1) = store_with_D1.
Proof.
  assert (U : unknown Donor.id (Donor.id donorD2) (donors store_with_D1))
    by (intros x [<-|[]]; discriminate).
  split; [exact U|].
  exact (proj1 (update_of_unknown_id_changes_nothing store_with_D1) donorD2 U).
Defined.

(** X2: logging a communication, adding or toggling a task, and setting the
    status of a profile, a user or an outbox item leave the store as it was
    when no item has the id. *)
Theorem targeted_change_of_unknown_id_changes_nothing :
  forall (env : Env) (s : State),
    (forall donorId logData, unknown Donor.id donorId (donors s) ->
       donors_logCommunication env donorId logData s = s)
    /\ (forall pledgeId taskData, unknown Pledge.id pledgeId (pledges s) ->
          pledges_addTask env pledgeId taskData s = s)
    /\ (forall pledgeId taskId, unknown Pledge.id pledgeId (pledges s) ->
          pledges_toggleTask pledgeId taskId s = s)
    /\ (forall id status, unknown RecurringProfile.id id (recurringProfiles s) ->
          recurring_updateStatus id status s = s)
    /\ (forall id status, unknown User.id id (users s) ->
          users_updateStatus id status s = s)
    /\ (forall outboxId status error, unknown OutboxItem.id outboxId (outbox s) ->
          outbox_updateStatus env outboxId status error s = s)
    /\ (forall outboxId, unknown OutboxItem.id outboxId (outbox s) ->
          outbox_retry outboxId s = s).
Proof.
  intros env s. repeat split; intros;
    unfold donors_logCommunication, pledges_addTask, pledges_toggleTask,
      recurring_updateStatus, users_updateStatus, outbox_updateStatus, outbox_retry,
      setDonors, setPledges, setUsers, setRecurringProfiles, setOutbox;
    cbn [donors donations pledges recurringProfiles users roles settings outbox
         communicationQueue tags backups];
    match goal with
    | H : unknown ?key ?k ?l |- context [map (fun x => if String.eqb (?key x) ?k then @?g x else x) ?l] =>
        rewrite (map_replace_unknown key k g l H)
    end; apply State_eta.
Qed.

Lemma targeted_change_witness :
  unknown OutboxItem.id "outbox-9" (outbox store_sent)
  /\ outbox_retry "outbox-9" store_sent = store_sent.
Proof.
  assert (U : unknown OutboxItem.id "outbox-9" (outbox store_sent))
    by (intros x [<-|[]]; discriminate).
  split; [exact U|].
  exact (proj2 (proj2 (proj2 (proj2 (proj2 (proj2
           (targeted_change_of_unknown_id_changes_nothing host0 store_sent))))))
           "outbox-9" U).
Defined.

Lemma filter_all {A : Type} (f : A -> bool) (l : list A) :
  (forall x, In x l -> f x = true) -> filter f l = l.
Proof.
  induction l as [|x l IH]; cbn; intros H; [reflexivity|].
  rewrite H by now left. f_equal. apply IH. intros y Hy. apply H. now right.
Qed.

Lemma Set_has_empty (x : string) : Set_has (Set_new []) x = false.
Proof.
  destruct (Set_has (Set_new []) x) eqn:E; [|reflexivity].
  apply Set_has_spec in E. destruct E.
Qed.

(** X3: every bulk action called with no ids leaves the store as it was. *)
Theorem bulk_on_no_ids_changes_nothing :
  forall (env : Env) (s : State),
    donors_deleteBulk [] s = s
    /\ donations_deleteBulk [] s = s
    /\ pledges_deleteBulk [] s = s
    /\ (forall status, pledges_updateStatusBulk [] status s = s)
    /\ (forall status, recurring_updateStatusBulk [] status s = s)
    /\ (forall logData, donors_logCommunicationBulk env [] logData s = s)
    /\ (forall templateId, outbox_addBulk env [] templateId s = s)
    /\ queue_add env [] s = s.
Proof.
  intros env s.
  unfold donors_deleteBulk, donations_deleteBulk, pledges_deleteBulk,
    pledges_updateStatusBulk, recurring_updateStatusBulk, donors_logCommunicationBulk,
    outbox_addBulk, queue_add, setDonors, setDonations, setPledges,
    setRecurringProfiles, setOutbox, setCommunicationQueue.
  cbn [donors donations pledges recurringProfiles users roles settings outbox
       communicationQueue tags backups map map_indexed app].
  repeat split; intros;
    rewrite ?filter_all
      by (intros x _; try destruct (OutboxItem.variant x); now rewrite ?Set_has_empty);
    rewrite ?map_unchanged by (intros x _; now rewrite Set_has_empty);
    rewrite ?app_nil_r; apply State_eta.
Qed.

Lemma map_replace_twice {A : Type} (key : A -> string) (a b : A) (l : list A) :
  key a = key b ->
  map (fun x => if String.eqb (key x) (key b) then b else x)
    (map (fun x => if String.eqb (key x) (key a) then a else x) l)
  = map (fun x => if String.eqb (key x) (key b) then b else x) l.
Proof.
  intros E. rewrite map_map. apply map_ext. intros x. rewrite E.
  destruct (String.eqb (key x) (key b)) eqn:F; [|now rewrite F].
  now rewrite <- E, String.eqb_refl.
Qed.

(** X4: of two updates of the same id only the second one shows. *)
Theorem update_last_write_wins :
  forall (s : State),
    (forall a b, Donor.id a = Donor.id b ->
       fst (donors_update b (fst (donors_update a s))) = fst (donors_update b s))
    /\ (forall a b, Pledge.id a = Pledge.id b ->
          fst (pledges_update b (fst (pledges_update a s))) = fst (pledges_update b s))
    /\ (forall a b, User.id a = User.id b ->
          fst (users_update b (fst (users_update a s))) = fst (users_update b s))
    /\ (forall a b, Role.id a = Role.id b ->
          fst (roles_update b (fst (roles_update a s))) = fst (roles_update b s))
    /\ (forall a b, Tag.id a = Tag.id b ->
          fst (tags_update b (fst (tags_update a s))) = fst (tags_update b s)).
Proof.
  intros s. repeat split; intros a b E;
    unfold donors_update, pledges_update, users_update, roles_update, tags_update,
      setDonors, setPledges, setUsers, setRoles, setTags, setSettings; cbn;
    now rewrite ?(map_replace_twice _ a b _ E).
Qed.

Lemma update_last_write_wins_witness :
  fst (donors_update donorD1 (fst (donors_update donorD1_moved store_with_D1)))
  = fst (donors_update donorD1 store_with_D1).
Proof.
  exact (proj1 (update_last_write_wins store_with_D1) donorD1_moved donorD1 eq_refl).
Defined.

Lemma filter_unknown {A : Type} (key : A -> string) (k : string) (l : list A) :
  unknown key k l -> filter (fun x => negb (String.eqb (key x) k)) l = l.
Proof.
  intros H. apply filter_all. intros x Hx. apply negb_eqb_true. now apply H.
Qed.

(** X5: deleting the donor that [donors.add] has just returned gives the store
    back, when nothing in the store referred to the new id. *)
Theorem donors_add_then_delete :
  forall (env : Env) (data : Donor.t) (s : State),
    fresh_donor_id ("donor-" +++ Date_now env) s ->
    donors_delete (Donor.id (snd (donors_add env data s))) (fst (donors_add env data s)) = s.
Proof.
  intros env data s. unfold donors_add.
  generalize ("donor-" +++ Date_now env). intros id [H1 [H2 H3]].
  unfold donors_delete, setDonors, setDonations, setPledges. cbn.
  rewrite filter_app, (filter_unknown Donor.id id _ H1),
    (filter_unknown Donation.donorId id _ H2), (filter_unknown Pledge.donorId id _ H3).
  cbn. rewrite String.eqb_refl. cbn. rewrite app_nil_r. apply State_eta.
Qed.

Lemma donors_add_then_delete_witness :
  donors_delete (Donor.id (snd (donors_add host0 donorD2 store_with_D1)))
    (fst (donors_add host0 donorD2 store_with_D1))
  = store_with_D1.
Proof.
  apply donors_add_then_delete. split; [|split].
  - intros x [<-|[]] H. vm_compute in H. discriminate H.
  - intros x [].
  - intros x [].
Defined.

Lemma handleImport_from_same_clock (host : nat -> Env) (t : Z) (newDonors : list Donor.t) :
  (forall i, now (host i) = t) ->
  forall i s,
    handleImport_from host i newDonors s
    = setDonors (fun d => d ++ map (imported_at t) newDonors) s.
Proof.
  intros H. induction newDonors as [|donor rest IH]; intros i s; cbn [handleImport_from map].
  - unfold setDonors. rewrite app_nil_r. symmetry. apply State_eta.
  - rewrite IH. unfold donors_add, Date_now, setDonors, imported_at. rewrite H. cbn.
    now rewrite <- app_assoc.
Qed.

Lemma delete_drops_imported (t : Z) (newDonors : list Donor.t) :
  filter (fun donor => negb (String.eqb (Donor.id donor) ("donor-" +++ Z_to_string t)))
    (map (imported_at t) newDonors) = [].
Proof.
  induction newDonors as [|d l IH]; [reflexivity|].
  cbn [map filter]. unfold imported_at at 1. cbn [Donor.id Donor.with_id_history].
  now rewrite String.eqb_refl.
Qed.

(** X6: [App.handleImport] adds the donors in order at the end of the list; when
    the clock does not advance during the import they all get the same id,
    and one [donors.delete] of that id removes every one of them. *)
Theorem import_within_one_millisecond_shares_one_id :
  forall (host : nat -> Env) (t : Z) (newDonors : list Donor.t) (s : State),
    (forall i, now (host i) = t) ->
    let s' := handleImport host newDonors s in
    donors s' = donors s ++ map (imported_at t) newDonors
    /\ (forall d, In d (map (imported_at t) newDonors) ->
          Donor.id d = "donor-" +++ Z_to_string t)
    /\ donors (donors_delete ("donor-" +++ Z_to_string t) s')
       = donors (donors_delete ("donor-" +++ Z_to_string t) s).
Proof.
  intros host t newDonors s H s'. subst s'. unfold handleImport.
  rewrite (handleImport_from_same_clock host t newDonors H).
  split; [reflexivity|]. split.
  - intros d Hd. apply in_map_iff in Hd. destruct Hd as [x [<- _]]. reflexivity.
  - unfold donors_delete, setDonors, setDonations, setPledges.
    cbn [donors donations pledges recurringProfiles users roles settings outbox
         communicationQueue tags backups].
    now rewrite filter_app, delete_drops_imported, app_nil_r.
Qed.

Lemma import_witness :
  donors (handleImport (fun _ => host0) [donorD1; donorD2] store_with_D1)
  = donors store_with_D1 ++ map (imported_at (now host0)) [donorD1; donorD2]
  /\ donors (donors_delete ("donor-" +++ Z_to_string (now host0))
               (handleImport (fun _ => host0) [donorD1; donorD2] store_with_D1))
     = donors (donors_delete ("donor-" +++ Z_to_string (now host0)) store_with_D1).
Proof.
  destruct (import_within_one_millisecond_shares_one_id (fun _ => host0) (now host0)
              [donorD1; donorD2] store_with_D1 (fun _ => eq_refl)) as [H1 [_ H3]].
  split; [exact H1 | exact H3].
Defined.

(** X7: [donations.deleteBulk] removes the donations with the ids and the
    receipt items of the outbox that point to them, keeps the template
    items, and leaves the donors, with their donation history, and the
    recurring profiles as they were. *)
Theorem donations_deleteBulk_cascades_to_receipts :
  forall (ids : list string) (s : State),
    let s' := donations_deleteBulk ids s in
    (forall d, In d (donations s') <-> In d (donations s) /\ ~ In (Donation.id d) ids)
    /\ (forall it, In it (outbox s')
                   <-> In it (outbox s)
                       /\ match OutboxItem.variant it with
                          | OutboxItem.receipt donationId => ~ In donationId ids
                          | OutboxItem.template _ _ => True
                          end)
    /\ donors s' = donors s
    /\ recurringProfiles s' = recurringProfiles s.
Proof.
  intros ids s s'. subst s'. unfold donations_deleteBulk. cbn -[Set_new Set_has].
  split; [|split; [|split; reflexivity]].
  - intros d. rewrite filter_keeps, negb_has_true. reflexivity.
  - intros it. rewrite filter_keeps. destruct (OutboxItem.variant it).
    + rewrite negb_has_true. reflexivity.
    + tauto.
Qed.

Lemma Set_has_app (a b : list string) (x : string) :
  Set_has (Set_new (a ++ b)) x = Set_has (Set_new a) x || Set_has (Set_new b) x.
Proof.
  apply eq_true_iff_eq. rewrite orb_true_iff, !Set_has_spec. apply in_app_iff.
Qed.

Lemma filter_filter {A : Type} (f g : A -> bool) (l : list A) :
  filter g (filter f l) = filter (fun x => f x && g x) l.
Proof.
  induction l as [|x l IH]; [reflexivity|]. cbn.
  destruct (f x); cbn; [destruct (g x)|]; now rewrite IH.
Qed.

Lemma filter_not_in_app {A : Type} (key : A -> string) (a b : list string) (l : list A) :
  filter (fun x => negb (Set_has (Set_new b) (key x)))
    (filter (fun x => negb (Set_has (Set_new a) (key x))) l)
  = filter (fun x => negb (Set_has (Set_new (a ++ b)) (key x))) l.
Proof.
  rewrite filter_filter. apply filter_ext. intros x.
  now rewrite Set_has_app, negb_orb.
Qed.

(** X8: two bulk deletions in a row are the bulk deletion of both lists of ids. *)
Theorem deleteBulk_composes :
  forall (a b : list string) (s : State),
    donors_deleteBulk b (donors_deleteBulk a s) = donors_deleteBulk (a ++ b) s
    /\ donations_deleteBulk b (donations_deleteBulk a s) = donations_deleteBulk (a ++ b) s
    /\ pledges_deleteBulk b (pledges_deleteBulk a s) = pledges_deleteBulk (a ++ b) s.
Proof.
  intros a b s.
  unfold donors_deleteBulk, donations_deleteBulk, pledges_deleteBulk,
    setDonors, setDonations, setPledges, setOutbox.
  cbn [donors donations pledges recurringProfiles users roles settings outbox
       communicationQueue tags backups].
  rewrite !filter_not_in_app. repeat split.
  f_equal. rewrite filter_filter. apply filter_ext. intros x.
  destruct (OutboxItem.variant x); [|reflexivity]. now rewrite Set_has_app, negb_orb.
Qed.

(** X9: toggling a task twice gives the store back, when the pledges with the
    id have a list of tasks. *)
Theorem toggleTask_twice_restores :
  forall (pledgeId taskId : string) (s : State),
    tasks_defined pledgeId s ->
    pledges_toggleTask pledgeId taskId (pledges_toggleTask pledgeId taskId s) = s.
Proof.
  intros pledgeId taskId s H. unfold pledges_toggleTask, setPledges.
  cbn [donors donations pledges recurringProfiles users roles settings outbox
       communicationQueue tags backups].
  rewrite map_map, map_unchanged; [apply State_eta|].
  intros p Hp. destruct (String.eqb_spec (Pledge.id p) pledgeId) as [E|N].
  - specialize (H p Hp E). destruct p as [i d a du st [ts|]]; [|now contradiction H].
    cbn [Pledge.id Pledge.with_tasks] in *. rewrite (proj2 (String.eqb_eq _ _) E).
    unfold Pledge.with_tasks. cbn. f_equal. f_equal.
    rewrite map_map. apply map_unchanged. intros t _.
    destruct t as [ti td tc]. cbn. destruct (String.eqb ti taskId) eqn:T; cbn.
    + now rewrite T, negb_involutive.
    + now rewrite T.
  - apply String.eqb_neq in N. rewrite N. rewrite ?N. reflexivity.
Qed.

Lemma toggleTask_twice_witness :
  tasks_defined "P1" store_pledge
  /\ pledges_toggleTask "P1" "task-1" (pledges_toggleTask "P1" "task-1" store_pledge)
     = store_pledge.
Proof.
  assert (T : tasks_defined "P1" store_pledge) by (intros p [<-|[]] _; discriminate).
  split; [exact T | exact (toggleTask_twice_restores "P1" "task-1" store_pledge T)].
Defined.

(** X10: [recurring.updateStatus] and [recurring.updateStatusBulk] change the
    status of the profiles with the ids and nothing else: the next due date
    of a profile is never recomputed, and the profiles keep their places. *)
Theorem recurring_status_update_keeps_schedule :
  forall (s : State),
    (forall id status n p,
       nth_error (recurringProfiles s) n = Some p ->
       exists p',
         nth_error (recurringProfiles (recurring_updateStatus id status s)) n = Some p'
         /\ RecurringProfile.with_status p' (RecurringProfile.status p) = p
         /\ RecurringProfile.status p'
            = if String.eqb (RecurringProfile.id p) id then status
              else RecurringProfile.status p)
    /\ (forall ids status n p,
          nth_error (recurringProfiles s) n = Some p ->
          exists p',
            nth_error (recurringProfiles (recurring_updateStatusBulk ids status s)) n = Some p'
            /\ RecurringProfile.with_status p' (RecurringProfile.status p) = p
            /\ (In (RecurringProfile.id p) ids -> RecurringProfile.status p' = status)
            /\ (~ In (RecurringProfile.id p) ids -> p' = p)).
Proof.
  intros s. split.
  - intros id status n p H. unfold recurring_updateStatus. cbn.
    rewrite nth_error_map, H. cbn. eexists. split; [reflexivity|].
    destruct (String.eqb (RecurringProfile.id p) id); destruct p; cbn; auto.
  - intros ids status n p H. unfold recurring_updateStatusBulk. cbn -[Set_new Set_has].
    rewrite nth_error_map, H. cbn -[Set_new Set_has]. eexists. split; [reflexivity|].
    destruct (Set_has (Set_new ids) (RecurringProfile.id p)) eqn:E.
    + destruct p; cbn; repeat split; auto. intros N. apply Set_has_spec in E.
      now contradiction N.
    + destruct p; cbn -[Set_new Set_has] in *; repeat split; auto.
      intros I. apply Set_has_spec in I. congruence.
Qed.

Lemma recurring_status_witness :
  exists p',
    nth_error (recurringProfiles (recurring_updateStatus "rec-1" Paused store_profile)) 0
    = Some p'
    /\ RecurringProfile.with_status p' (RecurringProfile.status profile_rec1) = profile_rec1
    /\ RecurringProfile.status p'
       = if String.eqb (RecurringProfile.id profile_rec1) "rec-1" then Paused
         else RecurringProfile.status profile_rec1.
Proof.
  exact (proj1 (recurring_status_update_keeps_schedule store_profile)
           "rec-1" Paused 0%nat profile_rec1 eq_refl).
Defined.

(** X11: the error stored with a failed outbox item survives every later
    [outbox.updateStatus] that passes no error, so a sent item still shows
    it; only [outbox.retry] clears it. *)
Theorem updateStatus_never_clears_the_error :
  forall (env env' : Env) (outboxId message : string) (status : OutboxStatus)
         (s : State) (n : nat) (before : OutboxItem.t),
    message <> "" ->
    nth_error (outbox s) n = Some before ->
    OutboxItem.id before = outboxId ->
    exists failed after retried,
      nth_error (outbox (outbox_updateStatus env outboxId Failed (Some message) s)) n
      = Some failed
      /\ OutboxItem.error failed = Some message
      /\ nth_error (outbox (outbox_updateStatus env' outboxId status None
                              (outbox_updateStatus env outboxId Failed (Some message) s))) n
         = Some after
      /\ OutboxItem.status after = status
      /\ OutboxItem.error after = Some message
      /\ nth_error (outbox (outbox_retry outboxId
                              (outbox_updateStatus env outboxId Failed (Some message) s))) n
         = Some retried
      /\ OutboxItem.error retried = None.
Proof.
  intros env env' outboxId message status s n before M H E.
  apply String.eqb_neq in M. apply String.eqb_eq in E.
  unfold outbox_updateStatus, outbox_retry. cbn.
  rewrite !map_map, !nth_error_map, H. cbn. rewrite E. cbn. rewrite E. cbn.
  unfold error_or. rewrite M.
  eexists. eexists. eexists. repeat split; reflexivity.
Qed.

Lemma updateStatus_error_witness :
  exists failed after retried,
    nth_error (outbox (outbox_updateStatus host0 "outbox-1" Failed
                         (Some "Donor has no phone number.") store_sent)) 0
    = Some failed
    /\ OutboxItem.error failed = Some "Donor has no phone number."
    /\ nth_error (outbox (outbox_updateStatus host0 "outbox-1" Sent None
                            (outbox_updateStatus host0 "outbox-1" Failed
                               (Some "Donor has no phone number.") store_sent))) 0
       = Some after
    /\ OutboxItem.status after = Sent
    /\ OutboxItem.error after = Some "Donor has no phone number."
    /\ nth_error (outbox (outbox_retry "outbox-1"
                            (outbox_updateStatus host0 "outbox-1" Failed
                               (Some "Donor has no phone number.") store_sent))) 0
       = Some retried
    /\ OutboxItem.error retried = None.
Proof.
  exact (updateStatus_never_clears_the_error host0 host0 "outbox-1"
           "Donor has no phone number." Sent store_sent 0%nat sent_item
           ltac:(discriminate) eq_refl eq_refl).
Defined.

(** ** The next due date, in any time zone *)

Section MoreCalendar.
Import JSDate.

Lemma not_a_date_throws (env : Env) (text : string) (f : Frequency) :
  JSDate.parse (tza env) (parse_other env) text = None ->
  calculateNextDueDate env text f = Throw RangeError.
Proof.
  intros P. unfold calculateNextDueDate, new_of_string. rewrite P. now destruct f.
Qed.

(** X12: a recurring donation whose date is a text that [Date.parse] does
    not read, by the Date Time String Format or by a format of the engine,
    is stored and queued for a receipt, while the profile is rejected with
    a RangeError and none is stored. *)
Theorem donation_without_a_date_gets_no_profile :
  forall (env : Env) (data : Donation.t) (f : Frequency) (s : State),
    Donation.recurring data = Recurs f ->
    JSDate.parse (tza env) (parse_other env) (Donation.date data) = None ->
    snd (recurring_add env (profile_of_donation data f) s) = Throw RangeError
    /\ recurringProfiles (fst (donations_add env data s)) = recurringProfiles s
    /\ donations (fst (donations_add env data s)) = donations s ++ [data]
    /\ length (outbox (fst (donations_add env data s))) = S (length (outbox s)).
Proof.
  intros env data f s R P. unfold donations_add, recurring_add. rewrite R.
  cbn [RecurringProfile.startDate RecurringProfile.frequency profile_of_donation].
  rewrite (not_a_date_throws env _ f P). repeat split.
Qed.

Lemma donation_without_a_date_witness :
  snd (recurring_add host0 (profile_of_donation (donation_monthly "someday") Monthly)
         store_with_D1) = Throw RangeError
  /\ recurringProfiles (fst (donations_add host0 (donation_monthly "someday") store_with_D1))
     = recurringProfiles store_with_D1
  /\ donations (fst (donations_add host0 (donation_monthly "someday") store_with_D1))
     = donations store_with_D1 ++ [donation_monthly "someday"]
  /\ length (outbox (fst (donations_add host0 (donation_monthly "someday") store_with_D1)))
     = S (length (outbox store_with_D1)).
Proof.
  exact (donation_without_a_date_gets_no_profile host0 (donation_monthly "someday")
           Monthly store_with_D1 eq_refl eq_refl).
Defined.

Lemma month_table_inverse (leap : bool) (w : Z) :
  0 <= w < (if leap then 366 else 365) ->
  let mn := monthFromDay w (leapDay leap) in
  let d := dateFromDay w (leapDay leap) in
  0 <= mn <= 11
  /\ 1 <= d <= (match mn with 1 => if leap then 29 else 28 | 3 | 5 | 8 | 10 => 30 | _ => 31 end)
  /\ daysBeforeMonth leap mn + d - 1 = w.
Proof.
  intros H. unfold dateFromDay, monthFromDay, daysBeforeMonth, leapDay.
  destruct leap;
    repeat match goal with
           | |- context [?a <? ?b] => destruct (Z.ltb_spec a b)
           end; cbv zeta; cbv iota; lia.
Qed.

Lemma Day_split (t : Z) : t = MakeDate (Day t) (TimeWithinDay t) /\ 0 <= TimeWithinDay t < msPerDay.
Proof. unfold MakeDate, Day, TimeWithinDay, msPerDay. lia. Qed.

(** The fields of any time give its day back. *)
Lemma fields_give_the_day (t : Z) :
  MakeDay (YearFromTime t) (MonthFromTime t) (DateFromTime t) = Day t.
Proof.
  unfold MonthFromTime, DateFromTime, DayWithinYear, InLeapYear, YearFromTime.
  set (n := Day t). set (y := YearFromDay n).
  pose proof (YearFromDay_spec n) as S. fold y in S. rewrite DayFromYear_succ in S.
  assert (W : 0 <= n - DayFromYear y < (if isLeap y then 366 else 365))
    by (unfold DaysInYear in S; lia).
  destruct (month_table_inverse (isLeap y) (n - DayFromYear y) W) as [M [D E]].
  unfold leapDay in *. 
  set (mn := monthFromDay (n - DayFromYear y) (if isLeap y then 1 else 0)) in *.
  set (d := dateFromDay (n - DayFromYear y) (if isLeap y then 1 else 0)) in *.
  unfold MakeDay. replace (mn / 12) with 0 by lia. replace (mn mod 12) with mn by lia.
  replace (y + 0) with y by lia. lia.
Qed.

Lemma MakeDay_plus (y mn d k : Z) : MakeDay y mn (d + k) = MakeDay y mn d + k.
Proof. unfold MakeDay. lia. Qed.

(** X13: a weekly profile is next due seven days after its start date, whatever
    the offset of the host from UTC. *)
Theorem weekly_is_seven_days_in_every_time_zone :
  forall (env : Env) (c : CivilDate),
    is_date c -> 0 <= year c <= 9998 ->
    calculateNextDueDate env (iso_date c) Weekly
    = Ok (iso_date (date_of_day (day_number c + 7))).
Proof.
  intros env c D Hy.
  pose proof (MakeDay_bounds _ _ _ (is_date_valid c D) ltac:(lia)) as B.
  unfold calculateNextDueDate, new_of_string.
  rewrite (parse_iso_date c D ltac:(lia)).
  cbn [getDate plus setDate option_map].
  set (t := LocalTime (tza env) (MakeDate (day_number c) 0)).
  pose proof (fields_give_the_day t) as F. destruct (Day_split t) as [T _].
  rewrite MakeDay_plus, F.
  replace (UTC (tza env) (MakeDate (Day t + 7) (TimeWithinDay t)))
    with (MakeDate (day_number c + 7) 0).
  2:{ unfold UTC. generalize dependent (Day t). generalize dependent (TimeWithinDay t).
      intros w n _ T. unfold t, LocalTime, MakeDate in *. lia. }
  rewrite finish_date by (unfold day_number; lia).
  f_equal. unfold isoDate, iso_date, date_of_day, isoYear.
  cbn [year month day].
  replace ((0 <=? YearFromTime (MakeDate (day_number c + 7) 0))
           && (YearFromTime (MakeDate (day_number c + 7) 0) <=? 9999)) with true;
    [reflexivity|].
  symmetry. rewrite andb_true_iff, !Z.leb_le.
  unfold YearFromTime. rewrite (proj1 (Day_MakeDate _ 0 ltac:(unfold msPerDay; lia))).
  apply (weekly_year _ (year c) Hy).
  pose proof (MakeDay_year _ _ _ (is_date_valid c D)) as E.
  pose proof (YearFromDay_spec (day_number c)) as S.
  unfold day_number in *. now rewrite E in S.
Qed.

Lemma weekly_witness :
  calculateNextDueDate host_west (iso_date (mkDate 2024 12 28)) Weekly
  = Ok (iso_date (date_of_day (day_number (mkDate 2024 12 28) + 7))).
Proof.
  apply weekly_is_seven_days_in_every_time_zone; [unfold is_date; cbn; lia | cbn; lia].
Defined.

Lemma year_between (a b n : Z) :
  DayFromYear a <= n < DayFromYear (b + 1) -> a <= YearFromDay n <= b.
Proof.
  intros H. pose proof (YearFromDay_spec n) as S. split.
  - destruct (Z.le_gt_cases a (YearFromDay n)) as [L|G]; auto.
    pose proof (DayFromYear_mono (YearFromDay n + 1) a ltac:(lia)). lia.
  - destruct (Z.le_gt_cases (YearFromDay n) b) as [L|G]; auto.
    pose proof (DayFromYear_mono (b + 1) (YearFromDay n) ltac:(lia)). lia.
Qed.

Lemma isoDate_of_day (n : Z) :
  0 <= YearFromDay n <= 9999 -> isoDate (MakeDate n 0) = iso_date (date_of_day n).
Proof.
  intros H. unfold isoDate, iso_date, date_of_day, isoYear. cbn [year month day].
  replace ((0 <=? YearFromTime (MakeDate n 0)) && (YearFromTime (MakeDate n 0) <=? 9999))
    with true; [reflexivity|].
  symmetry. rewrite andb_true_iff, !Z.leb_le.
  unfold YearFromTime. now rewrite (proj1 (Day_MakeDate _ 0 ltac:(unfold msPerDay; lia))).
Qed.

Lemma DaysInMonth_bounds (y mn : Z) : 28 <= DaysInMonth y mn <= 31.
Proof.
  unfold DaysInMonth. destruct (isLeap y).
  - destruct mn as [|p|p]; try lia. do 4 (try destruct p as [p|p|]; try lia).
  - destruct mn as [|p|p]; try lia. do 4 (try destruct p as [p|p|]; try lia).
Qed.

Lemma first_of_month_start (y mn : Z) :
  0 <= mn <= 11 ->
  DayFromYear y <= MakeDay y mn 1 < DayFromYear (y + 1).
Proof.
  intros H.
  assert (V : valid_md y mn 1) by (split; [lia | pose proof (DaysInMonth_bounds y mn); lia]).
  pose proof (MakeDay_year _ _ _ V) as E.
  pose proof (YearFromDay_spec (MakeDay y mn 1)) as S. now rewrite E in S.
Qed.

Lemma finish_day (n : Z) :
  -100000000 <= n <= 100000000 -> 0 <= YearFromDay n <= 9999 ->
  (iso <- toISOString (TimeClip (MakeDate n 0)) ;; Ok (split_head "T" iso))
  = Ok (iso_date (date_of_day n)).
Proof. intros B Y. rewrite finish_date by exact B. now rewrite isoDate_of_day. Qed.

Lemma rolled_day (y mn d : Z) :
  0 <= y <= 9998 -> 0 <= mn <= 11 -> 1 <= d <= 32 ->
  let n := MakeDay y mn 1 + (d - 1) in
  -100000000 <= n <= 100000000 /\ 0 <= YearFromDay n <= 9999.
Proof.
  intros Hy Hm Hd n.
  pose proof (first_of_month_start y mn Hm) as F.
  pose proof (DayFromYear_bounds y ltac:(lia)).
  pose proof (DayFromYear_bounds (y + 1) ltac:(lia)).
  pose proof (DayFromYear_succ (y + 1)) as S1.
  assert (365 <= DaysInYear (y + 1)) by (unfold DaysInYear; destruct (isLeap _); lia).
  split; [subst n; lia|].
  pose proof (year_between y (y + 1) n) as Y.
  replace (y + 1 + 1) with (y + 1 + 1) in Y by lia.
  assert (y <= YearFromDay n <= y + 1) by (apply Y; subst n; lia). lia.
Qed.

Lemma fields_of_day (t n : Z) :
  Day t = n ->
  YearFromTime t = year (date_of_day n)
  /\ MonthFromTime t + 1 = month (date_of_day n)
  /\ DateFromTime t = day (date_of_day n).
Proof.
  intros E. unfold date_of_day. cbn [year month day].
  pose proof (proj1 (Day_MakeDate n 0 ltac:(unfold msPerDay; lia))) as D.
  unfold YearFromTime, MonthFromTime, DateFromTime, DayWithinYear, InLeapYear, YearFromTime.
  now rewrite E, D.
Qed.

Lemma date_of_day_is_date (n : Z) : is_date (date_of_day n).
Proof.
  unfold is_date, date_of_day. cbn [year month day].
  unfold MonthFromTime, DateFromTime, DayWithinYear, InLeapYear, YearFromTime.
  rewrite (proj1 (Day_MakeDate n 0 ltac:(unfold msPerDay; lia))).
  set (y := YearFromDay n).
  pose proof (YearFromDay_spec n) as S. fold y in S. rewrite DayFromYear_succ in S.
  assert (W : 0 <= n - DayFromYear y < (if isLeap y then 366 else 365))
    by (unfold DaysInYear in S; lia).
  destruct (month_table_inverse (isLeap y) (n - DayFromYear y) W) as [M [D _]].
  unfold leapDay in *.
  set (mn := monthFromDay (n - DayFromYear y) (if isLeap y then 1 else 0)) in *.
  set (d := dateFromDay (n - DayFromYear y) (if isLeap y then 1 else 0)) in *.
  split; [lia|]. replace (mn + 1 - 1) with mn by lia. exact D.
Qed.

Lemma day_number_of_day (n : Z) : day_number (date_of_day n) = n.
Proof.
  unfold day_number, date_of_day. cbn [year month day].
  replace (MonthFromTime (MakeDate n 0) + 1 - 1) with (MonthFromTime (MakeDate n 0)) by lia.
  rewrite fields_give_the_day. apply (Day_MakeDate n 0). unfold msPerDay; lia.
Qed.

(** What [calculateNextDueDate] returns for a monthly or an annual profile
    when the local date of the start is [c] and the local midnight is [k]
    days after the UTC midnight before it. *)
Lemma next_due_date_from_local_fields (env : Env) (start : string) (tv : Z)
  (c : CivilDate) (k : Z) (f : Frequency) :
  JSDate.parse (tza env) (parse_other env) start = Some tv ->
  YearFromTime (LocalTime (tza env) tv) = year c ->
  MonthFromTime (LocalTime (tza env) tv) = month c - 1 ->
  DateFromTime (LocalTime (tza env) tv) = day c ->
  TimeWithinDay (LocalTime (tza env) tv) - tza env = k * msPerDay ->
  is_date c -> 0 <= year c <= 9997 -> 0 <= k <= 1 -> f <> Weekly ->
  calculateNextDueDate env start f
  = Ok (iso_date (date_of_day (day_number (plus_period f (mkDate (year c) (month c) 1))
                               + (day c - 1) + k))).
Proof.
  intros P LY LM LD LT D Hy Hk NW.
  assert (Hd : 1 <= day c <= 31)
    by (destruct D as [_ D]; pose proof (DaysInMonth_bounds (year c) (month c - 1)); lia).
  destruct D as [Dm Dd].
  unfold calculateNextDueDate, new_of_string. rewrite P.
  destruct f; [congruence| |];
    cbn [getDate getMonth getFullYear plus setDate setMonth setFullYear option_map];
    rewrite LY, LM, LD; cbn [plus_period year month day]; unfold day_number;
    generalize dependent (TimeWithinDay (LocalTime (tza env) tv)); intros w LT.
  - (* Monthly *)
    destruct (Z.eqb_spec (month c) 12) as [E|E]; cbn [year month day].
    + replace (UTC (tza env) (MakeDate (MakeDay (year c) (month c - 1 + 1) (day c)) w))
        with (MakeDate (MakeDay (year c + 1) (1 - 1) 1 + (day c - 1) + k) 0).
      2:{ rewrite E. change (12 - 1 + 1) with 12. rewrite MakeDay_december.
          rewrite <- Z.add_assoc, <- MakeDay_plus.
          replace (1 + (day c - 1 + k)) with (day c + k) by lia. rewrite MakeDay_plus.
          unfold UTC, MakeDate, msPerDay in *. change (1 - 1) with 0. lia. }
      replace (MakeDay (year c + 1) (1 - 1) 1 + (day c - 1) + k)
        with (MakeDay (year c + 1) (1 - 1) 1 + (day c + k - 1)) by lia.
      destruct (rolled_day (year c + 1) (1 - 1) (day c + k)) as [B Y]; try lia.
      now rewrite finish_day.
    + replace (UTC (tza env) (MakeDate (MakeDay (year c) (month c - 1 + 1) (day c)) w))
        with (MakeDate (MakeDay (year c) (month c + 1 - 1) 1 + (day c - 1) + k) 0).
      2:{ rewrite <- Z.add_assoc, <- MakeDay_plus.
          replace (1 + (day c - 1 + k)) with (day c + k) by lia. rewrite MakeDay_plus.
          replace (month c + 1 - 1) with (month c - 1 + 1) by lia.
          unfold UTC, MakeDate, msPerDay in *. lia. }
      replace (MakeDay (year c) (month c + 1 - 1) 1 + (day c - 1) + k)
        with (MakeDay (year c) (month c + 1 - 1) 1 + (day c + k - 1)) by lia.
      destruct (rolled_day (year c) (month c + 1 - 1) (day c + k)) as [B Y]; try lia.
      now rewrite finish_day.
  - (* Annually *)
    cbn [year month day].
    replace (UTC (tza env) (MakeDate (MakeDay (year c + 1) (month c - 1) (day c)) w))
      with (MakeDate (MakeDay (year c + 1) (month c - 1) 1 + (day c - 1) + k) 0).
    2:{ rewrite <- Z.add_assoc, <- MakeDay_plus.
        replace (1 + (day c - 1 + k)) with (day c + k) by lia. rewrite MakeDay_plus.
        unfold UTC, MakeDate, msPerDay in *. lia. }
    replace (MakeDay (year c + 1) (month c - 1) 1 + (day c - 1) + k)
      with (MakeDay (year c + 1) (month c - 1) 1 + (day c + k - 1)) by lia.
    destruct (rolled_day (year c + 1) (month c - 1) (day c + k)) as [B Y]; try lia.
    now rewrite finish_day.
Qed.

(** X14: at a fixed offset at or east of UTC a monthly or annual profile is
    next due on the day found by counting the start day of the month from
    the first day of the month one period later; a day that this month
    lacks runs on into the following month. *)
Theorem next_due_date_rolls_over :
  forall (env : Env) (c : CivilDate) (f : Frequency),
    is_date c -> 0 <= year c <= 9997 -> 0 <= tza env < msPerDay -> f <> Weekly ->
    calculateNextDueDate env (iso_date c) f = Ok (iso_date (rolled_over f c)).
Proof.
  intros env c f D Hy Hz NW.
  destruct (local_fields env c D Hz) as [LY [LM [LD LT]]].
  rewrite (next_due_date_from_local_fields env (iso_date c) _ c 0 f
             (parse_iso_date c D ltac:(lia) _ _)); auto; try lia.
  unfold rolled_over. do 3 f_equal. lia.
Qed.

Lemma next_due_date_rolls_over_witness :
  calculateNextDueDate host0 (iso_date (mkDate 2024 1 31)) Monthly
  = Ok (iso_date (rolled_over Monthly (mkDate 2024 1 31))).
Proof.
  apply next_due_date_rolls_over;
    [unfold is_date; cbn; lia | cbn; lia | cbn; unfold JSDate.msPerDay; lia | discriminate].
Defined.

(** X15: at a fixed offset west of UTC the start date is read as the day
    before it: the period is added to that day as above, and one day is
    added back. *)
Theorem west_of_UTC_counts_from_the_day_before :
  forall (env : Env) (c : CivilDate) (f : Frequency),
    is_date c -> 1 <= year c <= 9997 -> - msPerDay <= tza env < 0 -> f <> Weekly ->
    calculateNextDueDate env (iso_date c) f
    = Ok (iso_date (date_of_day
            (day_number (rolled_over f (date_of_day (day_number c - 1))) + 1))).
Proof.
  intros env c f D Hy Hz NW.
  set (n := day_number c). set (b := date_of_day (n - 1)).
  assert (DT : Day (LocalTime (tza env) (MakeDate n 0)) = n - 1
               /\ TimeWithinDay (LocalTime (tza env) (MakeDate n 0)) - tza env
                  = 1 * msPerDay).
  { unfold Day, TimeWithinDay, LocalTime, MakeDate, msPerDay in *. lia. }
  destruct DT as [DD DW].
  destruct (fields_of_day _ _ DD) as [LY [LM LD]]. fold b in LY, LM, LD.
  assert (Yb : 0 <= year b <= 9997).
  { unfold b, date_of_day. cbn [year]. unfold YearFromTime.
    rewrite (proj1 (Day_MakeDate (n - 1) 0 ltac:(unfold msPerDay; lia))).
    pose proof (MakeDay_year _ _ _ (is_date_valid c D)) as E.
    pose proof (YearFromDay_spec (MakeDay (year c) (month c - 1) (day c))) as S.
    rewrite E in S. fold (day_number c) in S. fold n in S.
    pose proof (DayFromYear_succ (year c - 1)) as S1.
    replace (year c - 1 + 1) with (year c) in S1 by lia.
    assert (365 <= DaysInYear (year c - 1)) by (unfold DaysInYear; destruct (isLeap _); lia).
    assert (year c - 1 <= YearFromDay (n - 1) <= year c); [|lia].
    apply year_between. lia. }
  rewrite (next_due_date_from_local_fields env (iso_date c) _ b 1 f
             (parse_iso_date c D ltac:(lia) _ _)); auto; try (fold n; lia);
    try apply date_of_day_is_date.
  unfold rolled_over. now rewrite day_number_of_day.
Qed.

Lemma west_of_UTC_witness :
  calculateNextDueDate host_west (iso_date (mkDate 2024 3 1)) Monthly
  = Ok (iso_date (date_of_day
          (day_number (rolled_over Monthly (date_of_day (day_number (mkDate 2024 3 1) - 1)))
           + 1))).
Proof.
  apply west_of_UTC_counts_from_the_day_before;
    [unfold is_date; cbn; lia | cbn; lia | cbn; unfold JSDate.msPerDay; lia | discriminate].
Defined.

(** X16: at a fixed offset at or east of UTC an annual profile that starts
    on 29 February is next due on 1 March of the following year. *)
Theorem leap_day_renews_on_the_first_of_march :
  forall (env : Env) (y : Z),
    0 <= y <= 9997 -> isLeap y = true -> 0 <= tza env < msPerDay ->
    calculateNextDueDate env (iso_date (mkDate y 2 29)) Annually
    = Ok (iso_date (mkDate (y + 1) 3 1)).
Proof.
  intros env y Hy L Hz.
  assert (D : is_date (mkDate y 2 29)).
  { split; cbn [year month day]; [lia|]. unfold DaysInMonth. change (2 - 1) with 1.
    cbv iota. rewrite L. lia. }
  assert (NL : isLeap (y + 1) = false).
  { unfold isLeap in *. rewrite orb_true_iff, andb_true_iff, negb_true_iff, !Z.eqb_eq, Z.eqb_neq in L.
    apply orb_false_iff. rewrite andb_false_iff, negb_false_iff, !Z.eqb_neq. lia. }
  rewrite (next_due_date_from_local_fields env _ _ (mkDate y 2 29) 0 Annually
             (parse_iso_date _ D ltac:(cbn [year]; lia) _ _));
    try (destruct (local_fields env _ D Hz) as [LY [LM [LD LT]]]; auto; lia);
    try congruence; try (cbn [year]; lia).
  f_equal. cbn [plus_period year month day]. unfold day_number.
  cbn [year month day].
  replace (MakeDay (y + 1) (2 - 1) 1 + (29 - 1) + 0) with (MakeDay (y + 1) (3 - 1) 1).
  2:{ unfold MakeDay. change ((2 - 1) / 12) with 0. change ((3 - 1) / 12) with 0.
      change ((2 - 1) mod 12) with 1. change ((3 - 1) mod 12) with 2.
      replace (y + 1 + 0) with (y + 1) by lia. rewrite NL. unfold daysBeforeMonth. lia. }
  assert (V : valid_md (y + 1) (3 - 1) 1) by (split; [lia | unfold DaysInMonth; cbn; lia]).
  destruct (MakeDay_fields (y + 1) (3 - 1) 1 0 V ltac:(unfold msPerDay; lia)) as [H1 [H2 H3]].
  unfold date_of_day. rewrite H1, H2, H3. reflexivity.
Qed.

Lemma leap_day_witness :
  calculateNextDueDate host0 (iso_date (mkDate 2024 2 29)) Annually
  = Ok (iso_date (mkDate (2024 + 1) 3 1)).
Proof.
  apply leap_day_renews_on_the_first_of_march;
    [lia | reflexivity | cbn; unfold JSDate.msPerDay; lia].
Defined.

End MoreCalendar.

(** ** Backups: atomicity and round trips *)


(** X18: a [backups.restore] that throws, for an unknown id, a text that is no
    JSON or the text [null], leaves the store as it was, whatever render
    its actions come from. *)
Theorem failed_restore_changes_nothing :
  forall (shown : AnyStore) (backupId : string) (st : AnyStore) (e : JSError),
    fst (backups_restore shown backupId st) = Throw e ->
    snd (backups_restore shown backupId st) = st.
Proof.
  intros shown backupId st e H.
  destruct (restore_outcome shown backupId st) as [[e' E]|[b [v [_ [_ [_ [E _]]]]]]];
    rewrite E in *; [reflexivity | discriminate H].
Qed.

Lemma failed_restore_witness :
  fst (backups_restore store_null_backup "backup-2" store_null_backup) = Throw TypeError
  /\ snd (backups_restore store_null_backup "backup-2" store_null_backup)
     = store_null_backup.
Proof.
  split; [reflexivity|].
  exact (failed_restore_changes_nothing store_null_backup "backup-2" store_null_backup
           TypeError eq_refl).
Defined.

(** X19: a [restoreFromFile] that reports no success has changed nothing. *)
Theorem rejected_file_changes_nothing :
  forall (text : string) (st : AnyStore),
    success_of (fst (backups_restoreFromFile text st)) = false ->
    snd (backups_restoreFromFile text st) = st.
Proof.
  intros text st H.
  destruct (Json.parse text) as [v|] eqn:P.
  - destruct v.
    1: now rewrite (restoreFromFile_null _ _ P).
    all: rewrite (restoreFromFile_value _ _ st P) in * by discriminate;
      destruct (truthy_opt _ && truthy_opt _); [discriminate H | reflexivity].
  - now rewrite (restoreFromFile_unparsed _ _ P).
Qed.

Lemma rejected_file_witness :
  snd (backups_restoreFromFile file_without_donations store_one_backup) = store_one_backup.
Proof.
  apply rejected_file_changes_nothing. vm_compute. reflexivity.
Defined.

(** X20: restoring the same backup a second time changes nothing more,
    through the actions of the same render or of the render that shows the
    restored store. *)
Theorem restore_is_idempotent :
  forall (shown : AnyStore) (backupId : string) (st st' : AnyStore),
    backups_restore shown backupId st = (Ok tt, st') ->
    backups_restore shown backupId st' = (Ok tt, st')
    /\ (any_backups shown = any_backups st ->
        backups_restore st' backupId st' = (Ok tt, st')).
Proof.
  intros shown backupId st st' H.
  destruct (restore_outcome shown backupId st) as [[e' E]|[b [v [F [P [N [E B]]]]]]];
    rewrite E in H; [discriminate|].
  injection H as <-.
  assert (R : forall shown',
             any_backups shown' = any_backups shown ->
             backups_restore shown' backupId (snd (restoreStateFromData v st))
             = (Ok tt, snd (restoreStateFromData v st))).
  { intros shown' S. unfold backups_restore, mbind. rewrite S, F.
    unfold JSON_parse. rewrite P. unfold ret.
    rewrite !restoreStateFromData_value by exact N. reflexivity. }
  split; [now apply R|]. intros S. apply R. now rewrite B, S.
Qed.

Lemma restore_twice_witness :
  backups_restore store_one_backup "backup-1"
    (snd (backups_restore store_one_backup "backup-1" store_one_backup))
  = (Ok tt, snd (backups_restore store_one_backup "backup-1" store_one_backup)).
Proof.
  apply (restore_is_idempotent store_one_backup "backup-1" store_one_backup). reflexivity.
Defined.

(** X21: deleting the backup that [backups.create] has just made gives the store
    back, when no older backup has its id, whatever render [create] was
    called from. *)
Theorem create_then_delete_backup :
  forall (env : Env) (shown : AnyStore) (s : State),
    unknown Backup.id ("backup-" +++ Date_now env) (backups s) ->
    exists b,
      fst (backups_create env shown (ofState s)) = Ok b
      /\ snd (backups_delete (Backup.id b) (snd (backups_create env shown (ofState s))))
         = ofState s.
Proof.
  intros env shown s H. eexists. split; [reflexivity|].
  unfold backups_create, backups_delete, mbind, modify, ret.
  cbn [fst snd]. unfold put_backups, ofState, newBackup.
  cbn [any_donors any_donations any_pledges any_recurringProfiles any_users any_roles
       any_settings any_outbox any_communicationQueue any_tags any_backups].
  cbn [filter Backup.id]. rewrite String.eqb_refl. cbn [negb].
  now rewrite (filter_unknown Backup.id _ _ H).
Qed.

Lemma create_then_delete_backup_witness :
  exists b,
    fst (backups_create host0 (ofState state_one_backup) (ofState state_one_backup)) = Ok b
    /\ snd (backups_delete (Backup.id b)
              (snd (backups_create host0 (ofState state_one_backup)
                      (ofState state_one_backup))))
       = ofState state_one_backup.
Proof.
  apply create_then_delete_backup.
  intros x [<-|[]] H. vm_compute in H. discriminate H.
Defined.

(** ** Sending from the outbox, and the pages of a list *)

Lemma only_digits_all (s : string) : all_chars is_digit (only_digits s) = true.
Proof.
  induction s as [|c r IH]; cbn; auto.
  destruct (is_digit c) eqn:E; cbn; auto. now rewrite E.
Qed.

Lemma only_digits_fixed (s : string) : all_chars is_digit s = true -> only_digits s = s.
Proof.
  induction s as [|c r IH]; cbn; auto.
  intros H. apply andb_true_iff in H as [H1 H2]. rewrite H1. f_equal. auto.
Qed.

(** X22: the number that [sanitizePhoneNumber] returns holds digits only, never
    exactly ten of them, and sanitizing it again changes nothing. *)
Theorem sanitizePhoneNumber_normalises :
  forall phone : string,
    all_chars is_digit (sanitizePhoneNumber phone) = true
    /\ String.length (sanitizePhoneNumber phone) <> 10%nat
    /\ sanitizePhoneNumber (sanitizePhoneNumber phone) = sanitizePhoneNumber phone.
Proof.
  intros phone.
  assert (A : all_chars is_digit (sanitizePhoneNumber phone) = true).
  { unfold sanitizePhoneNumber. pose proof (only_digits_all phone) as D.
    destruct (Nat.eqb _ 10); [cbn [all_chars]; now rewrite D | exact D]. }
  assert (L : String.length (sanitizePhoneNumber phone) <> 10%nat).
  { unfold sanitizePhoneNumber.
    destruct (Nat.eqb_spec (String.length (only_digits phone)) 10) as [E|E];
      [cbn [String.length]; lia | exact E]. }
  split; [exact A | split; [exact L|]].
  unfold sanitizePhoneNumber at 1. rewrite (only_digits_fixed _ A).
  now apply Nat.eqb_neq in L as ->.
Qed.

Lemma only_digits_empty (s : string) :
  String.eqb (only_digits s) "" = negb (has_digit s).
Proof.
  induction s as [|c r IH]; cbn; auto.
  destruct (is_digit c); cbn; auto.
Qed.

Lemma opens_has_digit (phone : string) : sendToWhatsApp_opens phone = has_digit phone.
Proof.
  unfold sendToWhatsApp_opens, sanitizePhoneNumber.
  destruct (Nat.eqb_spec (String.length (only_digits phone)) 10) as [E|E].
  - cbn. pose proof (only_digits_empty phone) as H.
    destruct (only_digits phone); [discriminate E|]. cbn in H.
    now destruct (has_digit phone).
  - rewrite only_digits_empty. apply negb_involutive.
Qed.

(** X23: [sendToWhatsApp] opens a window exactly when the number has a digit. *)
Theorem whatsapp_opens_iff_a_digit :
  forall phone : string,
    sendToWhatsApp_opens phone = true
    <-> exists a b c, phone = a +++ String c b /\ is_digit c = true.
Proof.
  intros phone. rewrite opens_has_digit. induction phone as [|c r IH]; cbn [has_digit].
  - split; [discriminate|]. intros [a [b [c [E _]]]]. destruct a; discriminate E.
  - rewrite orb_true_iff, IH. split.
    + intros [H|[a [b [c' [E H]]]]].
      * exists "", r, c. split; [reflexivity | exact H].
      * exists (String c a), b, c'. split; [cbn; now rewrite E | exact H].
    + intros [a [b [c' [E H]]]]. destruct a as [|x a]; cbn in E; injection E as -> ->.
      * now left.
      * right. exists a, b, c'. split; [reflexivity | exact H].
Qed.

Lemma prepare_send_message (p : ProcessedItem) (donor : Donor.t) (channel : Channel)
  (e : JSError) :
  prepare_send p donor channel = Throw e -> error_message e <> "".
Proof.
  unfold prepare_send, logSubject_of.
  destruct (OutboxItem.variant (item p)), (item_donation p), (item_template p), channel;
    cbn; try destruct (String.eqb _ ""); intros H; inversion H; discriminate.
Qed.

Lemma error_or_message (m : string) (previous : option string) :
  m <> "" -> error_or (Some m) previous = Some m.
Proof. intros H. unfold error_or. now apply String.eqb_neq in H as ->. Qed.

(** X24: [handleSend] keeps every outbox item in its place and changes only the
    items with the id sent: they end Sent, stamped with the time of the
    host and keeping the error they had, or Failed with a message that is
    not empty; in the second case no communication is logged and no window
    was opened. *)
Theorem handleSend_settles_the_item :
  forall (env env' : Env) (currentUser : option User.t) (p : ProcessedItem)
         (channel : Channel) (s : State) (n : nat) (before : OutboxItem.t),
    nth_error (outbox s) n = Some before ->
    exists after,
      nth_error (outbox (fst (handleSend env env' currentUser p channel s))) n = Some after
      /\ (OutboxItem.id before <> OutboxItem.id (item p) -> after = before)
      /\ (OutboxItem.id before = OutboxItem.id (item p) ->
          (OutboxItem.status after = Sent
           /\ OutboxItem.sentAt after = Some (now_iso env')
           /\ OutboxItem.error after = OutboxItem.error before)
          \/ (OutboxItem.status after = Failed
              /\ OutboxItem.sentAt after = OutboxItem.sentAt before
              /\ (exists m, OutboxItem.error after = Some m /\ m <> "")
              /\ donors (fst (handleSend env env' currentUser p channel s)) = donors s
              /\ snd (handleSend env env' currentUser p channel s) = false)).
Proof.
  intros env env' u p channel s n before H. unfold handleSend.
  destruct (item_donor p) as [donor|].
  - destruct (prepare_send p donor channel) as [[subject opened]|e] eqn:P;
      cbn [fst snd outbox outbox_updateStatus setOutbox donors_logCommunication setDonors donors];
      rewrite nth_error_map, H; cbn [option_map];
      destruct (String.eqb_spec (OutboxItem.id before) (OutboxItem.id (item p))) as [E|E];
      eexists; (split; [reflexivity|]); (split; [intros N; congruence|]); intros E';
      try contradiction.
    + left. cbn. auto.
    + right. cbn [OutboxItem.status OutboxItem.sentAt OutboxItem.error].
      rewrite error_or_message by exact (prepare_send_message _ _ _ _ P).
      repeat split; eauto using prepare_send_message.
  - cbn [fst snd outbox outbox_updateStatus setOutbox donors];
      rewrite nth_error_map, H; cbn [option_map];
      destruct (String.eqb_spec (OutboxItem.id before) (OutboxItem.id (item p))) as [E|E];
      eexists; (split; [reflexivity|]); (split; [intros N; congruence|]); intros E';
      try contradiction.
    right. cbn. repeat split; auto. eexists; split; [reflexivity | discriminate].
Qed.

Lemma handleSend_witness :
  exists after,
    nth_error (outbox (fst (handleSend host0 host0 (Some user_john)
                              (process_item store_receipt queued_receipt) Email
                              store_receipt))) 0
    = Some after
    /\ (OutboxItem.id queued_receipt
        <> OutboxItem.id (item (process_item store_receipt queued_receipt)) ->
        after = queued_receipt)
    /\ (OutboxItem.id queued_receipt
        = OutboxItem.id (item (process_item store_receipt queued_receipt)) ->
        (OutboxItem.status after = Sent
         /\ OutboxItem.sentAt after = Some (now_iso host0)
         /\ OutboxItem.error after = OutboxItem.error queued_receipt)
        \/ (OutboxItem.status after = Failed
            /\ OutboxItem.sentAt after = OutboxItem.sentAt queued_receipt
            /\ (exists m, OutboxItem.error after = Some m /\ m <> "")
            /\ donors (fst (handleSend host0 host0 (Some user_john)
                              (process_item store_receipt queued_receipt) Email
                              store_receipt))
               = donors store_receipt
            /\ snd (handleSend host0 host0 (Some user_john)
                      (process_item store_receipt queued_receipt) Email store_receipt)
               = false)).
Proof.
  exact (handleSend_settles_the_item host0 host0 (Some user_john)
           (process_item store_receipt queued_receipt) Email store_receipt 0%nat
           queued_receipt eq_refl).
Defined.

(** X25: when the phone number of the donor is not empty and has no digit,
    [handleSend] by WhatsApp opens no window and still marks the item
    Sent. *)
Theorem sent_without_a_window :
  forall (env env' : Env) (currentUser : option User.t) (p : ProcessedItem)
         (donor : Donor.t) (subject : string) (s : State) (it : OutboxItem.t),
    item_donor p = Some donor -> logSubject_of p = Ok subject ->
    Donor.phone donor <> "" -> has_digit (Donor.phone donor) = false ->
    In it (outbox (fst (handleSend env env' currentUser p WhatsApp s))) ->
    OutboxItem.id it = OutboxItem.id (item p) ->
    OutboxItem.status it = Sent
    /\ snd (handleSend env env' currentUser p WhatsApp s) = false.
Proof.
  intros env env' u p donor subject s it D L P N I E.
  unfold handleSend in *. rewrite D in *. unfold prepare_send in *. rewrite L in *.
  cbn [bind] in *. apply String.eqb_neq in P. rewrite P in *.
  rewrite opens_has_digit, N in *.
  cbn [fst snd outbox outbox_updateStatus setOutbox donors_logCommunication setDonors] in *.
  split; [|reflexivity].
  apply in_map_iff in I as [x [X _]]. rewrite <- X in *.
  destruct (String.eqb_spec (OutboxItem.id x) (OutboxItem.id (item p))); [reflexivity|].
  contradiction.
Qed.

Lemma sent_without_a_window_witness :
  OutboxItem.status sent_receipt = Sent
  /\ snd (handleSend host0 host0 None (process_item store_receipt queued_receipt)
            WhatsApp store_receipt) = false.
Proof.
  apply (sent_without_a_window host0 host0 None
           (process_item store_receipt queued_receipt) donorD2 "Receipt: R2"
           store_receipt sent_receipt).
  - reflexivity.
  - reflexivity.
  - discriminate.
  - reflexivity.
  - left. reflexivity.
  - reflexivity.
Defined.

Lemma find_none_filtered {A : Type} (f g : A -> bool) (l : list A) :
  (forall x, f x = true -> g x = false) -> find g (rev (filter f l)) = None.
Proof.
  intros H. destruct (find g (rev (filter f l))) as [x|] eqn:F; auto.
  apply find_some in F as [I G]. apply in_rev in I. apply filter_In in I as [_ I].
  rewrite (H x I) in G. discriminate.
Qed.

(** X26: [donors.delete] leaves the template items of the donor in the outbox;
    sending such an item afterwards fails with the message of the missing
    donor. *)
Theorem deleted_donor_fails_the_send :
  forall (env env' : Env) (currentUser : option User.t) (channel : Channel) (s : State)
         (n : nat) (it : OutboxItem.t) (donorId templateId : string),
    nth_error (outbox s) n = Some it ->
    OutboxItem.variant it = OutboxItem.template donorId templateId ->
    let s1 := donors_delete donorId s in
    exists after,
      nth_error (outbox (fst (handleSend env env' currentUser (process_item s1 it)
                                channel s1))) n = Some after
      /\ OutboxItem.status after = Failed
      /\ OutboxItem.error after = Some "Missing donor data.".
Proof.
  intros env env' u channel s n it d tpl H V s1.
  assert (P : item_donor (process_item s1 it) = None
              /\ item (process_item s1 it) = it).
  { unfold process_item. rewrite V. cbn [item_donor item]. split; [|reflexivity].
    unfold Map_get, s1, donors_delete. cbn [donors setDonors setDonations setPledges].
    apply find_none_filtered. intros x. now rewrite negb_true_iff. }
  destruct P as [P1 P2]. unfold handleSend. rewrite P1, P2.
  cbn [fst outbox outbox_updateStatus setOutbox].
  assert (O : outbox s1 = outbox s) by reflexivity. rewrite O.
  rewrite nth_error_map, H. cbn [option_map]. rewrite String.eqb_refl.
  eexists. split; [reflexivity|]. split; reflexivity.
Qed.

Lemma deleted_donor_witness :
  exists after,
    nth_error (outbox (fst (handleSend host0 host0 None
                              (process_item (donors_delete "D1" store_template) failed_item)
                              Email (donors_delete "D1" store_template)))) 0
    = Some after
    /\ OutboxItem.status after = Failed
    /\ OutboxItem.error after = Some "Missing donor data.".
Proof.
  exact (deleted_donor_fails_the_send host0 host0 None Email store_template 0%nat
           failed_item "D1" "template-1" eq_refl eq_refl).
Defined.

Lemma totalPages_spec (n k : Z) :
  0 < k -> (totalPages n k - 1) * k < n <= totalPages n k * k.
Proof. intros H. unfold totalPages, ceil_div. nia. Qed.

Lemma paginated_nat {A : Type} (l : list A) (p : Z) :
  1 <= p ->
  paginated l p
  = firstn 10 (skipn (Z.to_nat (p - 1) * 10) l).
Proof.
  intros H. unfold paginated, Array_slice, slice_index, ITEMS_PER_PAGE.
  set (len := Z.of_nat (length l)).
  replace ((p - 1) * 10 <? 0) with false by (symmetry; apply Z.ltb_ge; lia).
  replace ((p - 1) * 10 + 10 <? 0) with false by (symmetry; apply Z.ltb_ge; lia).
  destruct (Z.le_gt_cases ((p - 1) * 10) len) as [L|G].
  - replace (Z.to_nat (Z.min ((p - 1) * 10) len)) with (Z.to_nat (p - 1) * 10)%nat by lia.
    destruct (Z.le_gt_cases ((p - 1) * 10 + 10) len) as [L'|G'].
    + f_equal. lia.
    + replace (Z.min ((p - 1) * 10 + 10) len) with len by lia.
      replace (Z.min ((p - 1) * 10) len) with ((p - 1) * 10) by lia.
      rewrite !firstn_all2; auto; rewrite length_skipn; lia.
  - replace (Z.min ((p - 1) * 10 + 10) len) with len by lia.
    replace (Z.min ((p - 1) * 10) len) with len by lia.
    rewrite !skipn_all2 by lia. now rewrite !firstn_nil.
Qed.

(** X27: on a page between 1 and the last one, the rows shown are those that the
    caption of [Pagination] counts, from [startItem] to [endItem]. *)
Theorem page_matches_its_caption :
  forall (A : Type) (l : list A) (currentPage : Z),
    let totalItems := Z.of_nat (length l) in
    1 <= currentPage <= totalPages totalItems ITEMS_PER_PAGE ->
    Z.of_nat (length (paginated l currentPage))
    = endItem currentPage totalItems ITEMS_PER_PAGE
      - startItem currentPage ITEMS_PER_PAGE + 1
    /\ forall i, (i < length (paginated l currentPage))%nat ->
         nth_error (paginated l currentPage) i
         = nth_error l (Z.to_nat (startItem currentPage ITEMS_PER_PAGE - 1) + i).
Proof.
  intros A l p n [H1 H2].
  pose proof (totalPages_spec n ITEMS_PER_PAGE ltac:(unfold ITEMS_PER_PAGE; lia)) as T.
  rewrite paginated_nat by exact H1. unfold endItem, startItem, ITEMS_PER_PAGE in *.
  split.
  - rewrite length_firstn, length_skipn. subst n. nia.
  - intros i Hi. rewrite nth_error_firstn.
    replace (i <? 10)%nat with true.
    2:{ symmetry. apply Nat.ltb_lt. rewrite length_firstn in Hi. lia. }
    rewrite nth_error_skipn. f_equal. lia.
Qed.

Lemma page_witness :
  Z.of_nat (length (paginated rows11 2))
  = endItem 2 (Z.of_nat (length rows11)) ITEMS_PER_PAGE - startItem 2 ITEMS_PER_PAGE + 1.
Proof.
  apply (page_matches_its_caption Z rows11 2).
  change (1 <= 2 <= 2). lia.
Defined.

Lemma chunks {A : Type} (k : nat) (l : list A) (n a : nat) :
  concat (map (fun i => firstn k (skipn (i * k) l)) (seq a n))
  = firstn (n * k) (skipn (a * k) l).
Proof.
  revert a. induction n as [|n IH]; intros a; cbn [seq map concat]; [reflexivity|].
  rewrite IH. cbn [Nat.mul]. 
  rewrite <- (firstn_skipn k (firstn (k + n * k) (skipn (a * k) l))).
  rewrite firstn_firstn, Nat.min_l by lia. f_equal.
  rewrite skipn_firstn_comm, skipn_skipn.
  replace (k + n * k - k)%nat with (n * k)%nat by lia.
  replace (k + a * k)%nat with (S a * k)%nat by lia. reflexivity.
Qed.

(** X28: the pages from 1 to the last one, put one after the other, are the
    list: every row is on exactly one page. *)
Theorem pages_cover_the_list :
  forall (A : Type) (l : list A),
    concat (map (paginated l)
              (page_numbers (totalPages (Z.of_nat (length l)) ITEMS_PER_PAGE)))
    = l.
Proof.
  intros A l. unfold page_numbers. rewrite map_map.
  set (n := Z.of_nat (length l)).
  pose proof (totalPages_spec n ITEMS_PER_PAGE ltac:(unfold ITEMS_PER_PAGE; lia)) as T.
  rewrite (map_ext _ (fun i => firstn 10 (skipn (i * 10) l))).
  2:{ intros i. rewrite paginated_nat by lia. do 3 f_equal. lia. }
  rewrite chunks. change (0 * 10)%nat with 0%nat. cbn [skipn]. apply firstn_all2.
  unfold ITEMS_PER_PAGE in *. subst n. lia.
Qed.

(** X29: a current page beyond the last page, as is left behind when rows are
    deleted, shows no row; Next does not move it, and with ten rows or fewer
    left [Pagination] is not rendered at all. *)
Theorem stale_page_is_empty :
  forall (A : Type) (l : list A) (currentPage : Z),
    let totalItems := Z.of_nat (length l) in
    Z.max 1 (totalPages totalItems ITEMS_PER_PAGE) < currentPage ->
    paginated l currentPage = []
    /\ handleNext currentPage totalItems ITEMS_PER_PAGE = currentPage
    /\ (totalItems <= ITEMS_PER_PAGE -> Pagination_shown totalItems ITEMS_PER_PAGE = false).
Proof.
  intros A l p n H.
  pose proof (totalPages_spec n ITEMS_PER_PAGE ltac:(unfold ITEMS_PER_PAGE; lia)) as T.
  split; [|split].
  - rewrite paginated_nat by lia. rewrite skipn_all2; [apply firstn_nil|].
    unfold ITEMS_PER_PAGE in *. subst n. lia.
  - unfold handleNext. replace (p <? _) with false; [reflexivity|].
    symmetry. apply Z.ltb_ge. lia.
  - intros L. unfold Pagination_shown. apply negb_false_iff, Z.leb_le.
    unfold ITEMS_PER_PAGE in *. nia.
Qed.

Lemma stale_page_witness :
  paginated (firstn 10 rows11) 2 = []
  /\ handleNext 2 (Z.of_nat (length (firstn 10 rows11))) ITEMS_PER_PAGE = 2
  /\ (Z.of_nat (length (firstn 10 rows11)) <= ITEMS_PER_PAGE ->
      Pagination_shown (Z.of_nat (length (firstn 10 rows11))) ITEMS_PER_PAGE = false).
Proof.
  apply (stale_page_is_empty Z (firstn 10 rows11) 2).
  change (1 < 2). lia.
Defined.

(** X30: Previous and Next keep a page between 1 and the last page, and undo
    each other inside that range. *)
Theorem buttons_stay_in_range :
  forall (currentPage totalItems itemsPerPage : Z),
    1 <= currentPage <= totalPages totalItems itemsPerPage ->
    1 <= handlePrevious currentPage <= totalPages totalItems itemsPerPage
    /\ 1 <= handleNext currentPage totalItems itemsPerPage
         <= totalPages totalItems itemsPerPage
    /\ (1 < currentPage ->
        handleNext (handlePrevious currentPage) totalItems itemsPerPage = currentPage)
    /\ (currentPage < totalPages totalItems itemsPerPage ->
        handlePrevious (handleNext currentPage totalItems itemsPerPage) = currentPage).
Proof.
  intros p n k H. unfold handlePrevious, handleNext.
  generalize dependent (totalPages n k). intros T H.
  repeat split; intros;
    repeat match goal with
           | |- context [?a <? ?b] => destruct (Z.ltb_spec a b)
           end; lia.
Qed.

Lemma buttons_witness :
  1 <= handlePrevious 1 <= totalPages 25 10
  /\ 1 <= handleNext 1 25 10 <= totalPages 25 10
  /\ (1 < 1 -> handleNext (handlePrevious 1) 25 10 = 1)
  /\ (1 < totalPages 25 10 -> handlePrevious (handleNext 1 25 10) = 1).
Proof.
  apply (buttons_stay_in_range 1 25 10). change (1 <= 1 <= 3). lia.
Defined.
